(** * lblconv: the intermediate annotation representation and its transforms

    A shallow embedding of [ir.go] (the data model, [MapLabels],
    [TransformBboxes], [Filter], [ProcessImages], [Split] and the cropping
    helper) and of [resizeImage] from [via.go], together with the parts of
    the Go runtime and standard library these functions rely on; then of
    the path helpers ([splitPath], [mapFileNamesToExtensions],
    [parseLabelsWithOneToOneImages]), of the label map of the TFRecord
    writer and of the two AWS Rekognition readers.

    Conventions.
    - Go's [float64] is reached through the interface [Float64]; its instance
      [binary64] is IEEE 754 double precision (round to nearest even) built on
      the Standard Library's [SpecFloat].
    - Go's [int] is modelled as [Z]; a conversion from a float that does not
      fit 64 bits yields the smallest 64-bit integer, as on amd64.
    - A run-time panic is the outcome [Panicked]; Go [error] values are
      ordinary results, and [None] where only the failure matters.
    - [map[string]interface{}] is a [gmap string AttrValue] over the four
      dynamic types the readers store; maps are treated as values (every
      reader allocates a fresh map per annotation).
    - Log output is returned as data. *)

From Stdlib Require Import ZArith Lia Ascii String Sorted.
From Stdlib Require Import Floats.SpecFloat.
From Stdlib Require Import DecimalString.
From stdpp Require Import base option list gmap strings.

Local Open Scope string_scope.
Local Open Scope list_scope.
Local Open Scope Z_scope.

(** ** Outcomes of a Go call: a value, or a run-time panic *)

Inductive outcome (A : Type) : Type :=
  | Done (a : A)
  | Panicked.
Arguments Done {A} a.
Arguments Panicked {A}.

#[global] Instance outcome_ret : MRet outcome := fun A a => Done a.
#[global] Instance outcome_bind : MBind outcome := fun A B k m =>
  match m with
  | Done a => k a
  | Panicked => Panicked
  end.

(** The [error] values the package produces (the messages are the format
    strings of the [fmt.Errorf] calls). *)
Inductive error : Type :=
  | MalformedRule (rule : string)          (* "invalid mapping: %v" *)
  | InvalidSplit                           (* "the split percentages do not add up to 100" *)
  | UnsupportedFilter (name : string)      (* "unknown resampling filter %q" *)
  | UnsupportedEncoding (name : string)    (* "unsupported output encoding %q" *)
  | UnsupportedImageType (path : string)   (* "... does not provide a SubImage method" *)
  | ImageIOError (path : string).          (* errors of os.Open, image.Decode, os.Create, Encode *)

(** ** The Go standard library functions the package calls *)

Module Go.

(** [strings.Split(s, sep)] for a one-byte separator. *)
Fixpoint Split (sep : ascii) (s : string) : list string :=
  match s with
  | EmptyString => [EmptyString]
  | String c rest =>
      if Ascii.eqb c sep then EmptyString :: Split sep rest
      else match Split sep rest with
           | p :: ps => String c p :: ps
           | [] => [String c EmptyString]
           end
  end.

(** Number of occurrences of a byte. *)
Fixpoint countByte (c : ascii) (s : string) : nat :=
  match s with
  | EmptyString => O
  | String a rest => ((if Ascii.eqb a c then 1 else 0) + countByte c rest)%nat
  end.

(** Width in bytes of the first UTF-8 sequence of a non-empty string, as
    [utf8.DecodeRuneInString] reports it (1 for an invalid byte). *)
Definition between (lo hi : N) (s : string) (i : nat) : bool :=
  match String.get i s with
  | Some c => (lo <=? N_of_ascii c)%N && (N_of_ascii c <=? hi)%N
  | None => false
  end.

Definition runeWidth (s : string) : nat :=
  match s with
  | EmptyString => O
  | String c _ =>
      let b := N_of_ascii c in
      if (b <? 0x80)%N then 1%nat
      else if (0xC2 <=? b)%N && (b <=? 0xDF)%N then
        if between 0x80 0xBF s 1 then 2%nat else 1%nat
      else if (0xE0 <=? b)%N && (b <=? 0xEF)%N then
        let lo := if (b =? 0xE0)%N then 0xA0%N else 0x80%N in
        let hi := if (b =? 0xED)%N then 0x9F%N else 0xBF%N in
        if between lo hi s 1 && between 0x80 0xBF s 2 then 3%nat else 1%nat
      else if (0xF0 <=? b)%N && (b <=? 0xF4)%N then
        let lo := if (b =? 0xF0)%N then 0x90%N else 0x80%N in
        let hi := if (b =? 0xF4)%N then 0x8F%N else 0xBF%N in
        if between lo hi s 1 && between 0x80 0xBF s 2 && between 0x80 0xBF s 3
        then 4%nat else 1%nat
      else 1%nat
  end.

(** [strings.Replace(s, "", new, -1)]: [new] before every rune and at the
    end. [skip] counts the bytes of the current rune still to copy. *)
Fixpoint insertAtRunes (new : string) (skip : nat) (s : string) : string :=
  match s with
  | EmptyString => new
  | String c rest =>
      match skip with
      | S k => String c (insertAtRunes new k rest)
      | O => new +:+ String c (insertAtRunes new (runeWidth s - 1) rest)
      end
  end.

(** [strings.Replace(s, old, new, -1)] for a non-empty [old]: the leftmost
    occurrences, not overlapping. [skip] counts the bytes of the matched
    occurrence still to drop. *)
Fixpoint replaceFrom (old new : string) (skip : nat) (s : string) : string :=
  match s with
  | EmptyString => EmptyString
  | String c rest =>
      match skip with
      | S k => replaceFrom old new k rest
      | O =>
          if String.prefix old s
          then new +:+ replaceFrom old new (String.length old - 1) rest
          else String c (replaceFrom old new 0 rest)
      end
  end.

(** [strings.Replace(s, old, new, -1)]. *)
Definition ReplaceAll (s old new : string) : string :=
  if String.eqb old new then s
  else match old with
       | EmptyString => insertAtRunes new 0 s
       | _ => replaceFrom old new 0 s
       end.

(** [filepath.Ext]: the suffix from the last dot of the last path element.
    [extLoop i] is the loop [for i := i - 1; i >= 0 && path[i] != '/'; i--]. *)
Fixpoint extLoop (i : nat) (path : string) : string :=
  match i with
  | O => EmptyString
  | S j =>
      match String.get j path with
      | Some c =>
          if Ascii.eqb c "/" then EmptyString
          else if Ascii.eqb c "." then String.substring j (String.length path - j) path
          else extLoop j path
      | None => EmptyString
      end
  end.

Definition Ext (path : string) : string := extLoop (String.length path) path.

(** The verbs [%d] and [%02d] of [fmt.Sprintf]. *)
Definition fmt_d (z : Z) : string := NilZero.string_of_int (Z.to_int z).

Definition fmt_02d (z : Z) : string :=
  if (0 <=? z) && (z <? 10) then "0" +:+ fmt_d z
  else if (-10 <? z) && (z <? 0) then "-" +:+ fmt_d (- z)
  else fmt_d z.

(** ASCII lower-casing; [strings.ToLower] agrees with it on every string
    whose image is compared with "jpg", "jpeg" or "png". *)
Definition lowerByte (c : ascii) : ascii :=
  let n := N_of_ascii c in
  if (65 <=? n)%N && (n <=? 90)%N then ascii_of_N (n + 32) else c.

Fixpoint ToLower (s : string) : string :=
  match s with
  | EmptyString => EmptyString
  | String c rest => String (lowerByte c) (ToLower rest)
  end.

(** [image.Point], [image.Rectangle] and the methods used. *)
Record Point : Type := Pt { X : Z; Y : Z }.
Record Rectangle : Type := MkRect { Min : Point; Max : Point }.

Definition ZR : Rectangle := MkRect (Pt 0 0) (Pt 0 0).

Definition Rect (x0 y0 x1 y1 : Z) : Rectangle :=
  let '(x0, x1) := if x0 >? x1 then (x1, x0) else (x0, x1) in
  let '(y0, y1) := if y0 >? y1 then (y1, y0) else (y0, y1) in
  MkRect (Pt x0 y0) (Pt x1 y1).

Definition Dx (r : Rectangle) : Z := X (Max r) - X (Min r).
Definition Dy (r : Rectangle) : Z := Y (Max r) - Y (Min r).

Definition Empty (r : Rectangle) : bool :=
  (X (Min r) >=? X (Max r)) || (Y (Min r) >=? Y (Max r)).

Definition Intersect (r s : Rectangle) : Rectangle :=
  let minx := if X (Min r) <? X (Min s) then X (Min s) else X (Min r) in
  let miny := if Y (Min r) <? Y (Min s) then Y (Min s) else Y (Min r) in
  let maxx := if X (Max r) >? X (Max s) then X (Max s) else X (Max r) in
  let maxy := if Y (Max r) >? Y (Max s) then Y (Max s) else Y (Max r) in
  let r' := MkRect (Pt minx miny) (Pt maxx maxy) in
  if Empty r' then ZR else r'.

(** Conversion to a 64-bit [int] of an integral value. *)
Definition minInt64 : Z := - 2 ^ 63.
Definition toInt64 (z : Z) : Z :=
  if (minInt64 <=? z) && (z <? 2 ^ 63) then z else minInt64.

(** [make([]T, 0, cap)] for elements of [size] bytes: [makeslice] panics
    ("cap out of range") when the capacity is negative, which it reads as a
    huge unsigned number, or when its bytes exceed [maxAlloc], which is
    [2^48] on amd64. Within these limits the allocation is taken to
    succeed: the memory of the machine is not modelled. *)
Definition maxAlloc : Z := 2 ^ 48.
Definition makePanics (size cap : Z) : bool :=
  (cap <? 0) || (maxAlloc <? size * cap).

End Go.

(** ** Go's [float64] *)

(** The operations on [float64] that the package uses. [f_round_int x] is
    [int(math.Round(x))], [f_trunc_int x] is [int(x)]. *)
Class Float64 (F : Type) : Type := {
  f_add : F -> F -> F;
  f_sub : F -> F -> F;
  f_mul : F -> F -> F;
  f_div : F -> F -> F;
  f_eqb : F -> F -> bool;
  f_ltb : F -> F -> bool;
  f_leb : F -> F -> bool;
  f_of_int : Z -> F;
  f_round_int : F -> Z;
  f_trunc_int : F -> Z;
  MaxFloat64 : F
}.

Section FloatNotations.
Context {F : Type} `{Float64 F}.

(** Go's [!=], [>] and [>=]. *)
Definition f_neb (x y : F) : bool := negb (f_eqb x y).
Definition f_gtb (x y : F) : bool := f_ltb y x.
Definition f_geb (x y : F) : bool := f_leb y x.

(** The constants of the source; a decimal literal denotes the float
    nearest to it, which is what dividing the two integers yields. *)
Definition f_zero : F := f_of_int 0.
Definition f_one : F := f_of_int 1.
Definition f_half : F := f_div (f_of_int 1) (f_of_int 2).         (* 0.5 *)
Definition f_1_05 : F := f_div (f_of_int 105) (f_of_int 100).     (* 1.05 *)
Definition f_100 : F := f_of_int 100.
End FloatNotations.

(** IEEE 754 binary64. *)
Module B64.
Definition prec : Z := 53.
Definition emax : Z := 1024.

Definition of_int (z : Z) : spec_float := binary_normalize prec emax z 0 false.

(** The integer nearest to the magnitude [m * 2^e], halves away from zero
    ([math.Round]), and its integral part ([int] truncates). *)
Definition roundMagnitude (m : positive) (e : Z) : Z :=
  match e with
  | Zneg p => (Zpos m + 2 ^ (Zpos p - 1)) / 2 ^ Zpos p
  | _ => Zpos m * 2 ^ e
  end.

Definition truncMagnitude (m : positive) (e : Z) : Z :=
  match e with
  | Zneg p => Zpos m / 2 ^ Zpos p
  | _ => Zpos m * 2 ^ e
  end.

Definition toInt (magnitude : positive -> Z -> Z) (x : spec_float) : Z :=
  match x with
  | S754_zero _ => 0
  | S754_finite s m e =>
      Go.toInt64 (if s then - magnitude m e else magnitude m e)
  | S754_infinity _ | S754_nan => Go.minInt64
  end.
End B64.

#[global] Instance binary64 : Float64 spec_float := {|
  f_add := SFadd B64.prec B64.emax;
  f_sub := SFsub B64.prec B64.emax;
  f_mul := SFmul B64.prec B64.emax;
  f_div := SFdiv B64.prec B64.emax;
  f_eqb := SFeqb;
  f_ltb := SFltb;
  f_leb := SFleb;
  f_of_int := B64.of_int;
  f_round_int := B64.toInt B64.roundMagnitude;
  f_trunc_int := B64.toInt B64.truncMagnitude;
  MaxFloat64 := SFmax_float B64.prec B64.emax
|}.

(** ** The intermediate representation ([ir.go]) *)

(** A Go function that returns [(value, error)]. *)
Inductive result (A : Type) : Type :=
  | Ok (a : A)
  | Err (e : error).
Arguments Ok {A} a.
Arguments Err {A} e.

(** Keys for known annotation attributes. *)
Definition AncestorLabels : string := "Ancestors".
Definition Confidence : string := "Confidence".
Definition CropCoords : string := "CropCoords".
Definition DetectedText : string := "Text".

Section DataModel.
Context {F : Type}.

(** The dynamic types stored in [Attributes]: [float64], [string],
    [[]string] and [bool]. *)
Inductive AttrValue : Type :=
  | AFloat (f : F)
  | AString (s : string)
  | AStrings (l : list string)
  | ABool (b : bool).

(** [[4]float64]: absolute x1, y1, x2, y2 (indices 0 to 3). *)
Record Coords4 : Type := MkCoords { c0 : F; c1 : F; c2 : F; c3 : F }.

Record Annotation : Type := MkAnnotation {
  Attributes : gmap string AttrValue;
  Coords : Coords4;
  Label : string
}.

Record AnnotatedFile : Type := MkFile {
  Annotations : list Annotation;
  FilePath : string
}.
End DataModel.
Arguments AttrValue : clear implicits.
Arguments Coords4 : clear implicits.
Arguments Annotation : clear implicits.
Arguments AnnotatedFile : clear implicits.

(** [AnnotatedFiles] is the annotation metadata for a list of files. *)
Abbreviation AnnotatedFiles F := (list (AnnotatedFile F)).

(** An [image.Image] as far as the package looks at it: its bounds, and
    whether its dynamic type has a [SubImage] method. *)
Record Image : Type := MkImage { Bounds : Go.Rectangle; hasSubImage : bool }.

Definition SubImage (img : Image) (r : Go.Rectangle) : Image :=
  {| Bounds := r; hasSubImage := hasSubImage img |}.

Section IR.
Context {F : Type} `{Float64 F}.

Definition Width (a : Annotation F) : F := f_sub (c2 (Coords a)) (c0 (Coords a)).
Definition Height (a : Annotation F) : F := f_sub (c3 (Coords a)) (c1 (Coords a)).

(** *** scaleCoords *)

(** Even indices are multiplied by [width], odd ones by [height]. *)
Definition scaleAnnotation (width height : F) (a : Annotation F) : Annotation F :=
  {| Attributes := Attributes a;
     Coords := {| c0 := f_mul (c0 (Coords a)) width;
                  c1 := f_mul (c1 (Coords a)) height;
                  c2 := f_mul (c2 (Coords a)) width;
                  c3 := f_mul (c3 (Coords a)) height |};
     Label := Label a |}.

Definition scaleCoords (width height : F) (f : AnnotatedFile F) : AnnotatedFile F :=
  {| Annotations := map (scaleAnnotation width height) (Annotations f);
     FilePath := FilePath f |}.

(** *** cropObjectsFromImage *)

(** The bounding box rounded to pixels and clipped to the image bounds. *)
Definition clipToBounds (bounds : Go.Rectangle) (a : Annotation F) : Go.Rectangle :=
  Go.Intersect
    (Go.Rect (f_round_int (c0 (Coords a))) (f_round_int (c1 (Coords a)))
             (f_round_int (c2 (Coords a))) (f_round_int (c3 (Coords a))))
    bounds.

(** [fmt.Sprintf("(%d,%d)(%d,%d)", r.Min.X, r.Min.Y, r.Max.X, r.Max.Y)] *)
Definition cropCoordsString (r : Go.Rectangle) : string :=
  "(" +:+ Go.fmt_d (Go.X (Go.Min r)) +:+ "," +:+ Go.fmt_d (Go.Y (Go.Min r)) +:+ ")(" +:+
  Go.fmt_d (Go.X (Go.Max r)) +:+ "," +:+ Go.fmt_d (Go.Y (Go.Max r)) +:+ ")".

(** [fmt.Sprintf("%s_%02d%s", path[0:len(path)-len(ext)], i, ext)] *)
Definition cropPath (path : string) (i : nat) : string :=
  let ext := Go.Ext path in
  String.substring 0 (String.length path - String.length ext) path
    +:+ "_" +:+ Go.fmt_02d (Z.of_nat i) +:+ ext.

(** The body of the loop over [f.Annotations]; [i] is the index of the
    head of [annotations] in [f.Annotations]. *)
Fixpoint cropLoop (img : Image) (path : string) (i : nat)
    (annotations : list (Annotation F))
    (crops : list Image) (annotatedFiles : list (AnnotatedFile F))
    : list Image * list (AnnotatedFile F) :=
  match annotations with
  | [] => (crops, annotatedFiles)
  | a :: rest =>
      let r := clipToBounds (Bounds img) a in
      if Go.Empty r then cropLoop img path (S i) rest crops annotatedFiles
      else
        let attrs := <[CropCoords := AString (cropCoordsString r)]> (Attributes a) in
        let fileData :=
          {| Annotations :=
               [ {| Attributes := attrs;
                    Coords := {| c0 := f_zero; c1 := f_zero;
                                 c2 := f_of_int (Go.Dx r); c3 := f_of_int (Go.Dy r) |};
                    Label := Label a |} ];
             FilePath := cropPath path i |} in
        cropLoop img path (S i) rest
          (crops ++ [SubImage img r]) (annotatedFiles ++ [fileData])
  end.

Definition cropObjectsFromImage (f : AnnotatedFile F) (img : Image)
    : result (list Image * list (AnnotatedFile F)) :=
  if negb (hasSubImage img) then Err (UnsupportedImageType (FilePath f))
  else Ok (cropLoop img (FilePath f) 0 (Annotations f) [] []).

(** *** MapLabels *)

(** The first loop: every mapping must split into [old] and [new]. *)
Fixpoint parseMappings (mappings : list string) : result (list (string * string)) :=
  match mappings with
  | [] => Ok []
  | v :: rest =>
      let a := Go.Split "=" v in
      if negb (length a =? 2)%nat then Err (MalformedRule v)
      else match parseMappings rest with
           | Ok replacements =>
               Ok ((nth 0 a EmptyString, nth 1 a EmptyString) :: replacements)
           | Err e => Err e
           end
  end.

(** The replacements applied, in order, to one label. *)
Definition mapLabel (replacements : list (string * string)) (label : string) : string :=
  fold_left (fun l r => Go.ReplaceAll l (fst r) (snd r)) replacements label.

Definition mapAnnotation (replacements : list (string * string)) (a : Annotation F)
    : Annotation F :=
  {| Attributes := Attributes a; Coords := Coords a;
     Label := mapLabel replacements (Label a) |}.

Definition mapFile (replacements : list (string * string)) (f : AnnotatedFile F)
    : AnnotatedFile F :=
  {| Annotations := map (mapAnnotation replacements) (Annotations f);
     FilePath := FilePath f |}.

(** The number of labels that differ after the replacements. *)
Definition countChanged (replacements : list (string * string)) (data : AnnotatedFiles F)
    : nat :=
  length (filter (fun a => mapLabel replacements (Label a) ≠ Label a)
                 (concat (map Annotations data))).

(** [MapLabels] yields the data it leaves behind, the number it logs (if it
    logs) and the error it returns (if any). *)
Definition MapLabels (mappings : list string) (data : AnnotatedFiles F)
    : AnnotatedFiles F * option nat * option error :=
  match mappings with
  | [] => (data, None, None)
  | _ =>
      match parseMappings mappings with
      | Err e => (data, None, Some e)
      | Ok replacements =>
          (map (mapFile replacements) data, Some (countChanged replacements data), None)
      end
  end.

(** *** TransformBboxes *)

(** Scale about the centre. *)
Definition scaleBbox (scaleX scaleY : F) (a : Annotation F) : Annotation F :=
  if f_neb scaleX f_one || f_neb scaleY f_one then
    let w := Width a in
    let h := Height a in
    let dx := f_mul (f_sub (f_mul w scaleX) w) f_half in
    let dy := f_mul (f_sub (f_mul h scaleY) h) f_half in
    {| Attributes := Attributes a;
       Coords := {| c0 := f_sub (c0 (Coords a)) dx; c1 := f_sub (c1 (Coords a)) dy;
                    c2 := f_add (c2 (Coords a)) dx; c3 := f_add (c3 (Coords a)) dy |};
       Label := Label a |}
  else a.

(** Grow to match the desired aspect ratio. *)
Definition growBbox (aspectRatio : F) (a : Annotation F) : Annotation F :=
  if f_gtb aspectRatio f_zero then
    let w := Width a in
    let h := Height a in
    let ratio := if f_neb h f_zero then f_div w h else MaxFloat64 in
    if f_ltb ratio aspectRatio then
      (* Expand horizontally. *)
      let dx := f_mul (f_sub (f_mul h aspectRatio) w) f_half in
      {| Attributes := Attributes a;
         Coords := {| c0 := f_sub (c0 (Coords a)) dx; c1 := c1 (Coords a);
                      c2 := f_add (c2 (Coords a)) dx; c3 := c3 (Coords a) |};
         Label := Label a |}
    else if f_gtb ratio aspectRatio then
      (* Expand vertically. *)
      let dy := f_mul (f_sub (f_div w aspectRatio) h) f_half in
      {| Attributes := Attributes a;
         Coords := {| c0 := c0 (Coords a); c1 := f_sub (c1 (Coords a)) dy;
                      c2 := c2 (Coords a); c3 := f_add (c3 (Coords a)) dy |};
         Label := Label a |}
    else a
  else a.

Definition transformBbox (scaleX scaleY aspectRatio : F) (a : Annotation F)
    : Annotation F :=
  growBbox aspectRatio (scaleBbox scaleX scaleY a).

Definition TransformBboxes (scaleX scaleY aspectRatio : F) (data : AnnotatedFiles F)
    : AnnotatedFiles F :=
  map (fun f => {| Annotations := map (transformBbox scaleX scaleY aspectRatio)
                                      (Annotations f);
                   FilePath := FilePath f |}) data.

(** *** Filter *)

(** Deletes the annotation at index [i]: the last element takes its place. *)
Definition deleteAnnotation {A : Type} (annotations : list A) (i : nat) : list A :=
  let l := length annotations in
  match annotations !! (l - 1)%nat with
  | Some last => take (l - 1) (<[i := last]> annotations)
  | None => annotations
  end.

(** Look for string in list. *)
Fixpoint inList (v : string) (l : list string) : bool :=
  match l with
  | [] => false
  | val :: rest => if String.eqb val v then true else inList v rest
  end.

(** [reflect.Zero(reflect.TypeOf(v)).Interface()] *)
Definition zeroValue (v : AttrValue F) : AttrValue F :=
  match v with
  | AFloat _ => AFloat f_zero
  | AString _ => AString EmptyString
  | AStrings _ => AStrings []
  | ABool _ => ABool false
  end.

(** [==] on two interface values: values of different dynamic types are
    unequal; values of one comparable type are compared; comparing values
    of the slice type [[]string] panics ("comparing uncomparable type"). *)
Definition interfaceEq (v w : AttrValue F) : outcome bool :=
  match v, w with
  | AFloat x, AFloat y => Done (f_eqb x y)
  | AString s, AString t => Done (String.eqb s t)
  | ABool b, ABool c => Done (Bool.eqb b c)
  | AStrings _, AStrings _ => Panicked
  | _, _ => Done false
  end.

Section FilterParams.
Variables (labelNames attributes requiredAttrs : list string).
Variables (minConfidence : F) (requireLabel : bool).
Variables (minBboxWidth minBboxHeight minAspectRatio maxAspectRatio : F).

(** Filter by confidence: [c, ok := a.Attributes[Confidence].(float64);
    ok && c < minConfidence]. *)
Definition failsConfidence (a : Annotation F) : bool :=
  match Attributes a !! Confidence with
  | Some (AFloat c) => f_ltb c minConfidence
  | _ => false
  end.

(** Filter by bbox size. *)
Definition failsBboxSize (a : Annotation F) : bool :=
  f_gtb minBboxWidth (Width a) || f_gtb minBboxHeight (Height a).

(** Filter by bbox aspect ratio. *)
Definition failsAspectRatio (a : Annotation F) : bool :=
  if f_neb minAspectRatio f_zero || f_neb maxAspectRatio f_zero then
    let keep := f_neb (Height a) f_zero in
    let keep :=
      if keep then
        let ratio := f_div (Width a) (Height a) in
        (f_eqb minAspectRatio f_zero || f_geb ratio minAspectRatio) &&
        (f_eqb maxAspectRatio f_zero || f_leb ratio maxAspectRatio)
      else keep in
    negb keep
  else false.

(** Filter by labels. *)
Definition failsLabels (a : Annotation F) : bool :=
  negb (length labelNames =? 0)%nat && negb (inList (Label a) labelNames).

(** Filter by required attributes with non zero value: the loop over
    [requiredAttrs], which stops at the first failing key. *)
Fixpoint failsRequired (attrs : gmap string (AttrValue F)) (keys : list string)
    : outcome bool :=
  match keys with
  | [] => Done false
  | k :: rest =>
      match attrs !! k with
      | None => Done true
      | Some v =>
          isZero ← interfaceEq v (zeroValue v);
          if isZero : bool then Done true else failsRequired attrs rest
      end
  end.

(** Filter attributes: delete the keys that are not listed. *)
Definition filterAttributes (a : Annotation F) : Annotation F :=
  if negb (length attributes =? 0)%nat then
    {| Attributes := filter (fun kv => inList (fst kv) attributes = true) (Attributes a);
       Coords := Coords a; Label := Label a |}
  else a.

(** What one iteration of [annotationLoop] decides for the annotation at
    index [i]: delete it ([None]) or keep it with its attributes filtered. *)
Definition filterAnnotation (a : Annotation F) : outcome (option (Annotation F)) :=
  if failsConfidence a then Done None
  else if failsBboxSize a then Done None
  else if failsAspectRatio a then Done None
  else if failsLabels a then Done None
  else
    fails ← failsRequired (Attributes a) requiredAttrs;
    if fails : bool then Done None else Done (Some (filterAttributes a)).

(** [annotationLoop]: the loop [for i, aLen := 0, len(d.Annotations);
    i < aLen; i++]. [aLen] equals [len(d.Annotations)] throughout, and
    every iteration either advances [i] or shortens the slice, so
    [length annotations - i] iterations are enough. *)
Fixpoint annotationLoop (fuel : nat) (i : nat) (annotations : list (Annotation F))
    : outcome (list (Annotation F)) :=
  match fuel with
  | O => Done annotations
  | S fuel' =>
      match annotations !! i with
      | None => Done annotations
      | Some a =>
          kept ← filterAnnotation a;
          match kept with
          | None => annotationLoop fuel' i (deleteAnnotation annotations i)
          | Some a' => annotationLoop fuel' (S i) (<[i := a']> annotations)
          end
      end
  end.

Definition filterAnnotations (annotations : list (Annotation F))
    : outcome (list (Annotation F)) :=
  annotationLoop (length annotations) 0 annotations.

(** The loop over the files, with the two label counters. *)
Fixpoint fileLoop (fuel : nat) (dataIdx : nat) (data : AnnotatedFiles F)
    (numLabelsBeforeFilter numLabelsAfterFilter : nat)
    : outcome (AnnotatedFiles F * nat * nat) :=
  match fuel with
  | O => Done (data, numLabelsBeforeFilter, numLabelsAfterFilter)
  | S fuel' =>
      match data !! dataIdx with
      | None => Done (data, numLabelsBeforeFilter, numLabelsAfterFilter)
      | Some d =>
          annotations ← filterAnnotations (Annotations d);
          let before := (numLabelsBeforeFilter + length (Annotations d))%nat in
          let after := (numLabelsAfterFilter + length annotations)%nat in
          let d' := {| Annotations := annotations; FilePath := FilePath d |} in
          let data' := <[dataIdx := d']> data in
          if requireLabel && (length annotations =? 0)%nat
          then fileLoop fuel' dataIdx (deleteAnnotation data' dataIdx) before after
          else fileLoop fuel' (S dataIdx) data' before after
      end
  end.

(** [Filter] yields the filtered data and the two numbers it logs: the
    labels and the files filtered out. *)
Definition Filter (data : AnnotatedFiles F) : outcome (AnnotatedFiles F * (nat * nat)) :=
  r ← fileLoop (length data) 0 data 0 0;
  let '(data', numLabelsBeforeFilter, numLabelsAfterFilter) := r in
  Done (data', ((numLabelsBeforeFilter - numLabelsAfterFilter)%nat,
                (length data - length data')%nat)).
End FilterParams.

(** *** Split *)

(** [int(1.05 * float64(percent) / 100 * float64(n))] for [n] files, the capacity
    allocated for a bucket. *)
Definition bucketCap (percent len : Z) : Z :=
  f_trunc_int (f_mul (f_div (f_mul f_1_05 (f_of_int percent)) f_100) (f_of_int len)).

(** The size in bytes of an [AnnotatedFile]: a slice header and a string
    header. *)
Definition sizeofAnnotatedFile : Z := 24 + 16.

(** The first loop: [make(AnnotatedFiles, 0, cap)] for every entry, which
    panics on a capacity that is negative or too large; the result is the
    final [sum]. *)
Fixpoint allocLoop (len : Z) (sum : Z) (cumulativeSplits : list Z) : outcome Z :=
  match cumulativeSplits with
  | [] => Done sum
  | s :: rest =>
      let percent := s - sum in
      if Go.makePanics sizeofAnnotatedFile (bucketCap percent len) then Panicked
      else allocLoop len s rest
  end.

(** The inner loop: append [d] to the first dataset whose boundary exceeds
    the draw [r]; [i] is the index of the head of [splits]. *)
Fixpoint assignLoop {A : Type} (r : Z) (d : A) (i : nat) (splits : list Z)
    (datasets : list (list A)) : list (list A) :=
  match splits with
  | [] => datasets
  | s :: rest =>
      if r <? s then alter (fun bucket => bucket ++ [d]) i datasets
      else assignLoop r d (S i) rest datasets
  end.

(** The loop [outer]; [rng k] is the value of the [k]-th call of
    [rng.Intn(100)]. *)
Fixpoint splitLoop {A : Type} (rng : nat -> Z) (cumulativeSplits : list Z) (k : nat)
    (data : list A) (datasets : list (list A)) : list (list A) :=
  match data with
  | [] => datasets
  | d :: rest =>
      splitLoop rng cumulativeSplits (S k) rest
        (assignLoop (rng k) d 0 cumulativeSplits datasets)
  end.

Definition Split (rng : nat -> Z) (cumulativeSplits : list Z) (data : AnnotatedFiles F)
    : outcome (result (list (AnnotatedFiles F))) :=
  sum ← allocLoop (Z.of_nat (length data)) 0 cumulativeSplits;
  if negb (sum =? 100) then Done (Err InvalidSplit)
  else
    let datasets := replicate (length cumulativeSplits) [] in
    Done (Ok (splitLoop rng cumulativeSplits 0 data datasets)).
End IR.

(** ** Image processing ([resizeImage] of [via.go], [ProcessImages]) *)

(** [imaging.ResampleFilter], as far as the package selects one. *)
Inductive ResampleFilter : Type :=
  | NearestNeighbor | Box | Linear | Gaussian | Lanczos.

Section ImagePipeline.
Context {F : Type} `{Float64 F}.

(** What lies outside the package: the resampling of the imaging library,
    the file system behind [loadImage] and [saveImage] (a state [World]),
    and the path functions [filepath.Base] and [filepath.Join]. *)
Variable Resize : Image -> Z -> Z -> ResampleFilter -> Image.
Variable World : Type.
Variable loadImage : World -> string -> result Image.
Variable saveImage : World -> string -> Image -> Z -> World * option error.
Variable Base : string -> string.
Variable Join : string -> string -> string.

(** *** resizeImage *)
Definition resizeImage (img : Image) (longerSide shorterSide : Z)
    (downsamplingFilter upsamplingFilter : ResampleFilter) : Image * F * F :=
  let imgWidth := Go.Dx (Bounds img) in
  let imgHeight := Go.Dy (Bounds img) in
  let isLandscape := negb (imgHeight >? imgWidth) in
  let imgLonger := if imgHeight >? imgWidth then imgHeight else imgWidth in
  let imgShorter := if imgHeight >? imgWidth then imgWidth else imgHeight in
  (* Calculate the target dimensions. *)
  let longerSide' :=
    if longerSide <=? 0
    then f_round_int (f_mul (f_of_int shorterSide)
                            (f_div (f_of_int imgLonger) (f_of_int imgShorter)))
    else longerSide in
  let shorterSide' :=
    if longerSide <=? 0 then shorterSide
    else if shorterSide <=? 0
    then f_round_int (f_mul (f_of_int longerSide)
                            (f_div (f_of_int imgShorter) (f_of_int imgLonger)))
    else shorterSide in
  (* Select the filter based on the direction of the rescaling operation. *)
  let filter :=
    if longerSide' * shorterSide' <? imgWidth * imgHeight
    then downsamplingFilter else upsamplingFilter in
  (* Resize. *)
  if isLandscape then
    (Resize img longerSide' shorterSide' filter,
     f_div (f_of_int longerSide') (f_of_int imgLonger),
     f_div (f_of_int shorterSide') (f_of_int imgShorter))
  else
    (Resize img shorterSide' longerSide' filter,
     f_div (f_of_int shorterSide') (f_of_int imgShorter),
     f_div (f_of_int longerSide') (f_of_int imgLonger)).

(** *** processImage *)

(** The loop over the images to process (the original, or its crops), each
    with its metadata: resize, save, update the path, rescale. It stops at
    the first error. The results are the metadata of the images processed
    before it stopped. *)
Fixpoint processLoop (w : World) (imageOutDir fileExt : string)
    (longerSide shorterSide : Z) (downsample upsample : ResampleFilter)
    (jpegQuality : Z) (doResizeImage : bool)
    (items : list (Image * AnnotatedFile F))
    : World * list (AnnotatedFile F) * option error :=
  match items with
  | [] => (w, [], None)
  | (img, data) :: rest =>
      let '(img', scaleWidth, scaleHeight) :=
        if doResizeImage
        then resizeImage img longerSide shorterSide downsample upsample
        else (img, f_zero, f_zero) in
      let inName := Base (FilePath data) in
      let inFileExt := Go.Ext inName in
      let outName :=
        String.substring 0 (String.length inName - String.length inFileExt) inName
          +:+ fileExt in
      let outPath := Join imageOutDir outName in
      match saveImage w outPath img' jpegQuality with
      | (w', Some err) => (w', [], Some err)
      | (w', None) =>
          let data' := {| Annotations := Annotations data; FilePath := outPath |} in
          let data'' :=
            if doResizeImage then scaleCoords scaleWidth scaleHeight data' else data' in
          let '(w'', done, err) :=
            processLoop w' imageOutDir fileExt longerSide shorterSide downsample upsample
              jpegQuality doResizeImage rest in
          (w'', data'' :: done, err)
      end
  end.

(** [processImage] yields the world, the metadata of [data] as it leaves it,
    the metadata sent to [croppedData], and the error sent to [errors]. *)
Definition processImage (w : World) (data : AnnotatedFile F)
    (imageOutDir fileExt : string) (longerSide shorterSide : Z)
    (downsample upsample : ResampleFilter) (jpegQuality : Z)
    (doCropObjects doResizeImage : bool)
    : World * AnnotatedFile F * list (AnnotatedFile F) * option error :=
  match loadImage w (FilePath data) with
  | Err err => (w, data, [], Some err)
  | Ok img =>
      if doCropObjects then
        match cropObjectsFromImage data img with
        | Err err => (w, data, [], Some err)
        | Ok (images, tmpData) =>
            let '(w', sent, err) :=
              processLoop w imageOutDir fileExt longerSide shorterSide downsample upsample
                jpegQuality doResizeImage (zip images tmpData) in
            (w', data, sent, err)
        end
      else
        let '(w', done, err) :=
          processLoop w imageOutDir fileExt longerSide shorterSide downsample upsample
            jpegQuality doResizeImage [(img, data)] in
        (w', default data (head done), [], err)
  end.

(** *** ProcessImages *)

(** The [switch] on a filter name. *)
Definition selectFilter (name : string) : option ResampleFilter :=
  if String.eqb name "nearest" then Some NearestNeighbor
  else if String.eqb name "box" then Some Box
  else if String.eqb name "linear" then Some Linear
  else if String.eqb name "gaussian" then Some Gaussian
  else if String.eqb name "lanczos" then Some Lanczos
  else None.

(** The [switch] on the lower-cased encoding. *)
Definition selectFileExt (encoding : string) : option string :=
  let e := Go.ToLower encoding in
  if String.eqb e "jpg" || String.eqb e "jpeg" then Some ".jpg"
  else if String.eqb e "png" then Some ".png"
  else None.

(** The worker pool, under the schedule that processes the files one after
    the other in the order of the work queue. The error slot keeps the
    first error sent. *)
Fixpoint workLoop (w : World) (imageOutDir fileExt : string)
    (longerSide shorterSide : Z) (downsample upsample : ResampleFilter)
    (jpegQuality : Z) (doCropObjects doResizeImages : bool)
    (queue : AnnotatedFiles F)
    : World * AnnotatedFiles F * AnnotatedFiles F * option error :=
  match queue with
  | [] => (w, [], [], None)
  | d :: rest =>
      let '(w', d', sent, err) :=
        processImage w d imageOutDir fileExt longerSide shorterSide downsample upsample
          jpegQuality doCropObjects doResizeImages in
      let '(w'', data', croppedData, err') :=
        workLoop w' imageOutDir fileExt longerSide shorterSide downsample upsample
          jpegQuality doCropObjects doResizeImages rest in
      (w'', d' :: data', sent ++ croppedData,
       match err with Some e => Some e | None => err' end)
  end.

(** [ProcessImages] yields the world, the data it leaves behind and the
    error it returns. *)
Definition ProcessImages (w : World) (imageOutDir : string)
    (longerSide shorterSide : Z)
    (downsamplingFilter upsamplingFilter encoding : string) (jpegQuality : Z)
    (doCropObjects : bool) (data : AnnotatedFiles F)
    : World * AnnotatedFiles F * option error :=
  let doResizeImages := (longerSide >? 0) || (shorterSide >? 0) in
  if negb doResizeImages && negb doCropObjects then (w, data, None)
  else
    match selectFilter downsamplingFilter with
    | None => (w, data, Some (UnsupportedFilter downsamplingFilter))
    | Some downsample =>
        match selectFilter upsamplingFilter with
        | None => (w, data, Some (UnsupportedFilter upsamplingFilter))
        | Some upsample =>
            match selectFileExt encoding with
            | None => (w, data, Some (UnsupportedEncoding encoding))
            | Some fileExt =>
                let '(w', data', croppedData, err) :=
                  workLoop w imageOutDir fileExt longerSide shorterSide downsample upsample
                    jpegQuality doCropObjects doResizeImages data in
                (w', if doCropObjects then croppedData else data', err)
            end
        end
    end.
End ImagePipeline.
Arguments processLoop {F H} Resize {World} saveImage Base Join.
Arguments processImage {F H} Resize {World} loadImage saveImage Base Join.
Arguments workLoop {F H} Resize {World} loadImage saveImage Base Join.
Arguments ProcessImages {F H} Resize {World} loadImage saveImage Base Join.

(** ** Definitions that follow the words of the specification *)

Section Specification.
Context {F : Type} `{Float64 F}.

(** Cropping: "each surviving intersection becomes a brand-new
    single-annotation file: its annotation keeps the original label, gets
    coordinates (0,0,cropWidth,cropHeight), and gains a crop-origin
    attribute recording the absolute rectangle; its path is the original
    path with a zero-padded 2-digit annotation index inserted before the
    file extension". [stem] is the path without its extension. *)
Definition derivedFile (stem ext : string) (i : nat) (a : Annotation F)
    (r : Go.Rectangle) : AnnotatedFile F :=
  {| Annotations :=
       [ {| Attributes := <[CropCoords := AString (cropCoordsString r)]> (Attributes a);
            Coords := MkCoords f_zero f_zero (f_of_int (Go.Dx r)) (f_of_int (Go.Dy r));
            Label := Label a |} ];
     FilePath := stem +:+ "_" +:+ Go.fmt_02d (Z.of_nat i) +:+ ext |}.

(** "An empty intersection silently discards that annotation": the derived
    files of the annotations from index [i] on, in their order. *)
Fixpoint derivedFiles (bounds : Go.Rectangle) (stem ext : string) (i : nat)
    (annotations : list (Annotation F)) : list (AnnotatedFile F) :=
  match annotations with
  | [] => []
  | a :: rest =>
      let r := clipToBounds bounds a in
      (if Go.Empty r then [] else [derivedFile stem ext i a r])
        ++ derivedFiles bounds stem ext (S i) rest
  end.

(** Splitting: "assign the file to the first bucket whose cumulative
    boundary exceeds the draw". *)
Fixpoint firstBucket (boundaries : list Z) (draw : Z) : option nat :=
  match boundaries with
  | [] => None
  | b :: rest => if draw <? b then Some O else S <$> firstBucket rest draw
  end.

(** The files of bucket [i]: those whose draw selects [i], in input order;
    [k] is the number of the draw of the head of [data]. *)
Fixpoint bucketFiles {A : Type} (rng : nat -> Z) (boundaries : list Z) (i : nat)
    (k : nat) (data : list A) : list A :=
  match data with
  | [] => []
  | d :: rest =>
      (if decide (firstBucket boundaries (rng k) = Some i) then [d] else [])
        ++ bucketFiles rng boundaries i (S k) rest
  end.

(** The percentages of the buckets: the differences of consecutive
    cumulative boundaries, the first taken from 0. *)
Definition increments (boundaries : list Z) : list Z :=
  zip_with Z.sub boundaries (0 :: boundaries).

(** Label mapping: the rules [old=new] of a list of well-formed mappings. *)
Definition rulesOf (mappings : list string) : list (string * string) :=
  map (fun v => (nth 0 (Go.Split "=" v) EmptyString, nth 1 (Go.Split "=" v) EmptyString))
      mappings.

(** The default (empty) value of each attribute kind: float 0, empty
    string, empty list, false. *)
Definition isDefault (v : AttrValue F) : bool :=
  match v with
  | AFloat x => f_eqb x f_zero
  | AString s => String.eqb s EmptyString
  | AStrings l => match l with [] => true | _ => false end
  | ABool b => negb b
  end.
End Specification.

(** ** What Filter keeps *)

Section FilterSpec.
Context {F : Type} `{Float64 F}.
Variables (labelNames attributes requiredAttrs : list string).
Variables (minConfidence : F) (requireLabel : bool).
Variables (minBboxWidth minBboxHeight minAspectRatio maxAspectRatio : F).

(** What [Filter] makes of one annotation: nothing, or the annotation with
    its attributes filtered. *)
Definition keptAnnotation (a : Annotation F) : option (Annotation F) :=
  match filterAnnotation labelNames attributes requiredAttrs minConfidence
          minBboxWidth minBboxHeight minAspectRatio maxAspectRatio a with
  | Done kept => kept
  | Panicked => None
  end.

(** What [Filter] makes of one file: the file with the annotations its
    annotation loop leaves, or nothing if none is left and a label is
    required. *)
Definition keptFile (d : AnnotatedFile F) : option (AnnotatedFile F) :=
  match filterAnnotations labelNames attributes requiredAttrs minConfidence
          minBboxWidth minBboxHeight minAspectRatio maxAspectRatio (Annotations d) with
  | Done annotations =>
      if requireLabel && (length annotations =? 0)%nat then None
      else Some {| Annotations := annotations; FilePath := FilePath d |}
  | Panicked => None
  end.
End FilterSpec.

(** The number of annotations of a dataset. *)
Definition numLabels {F : Type} (data : AnnotatedFiles F) : nat :=
  length (concat (map Annotations data)).

(** The files whose draw lies in [[lo, hi)], in input order; [k] is the
    number of the draw of the head of [data]. *)
Fixpoint drawnIn {A : Type} (rng : nat -> Z) (lo hi : Z) (k : nat) (data : list A)
    : list A :=
  match data with
  | [] => []
  | d :: rest =>
      (if (lo <=? rng k) && (rng k <? hi) then [d] else [])
        ++ drawnIn rng lo hi (S k) rest
  end.

(** The same objects: position by position the same label and the same
    attributes. *)
Definition sameObjects {F : Type} (f' f : AnnotatedFile F) : Prop :=
  Forall2 (fun a' a => Label a' = Label a /\ Attributes a' = Attributes a)
          (Annotations f') (Annotations f).

(** ** Paths of label and image files (the helpers that follow [main.go]) *)

(** [filepath.Split]: the loop [i := len(path) - 1; for i >= 0 &&
    path[i] != '/' { i-- }] started below [i]; it yields [i + 1], the
    length of the directory part. *)
Fixpoint lastSeparator (i : nat) (path : string) : nat :=
  match i with
  | O => O
  | S j =>
      match String.get j path with
      | Some c => if Ascii.eqb c "/" then S j else lastSeparator j path
      | None => lastSeparator j path
      end
  end.

Definition filepathSplit (path : string) : string * string :=
  let i := lastSeparator (String.length path) path in
  (String.substring 0 i path, String.substring i (String.length path - i) path).

(** [strings.HasSuffix] and [strings.TrimSuffix]. *)
Definition HasSuffix (s suffix : string) : bool :=
  (String.length suffix <=? String.length s)%nat &&
  String.eqb (String.substring (String.length s - String.length suffix)
                               (String.length suffix) s) suffix.

Definition TrimSuffix (s suffix : string) : string :=
  if HasSuffix s suffix
  then String.substring 0 (String.length s - String.length suffix) s
  else s.

(** [splitPath] yields the directory, the base name without extension and
    the extension without its dot, or nothing where it returns an error. *)
Definition splitPath (path : string) : option (string * string * string) :=
  let '(dir, file) := filepathSplit path in
  let ext := Go.Ext file in
  if String.eqb ext "" then None
  else
    Some (TrimSuffix dir "/",
          String.substring 0 (String.length file - String.length ext) file,
          String.substring 1 (String.length ext - 1) ext).

(** [mapFileNamesToExtensions]: a path without extension is logged and
    skipped. *)
Definition mapFileNamesToExtensions (filePaths : list string) : gmap string string :=
  fold_left (fun mapping path =>
               match splitPath path with
               | None => mapping
               | Some (_, baseNoExt, ext) => <[baseNoExt := ext]> mapping
               end)
            filePaths ∅.

Section LabelFiles.
Context {F : Type}.

(** The directory listing, [filepath.Join] and the parser of one label
    file; a listing or a parse that fails yields nothing. *)
Variable filesByExtInDir : string -> string -> option (list string).
Variable Join : string -> string -> string.
Variable parse : string -> string -> option (AnnotatedFile F).

(** The loop over the label files of [parseLabelsWithOneToOneImages]. *)
Fixpoint pairLoop (imageNamesToExt : gmap string string) (imageDir : string)
    (labelFiles : list string) : AnnotatedFiles F :=
  match labelFiles with
  | [] => []
  | labelPath :: rest =>
      match splitPath labelPath with
      | None => pairLoop imageNamesToExt imageDir rest
      | Some (_, baseNoExt, _) =>
          match imageNamesToExt !! baseNoExt with
          | None => pairLoop imageNamesToExt imageDir rest
          | Some imageExt =>
              let imagePath := Join imageDir (baseNoExt +:+ "." +:+ imageExt) in
              match parse labelPath imagePath with
              | None => pairLoop imageNamesToExt imageDir rest
              | Some fileData => fileData :: pairLoop imageNamesToExt imageDir rest
              end
          end
      end
  end.

Definition parseLabelsWithOneToOneImages (labelDir labelFileExt imageDir : string)
    : option (AnnotatedFiles F) :=
  match filesByExtInDir labelDir labelFileExt with
  | None => None
  | Some labelFiles =>
      match filesByExtInDir imageDir "" with
      | None => None
      | Some imageFiles =>
          Some (pairLoop (mapFileNamesToExtensions imageFiles) imageDir labelFiles)
      end
  end.
End LabelFiles.

(** ** The label map of the TFRecord writer *)

(** An [int32] after an addition: Go wraps around. *)
Definition wrap32 (z : Z) : Z := (z + 2 ^ 31) mod 2 ^ 32 - 2 ^ 31.

(** [tfRecordLabelMap], once it is not nil, and [tfRecordNextLabelID]. *)
Record LabelIDs : Type := MkLabelIDs {
  tfRecordLabelMap : gmap string Z;
  tfRecordNextLabelID : Z
}.

(** What [loadTFRecordLabelMap] finds at the path: no file, a file it
    cannot read or parse, or the items of a label map, each with the name
    and the id that [GetName] and [GetId] yield. *)
Inductive LabelMapFile : Type :=
  | NoFile
  | Unreadable
  | Items (items : list (string * Z)).

Inductive LoadResult : Type :=
  | Loaded (labelMap : gmap string Z) (maxID : Z)
  | NotExist
  | LoadError.

(** The loop over [siLabelMap.Item]. *)
Fixpoint loadLoop (items : list (string * Z)) (labelMap : gmap string Z) (maxID : Z)
    : LoadResult :=
  match items with
  | [] => Loaded labelMap maxID
  | (k, v) :: rest =>
      if String.eqb k "" || (v <=? 0) then LoadError
      else loadLoop rest (<[k := v]> labelMap) (if maxID >? v then maxID else v)
  end.

Definition loadTFRecordLabelMap (file : LabelMapFile) : LoadResult :=
  match file with
  | NoFile => NotExist
  | Unreadable => LoadError
  | Items items => loadLoop items ∅ 0
  end.

(** The start of [WriteCustomTFRecord]: a nil label map is loaded, or
    created if there is no file; any other error is returned. *)
Definition initLabelIDs (globals : option LabelIDs) (file : LabelMapFile)
    : option LabelIDs :=
  match globals with
  | Some ids => Some ids
  | None =>
      match loadTFRecordLabelMap file with
      | Loaded labelMap maxID => Some (MkLabelIDs labelMap (wrap32 (maxID + 1)))
      | NotExist => Some (MkLabelIDs ∅ 1)
      | LoadError => None
      end
  end.

(** The class features of a [TFFeatureMap]: "image/object/class/text" and
    "image/object/class/label", with "image/filename". The image, its size
    and format and the float32 boxes are not part of this model. *)
Record ClassFeatures : Type := MkClassFeatures {
  filename : string;
  classes : list string;
  classIDs : list Z
}.

Section TFRecord.
Context {F : Type}.

(** The loop over [fileData.Annotations] of [toTFRecord], as far as it
    assigns class ids. *)
Fixpoint assignClassIDs (annotations : list (Annotation F)) (ids : LabelIDs)
    : list Z * LabelIDs :=
  match annotations with
  | [] => ([], ids)
  | a :: rest =>
      let classID := default 0 (tfRecordLabelMap ids !! Label a) in
      if classID =? 0 then
        let ids' := MkLabelIDs (<[Label a := tfRecordNextLabelID ids]> (tfRecordLabelMap ids))
                               (wrap32 (tfRecordNextLabelID ids + 1)) in
        let '(classIDs, ids'') := assignClassIDs rest ids' in
        (tfRecordNextLabelID ids :: classIDs, ids'')
      else
        let '(classIDs, ids') := assignClassIDs rest ids in
        (classID :: classIDs, ids')
  end.

(** [toTFRecord]; [readable] tells whether [decodeImageConfig] and
    [readFile] succeed on a path. *)
Definition toTFRecord (readable : string -> bool) (fileData : AnnotatedFile F)
    (ids : LabelIDs) : option ClassFeatures * LabelIDs :=
  if negb (readable (FilePath fileData)) then (None, ids)
  else
    let '(classIDs, ids') := assignClassIDs (Annotations fileData) ids in
    (Some (MkClassFeatures (FilePath fileData) (map Label (Annotations fileData)) classIDs),
     ids').

(** Calls of [toTFRecord] one after the other, as the loop of
    [WriteCustomTFRecord] makes them; a file that fails is skipped. *)
Fixpoint toTFRecords (readable : string -> bool) (data : AnnotatedFiles F) (ids : LabelIDs)
    : list ClassFeatures * LabelIDs :=
  match data with
  | [] => ([], ids)
  | fileData :: rest =>
      let '(example, ids') := toTFRecord readable fileData ids in
      let '(examples, ids'') := toTFRecords readable rest ids' in
      (match example with Some e => e :: examples | None => examples end, ids'')
  end.
End TFRecord.

(** The ids a label map holds are positive and below the next id. *)
Definition idsBelowNext (ids : LabelIDs) : Prop :=
  0 < tfRecordNextLabelID ids /\
  map_Forall (fun _ v => 0 < v < tfRecordNextLabelID ids) (tfRecordLabelMap ids).

(** No two labels share an id. *)
Definition idsDistinct (labelMap : gmap string Z) : Prop :=
  forall k k' v, labelMap !! k = Some v -> labelMap !! k' = Some v -> k = k'.

(** ** AWS Rekognition ([aws_detect_labels.go], detect-text in [via.go]) *)

Module AWSBoundingBox.
Record t (F : Type) : Type := Mk { Left : F; Top : F; Width : F; Height : F }.
Arguments Mk {F}.
Arguments Left {F}.
Arguments Top {F}.
Arguments Width {F}.
Arguments Height {F}.
End AWSBoundingBox.

Module AWSInstance.
Record t (F : Type) : Type := Mk { BoundingBox : AWSBoundingBox.t F; Confidence : F }.
Arguments Mk {F}.
Arguments BoundingBox {F}.
Arguments Confidence {F}.
End AWSInstance.

(** [Parents] holds the names of the parents. *)
Module AWSLabel.
Record t (F : Type) : Type := Mk {
  Confidence : F;
  Instances : list (AWSInstance.t F);
  Name : string;
  Parents : list string
}.
Arguments Mk {F}.
Arguments Confidence {F}.
Arguments Instances {F}.
Arguments Name {F}.
Arguments Parents {F}.
End AWSLabel.

(** Of the geometry the bounding box only: the polygon is not read. *)
Module AWSTextDetection.
Record t (F : Type) : Type := Mk {
  Confidence : F;
  DetectedText : string;
  BoundingBox : AWSBoundingBox.t F;
  Type_ : string
}.
Arguments Mk {F}.
Arguments Confidence {F}.
Arguments DetectedText {F}.
Arguments BoundingBox {F}.
Arguments Type_ {F}.
End AWSTextDetection.

Section AWS.
Context {F : Type} `{Float64 F}.

(** "Scale normalised coordinates to image coordinates." *)
Definition awsCoords (box : AWSBoundingBox.t F) (width height : Z) : Coords4 F :=
  MkCoords
    (f_mul (AWSBoundingBox.Left box) (f_of_int width))
    (f_mul (AWSBoundingBox.Top box) (f_of_int height))
    (f_mul (f_add (AWSBoundingBox.Left box) (AWSBoundingBox.Width box)) (f_of_int width))
    (f_mul (f_add (AWSBoundingBox.Top box) (AWSBoundingBox.Height box)) (f_of_int height)).

(** The annotations of one label: its instances, unrolled. *)
Definition unrollInstances (a : AWSLabel.t F) (width height : Z) : list (Annotation F) :=
  let ancestors := AWSLabel.Parents a in
  map (fun i =>
         {| Attributes :=
              <[AncestorLabels := AStrings ancestors]>
                (<[Confidence := AFloat (f_div (AWSInstance.Confidence i) f_100)]> ∅);
            Coords := awsCoords (AWSInstance.BoundingBox i) width height;
            Label := AWSLabel.Name a |})
      (AWSLabel.Instances a).

(** [parseAWSDetectLabelsFile], from the labels that [json.Unmarshal]
    yields and the size that [decodeImageConfig] yields; nothing stands for
    an error of either. *)
Definition parseAWSDetectLabelsFile (labels : option (list (AWSLabel.t F)))
    (config : option (Z * Z)) (imagePath : string) : option (AnnotatedFile F) :=
  match labels with
  | None => None
  | Some labels =>
      match config with
      | None => None
      | Some (width, height) =>
          Some {| Annotations := concat (map (fun a => unrollInstances a width height) labels);
                  FilePath := imagePath |}
      end
  end.

Definition textLabel (type : string) : string :=
  if String.eqb type "LINE" then "Text_Line"
  else if String.eqb type "WORD" then "Text_Word"
  else "Text".

Definition parseAWSDetectTextFile (detections : option (list (AWSTextDetection.t F)))
    (config : option (Z * Z)) (imagePath : string) : option (AnnotatedFile F) :=
  match detections with
  | None => None
  | Some detections =>
      match config with
      | None => None
      | Some (width, height) =>
          Some {| Annotations :=
                    map (fun a =>
                           {| Attributes :=
                                <[Confidence :=
                                    AFloat (f_div (AWSTextDetection.Confidence a) f_100)]>
                                  (<[DetectedText :=
                                       AString (AWSTextDetection.DetectedText a)]> ∅);
                              Coords := awsCoords (AWSTextDetection.BoundingBox a) width height;
                              Label := textLabel (AWSTextDetection.Type_ a) |})
                        detections;
                  FilePath := imagePath |}
      end
  end.
End AWS.

(** ** Bounds on binary64 values *)

(** A float that is zero or positive, of mantissa below [2^53] and exponent
    at most [E]. *)
Definition small (E : Z) (x : spec_float) : Prop :=
  match x with
  | S754_zero false => True
  | S754_finite false m e => Zpos m < 2 ^ 53 /\ e <= E
  | _ => False
  end.

(** The same as a test. *)
Definition smallb (E : Z) (x : spec_float) : bool :=
  match x with
  | S754_zero false => true
  | S754_finite false m e => (Zpos m <? 2 ^ 53) && (e <=? E)
  | _ => false
  end.

(** ** Concrete inputs *)

Module Examples.
(** Literals in binary64: the integer [n], and the decimal [n/d]. *)
Definition b64_int (n : Z) : spec_float := f_of_int n.
Definition b64 (n d : Z) : spec_float := f_div (f_of_int n) (f_of_int d).

Definition box (x1 y1 x2 y2 : Z) : Coords4 spec_float :=
  MkCoords (b64_int x1) (b64_int y1) (b64_int x2) (b64_int y2).

(** An annotation as [aws_detect_labels.go] builds it: an ancestor list
    and a confidence. *)
Definition awsAnnotation : Annotation spec_float :=
  {| Attributes := <[AncestorLabels := AStrings ["Animal"]]>
                     (<[Confidence := AFloat (b64 9 10)]> ∅);
     Coords := box 0 0 10 10;
     Label := "Dog" |}.

(** Annotations with confidence 0.4, with confidence 0.6, and without. *)
Definition conf (c : spec_float) (label : string) : Annotation spec_float :=
  {| Attributes := <[Confidence := AFloat c]> ∅; Coords := box 0 0 10 10;
     Label := label |}.
Definition lowConfidence : Annotation spec_float := conf (b64 4 10) "low".
Definition highConfidence : Annotation spec_float := conf (b64 6 10) "high".
Definition noConfidence : Annotation spec_float :=
  {| Attributes := ∅; Coords := box 0 0 10 10; Label := "none" |}.

(** A box of width 1 and height 0. *)
Definition flatBox : Annotation spec_float :=
  {| Attributes := ∅; Coords := box 0 0 1 0; Label := "flat" |}.

(** An annotation with a detected text only. *)
Definition textOnly : Annotation spec_float :=
  {| Attributes := <[DetectedText := AString "hi"]> ∅; Coords := box 0 0 10 10;
     Label := "sign" |}.

(** The annotation that [Filter] leaves of [textOnly] when "Text" is not
    among the attributes to keep. *)
Definition textStripped : Annotation spec_float :=
  {| Attributes := ∅; Coords := box 0 0 10 10; Label := "sign" |}.

(** A dataset for [Filter]: in the first file an annotation of low
    confidence, one that passes every filter, one without text and one with
    an empty text; in the second file an annotation with another label. *)
Definition signAnnotation (confidence : spec_float) (text : string) (label : string)
    : Annotation spec_float :=
  {| Attributes := <[Confidence := AFloat confidence]>
                     (<[DetectedText := AString text]>
                        (<[AncestorLabels := AStrings ["Object"]]> ∅));
     Coords := box 0 0 20 10; Label := label |}.
Definition filterInput : AnnotatedFiles spec_float :=
  [ {| Annotations := [ signAnnotation (b64 4 10) "stop" "sign";
                        signAnnotation (b64 6 10) "stop" "sign";
                        conf (b64 9 10) "sign";
                        signAnnotation (b64 9 10) "" "sign" ];
       FilePath := "a.jpg" |};
    {| Annotations := [ signAnnotation (b64 9 10) "exit" "door" ];
       FilePath := "b.jpg" |} ].
Definition filterOutput : AnnotatedFiles spec_float :=
  [ {| Annotations :=
         [ {| Attributes := <[Confidence := AFloat (b64 6 10)]>
                              (<[DetectedText := AString "stop"]> ∅);
              Coords := box 0 0 20 10; Label := "sign" |} ];
       FilePath := "a.jpg" |} ].

(** What [Filter] leaves of [filterInput] when no label is required. *)
Definition filterOutputAll : AnnotatedFiles spec_float :=
  filterOutput ++ [ {| Annotations := []; FilePath := "b.jpg" |} ].

(** A 200x100 image, and the imaging library reduced to the bounds of
    what it returns. *)
Definition image200x100 : Image :=
  {| Bounds := Go.Rect 0 0 200 100; hasSubImage := true |}.
Definition resizeBounds (img : Image) (width height : Z) (filter : ResampleFilter)
    : Image :=
  {| Bounds := Go.Rect 0 0 width height; hasSubImage := true |}.

(** A 100x50 image and a file with three annotations: one inside the
    image, one outside, one across its border. *)
Definition image100x50 : Image :=
  {| Bounds := Go.Rect 0 0 100 50; hasSubImage := true |}.
Definition threeAnnotations : AnnotatedFile spec_float :=
  {| Annotations :=
       [ {| Attributes := ∅; Coords := box 10 10 50 40; Label := "inside" |};
         {| Attributes := ∅; Coords := box 200 200 300 300; Label := "outside" |};
         {| Attributes := ∅; Coords := box (-5) 3 7 200; Label := "across" |} ];
     FilePath := "dir.v/foo.jpg" |}.

(** Five files without annotations, and a generator that always draws 10. *)
Definition emptyFile (path : string) : AnnotatedFile spec_float :=
  {| Annotations := []; FilePath := path |}.
Definition fiveFiles : AnnotatedFiles spec_float :=
  [emptyFile "a"; emptyFile "b"; emptyFile "c"; emptyFile "d"; emptyFile "e"].
Definition draw10 (k : nat) : Z := 10.

(** A generator with varying draws in [0,100). *)
Definition someDraws (k : nat) : Z := (37 * Z.of_nat k + 11) mod 100.

(** A file system without files. *)
Definition noLoad (w : unit) (path : string) : result Image := Err (ImageIOError path).
Definition noSave (w : unit) (path : string) (img : Image) (quality : Z)
    : unit * option error := (w, Some (ImageIOError path)).

(** A file system in which every path holds the 100x50 image and every
    write succeeds; its state is the list of the paths written. *)
Definition loadAll (w : list string) (path : string) : result Image := Ok image100x50.
Definition saveAll (w : list string) (path : string) (img : Image) (quality : Z)
    : list string * option error := (w ++ [path], None).
Definition joinPath (dir name : string) : string := dir +:+ "/" +:+ name.

(** Two directories: label files and images. *)
Definition listDir (dir ext : string) : option (list string) :=
  if String.eqb dir "labels"
  then Some ["labels/a.json"; "labels/b.json"; "labels/noext"]
  else if String.eqb dir "images" then Some ["images/a.png"; "images/c.jpg"]
  else None.
Definition parseStub (labelPath imagePath : string) : option (AnnotatedFile spec_float) :=
  Some {| Annotations := []; FilePath := imagePath |}.

(** A label of AWS detect-labels with one instance, and a detection of AWS
    detect-text. *)
Definition dogLabel : AWSLabel.t spec_float :=
  AWSLabel.Mk (b64_int 90)
    [AWSInstance.Mk (AWSBoundingBox.Mk (b64 1 10) (b64 1 10) (b64 1 2) (b64 1 2))
                    (b64_int 90)]
    "Dog" ["Animal"].
Definition helloDetection : AWSTextDetection.t spec_float :=
  AWSTextDetection.Mk (b64_int 80) "hello"
    (AWSBoundingBox.Mk (b64 1 10) (b64 1 10) (b64 1 2) (b64 1 2)) "WORD".
End Examples.
Import Examples.

(** ** Theorems *)

(** *** Required attributes (C1) *)

(** No list-valued attribute can be tested against its zero value. *)
Lemma interfaceEq_list_panics {F : Type} `{Float64 F} (l : list string) :
  interfaceEq (AStrings l : AttrValue F) (zeroValue (AStrings l)) = Panicked.
Proof. reflexivity. Qed.

(** For the three comparable kinds the test is the per-kind default test. *)
Lemma interfaceEq_default {F : Type} `{Float64 F} (v : AttrValue F) :
  (forall l, v <> AStrings l) ->
  interfaceEq v (zeroValue v) = Done (isDefault v).
Proof.
  intros Hv. destruct v as [x|s|l|b]; simpl; try reflexivity.
  exfalso. by apply (Hv l).
Qed.

(** An annotation that reaches the required-attribute test with a
    list-valued first required attribute makes the iteration panic. *)
Lemma filterAnnotation_list_panics {F : Type} `{Float64 F}
    (labelNames attributes : list string) (k : string) (rest : list string)
    (minConfidence minW minH minAR maxAR : F) (a : Annotation F) (l : list string) :
  failsConfidence minConfidence a = false ->
  failsBboxSize minW minH a = false ->
  failsAspectRatio minAR maxAR a = false ->
  failsLabels labelNames a = false ->
  Attributes a !! k = Some (AStrings l) ->
  filterAnnotation labelNames attributes (k :: rest) minConfidence minW minH minAR maxAR a
    = Panicked.
Proof.
  intros Hc Hb Ha Hl Hk. unfold filterAnnotation.
  rewrite Hc, Hb, Ha, Hl. simpl. by rewrite Hk.
Qed.

(** C1 (the code at the failing input): with [requiredAttrs = ["Ancestors"]]
    and every other filter disabled, [Filter] panics on a file whose
    annotation carries a non-empty list-of-string attribute "Ancestors",
    instead of keeping the annotation. *)
Theorem Filter_required_list_attribute_panics :
  Filter [] [] [AncestorLabels] (b64_int 0) false
         (b64_int 0) (b64_int 0) (b64_int 0) (b64_int 0)
         [ {| Annotations := [awsAnnotation]; FilePath := "dog.jpg" |} ]
  = Panicked.
Proof. vm_compute. reflexivity. Qed.

(** *** The confidence filter (C5) *)

(** C5: with [minConfidence = 0.5] the confidence test fails for confidence
    0.4 and passes for confidence 0.6; it passes for every annotation without
    a "Confidence" attribute, whatever the minimum; and [Filter] with only
    this filter active removes the first of the three annotations and keeps
    the other two. *)
Theorem Filter_minConfidence_half :
  failsConfidence (b64 1 2) lowConfidence = true /\
  failsConfidence (b64 1 2) highConfidence = false /\
  (forall (minConfidence : spec_float) attrs coords label,
     failsConfidence minConfidence
       {| Attributes := delete Confidence attrs; Coords := coords; Label := label |}
     = false) /\
  Filter [] [] [] (b64 1 2) false (b64_int 0) (b64_int 0) (b64_int 0) (b64_int 0)
         [ {| Annotations := [lowConfidence; highConfidence; noConfidence];
              FilePath := "img.jpg" |} ]
  = Done ([ {| Annotations := [noConfidence; highConfidence]; FilePath := "img.jpg" |} ],
          (1%nat, 0%nat)).
Proof.
  split; [vm_compute; reflexivity |].
  split; [vm_compute; reflexivity |].
  split; [| vm_compute; reflexivity].
  intros minConfidence attrs coords label. unfold failsConfidence. simpl.
  by rewrite lookup_delete_eq.
Qed.

(** *** Growing a box to an aspect ratio (C3) *)

(** C3 (the code at the failing input): in binary64, at
    [aspectRatio = math.MaxFloat64], which is above 0, the box of width 1
    and height 0 is left as it is: its height stays 0, and the quotient of
    its width and height is at no distance from the aspect ratio. At the
    aspect ratio 2 the same box is grown to the height 0.5, as the source
    means it to be for a height of zero. *)
Lemma TransformBboxes_MaxFloat64_counterexample :
  f_gtb (MaxFloat64 : spec_float) f_zero = true /\
  Width flatBox = b64_int 1 /\ Height flatBox = b64_int 0 /\
  TransformBboxes (b64_int 1) (b64_int 1) MaxFloat64
    [ {| Annotations := [flatBox]; FilePath := "a.jpg" |} ]
  = [ {| Annotations := [flatBox]; FilePath := "a.jpg" |} ] /\
  ~ (exists eps : spec_float,
       f_ltb (SFabs (f_sub (f_div (Width flatBox) (Height flatBox)) MaxFloat64)) eps = true) /\
  (exists grown,
     TransformBboxes (b64_int 1) (b64_int 1) (b64_int 2)
       [ {| Annotations := [flatBox]; FilePath := "a.jpg" |} ]
     = [ {| Annotations := [grown]; FilePath := "a.jpg" |} ] /\
     Width grown = b64_int 1 /\ Height grown = b64 1 2).
Proof.
  split; [vm_compute; reflexivity |].
  split; [vm_compute; reflexivity |].
  split; [vm_compute; reflexivity |].
  split; [vm_compute; reflexivity |].
  split.
  - intros [eps Heps]. revert Heps.
    replace (SFabs (f_sub (f_div (Width flatBox) (Height flatBox)) MaxFloat64))
      with (S754_infinity false) by (vm_compute; reflexivity).
    destruct eps as [s | s | | s m e]; try destruct s; vm_compute; discriminate.
  - eexists. split; [reflexivity |]. split; vm_compute; reflexivity.
Qed.

(** [TransformBboxes] transforms the annotation at every position. *)
Lemma TransformBboxes_lookup {F : Type} `{Float64 F} (scaleX scaleY aspectRatio : F)
    (data : AnnotatedFiles F) (i j : nat) (f : AnnotatedFile F) (a : Annotation F) :
  data !! i = Some f -> Annotations f !! j = Some a ->
  exists f', TransformBboxes scaleX scaleY aspectRatio data !! i = Some f' /\
             FilePath f' = FilePath f /\
             Annotations f' !! j = Some (transformBbox scaleX scaleY aspectRatio a).
Proof.
  intros Hf Ha. unfold TransformBboxes. rewrite list_lookup_fmap, Hf. simpl.
  eexists. split; [reflexivity |]. simpl. split; [reflexivity |].
  by rewrite list_lookup_fmap, Ha.
Qed.

(** *** Resizing (C8) *)

(** C8: for every image of width 200 and height 100, [resizeImage] with
    [longerSide = 100] and [shorterSide = 0] asks the imaging library for a
    100x50 image, with the downsampling filter, and returns the scale
    factors 0.5 and 0.5; [scaleCoords] with these factors maps the
    coordinates (20,20,60,60) to (10,10,30,30). *)
Theorem resizeImage_200x100_to_longer_100
    (Resize : Image -> Z -> Z -> ResampleFilter -> Image) (img : Image)
    (downsamplingFilter upsamplingFilter : ResampleFilter)
    (attrs : gmap string (AttrValue spec_float)) (label path : string) :
  Go.Dx (Bounds img) = 200 -> Go.Dy (Bounds img) = 100 ->
  resizeImage Resize img 100 0 downsamplingFilter upsamplingFilter
    = (Resize img 100 50 downsamplingFilter, b64 1 2, b64 1 2) /\
  scaleCoords (b64 1 2) (b64 1 2)
    {| Annotations := [ {| Attributes := attrs; Coords := box 20 20 60 60;
                           Label := label |} ];
       FilePath := path |}
    = {| Annotations := [ {| Attributes := attrs; Coords := box 10 10 30 30;
                             Label := label |} ];
         FilePath := path |}.
Proof.
  intros Hdx Hdy. split.
  - unfold resizeImage. rewrite Hdx, Hdy. vm_compute. reflexivity.
  - vm_compute. reflexivity.
Qed.

Lemma resizeImage_200x100_to_longer_100_witness :
  resizeImage resizeBounds image200x100 100 0 Box Linear
    = (resizeBounds image200x100 100 50 Box, b64 1 2, b64 1 2) /\
  scaleCoords (b64 1 2) (b64 1 2)
    {| Annotations := [ {| Attributes := ∅; Coords := box 20 20 60 60; Label := "car" |} ];
       FilePath := "a.jpg" |}
    = {| Annotations := [ {| Attributes := ∅; Coords := box 10 10 30 30; Label := "car" |} ];
         FilePath := "a.jpg" |}.
Proof.
  apply (resizeImage_200x100_to_longer_100 resizeBounds image200x100 Box Linear
           ∅ "car" "a.jpg"); reflexivity.
Defined.

(** *** Nothing to process (C9) *)

(** C9: with [longerSide <= 0], [shorterSide <= 0] and no cropping,
    [ProcessImages] returns no error and leaves the data and the file system
    as they are, whatever the output directory, the filter names, the
    encoding and the quality. *)
Theorem ProcessImages_nothing_to_do {F : Type} `{Float64 F}
    (Resize : Image -> Z -> Z -> ResampleFilter -> Image) (World : Type)
    (loadImage : World -> string -> result Image)
    (saveImage : World -> string -> Image -> Z -> World * option error)
    (Base : string -> string) (Join : string -> string -> string)
    (w : World) (imageOutDir : string) (longerSide shorterSide : Z)
    (downsamplingFilter upsamplingFilter encoding : string) (jpegQuality : Z)
    (data : AnnotatedFiles F) :
  longerSide <= 0 -> shorterSide <= 0 ->
  ProcessImages Resize loadImage saveImage Base Join w imageOutDir longerSide shorterSide
    downsamplingFilter upsamplingFilter encoding jpegQuality false data
  = (w, data, None).
Proof.
  intros Hl Hs. unfold ProcessImages.
  rewrite !Z.gtb_ltb.
  rewrite (proj2 (Z.ltb_ge 0 longerSide) Hl), (proj2 (Z.ltb_ge 0 shorterSide) Hs).
  reflexivity.
Qed.

Lemma ProcessImages_nothing_to_do_witness :
  ProcessImages resizeBounds noLoad noSave id String.append tt "out" 0 (-1)
    "no such filter" "box" "gif" 90 false
    [ {| Annotations := [lowConfidence]; FilePath := "a.jpg" |} ]
  = (tt, [ {| Annotations := [lowConfidence]; FilePath := "a.jpg" |} ], None).
Proof.
  apply (ProcessImages_nothing_to_do resizeBounds unit noLoad noSave id String.append tt
           "out" 0 (-1) "no such filter" "box" "gif" 90); lia.
Defined.

(** *** Label mappings (C7) *)

(** [strings.Split] yields one part more than there are separators. *)
Lemma Split_length (sep : ascii) (s : string) :
  length (Go.Split sep s) = S (Go.countByte sep s).
Proof.
  induction s as [| c rest IH]; [reflexivity |].
  simpl. destruct (Ascii.eqb c sep).
  - simpl. by rewrite IH.
  - destruct (Go.Split sep rest) as [| p ps]; simpl in *; lia.
Qed.

Lemma parseMappings_Ok {F : Type} `{Float64 F} (mappings : list string)
    (replacements : list (string * string)) :
  parseMappings mappings = Ok replacements ->
  replacements = rulesOf mappings /\
  Forall (fun v => length (Go.Split "=" v) = 2%nat) mappings.
Proof.
  revert replacements. induction mappings as [| v rest IH]; intros replacements Hp.
  - simpl in Hp. injection Hp as <-. split; [reflexivity | constructor].
  - simpl in Hp.
    destruct (length (Go.Split "=" v) =? 2)%nat eqn:Hlen; simpl in Hp; [| discriminate].
    destruct (parseMappings rest) as [rs | e]; [| discriminate].
    injection Hp as <-. destruct (IH rs eq_refl) as [-> Hall].
    split; [reflexivity |]. constructor; [| exact Hall].
    by apply Nat.eqb_eq.
Qed.

Lemma parseMappings_Err {F : Type} `{Float64 F} (mappings : list string) (e : error) :
  parseMappings mappings = Err e ->
  exists v, e = MalformedRule v /\ v ∈ mappings /\ length (Go.Split "=" v) <> 2%nat.
Proof.
  induction mappings as [| v rest IH]; intros Hp; [discriminate |].
  simpl in Hp.
  destruct (length (Go.Split "=" v) =? 2)%nat eqn:Hlen; simpl in Hp.
  - destruct (parseMappings rest) as [rs | e'] eqn:Hrest; [discriminate |].
    injection Hp as <-. destruct (IH eq_refl) as (v' & -> & Hin & Hne).
    exists v'. split; [reflexivity |]. split; [apply elem_of_cons; by right | exact Hne].
  - injection Hp as <-. exists v. split; [reflexivity |].
    split; [apply elem_of_cons; by left |]. by apply Nat.eqb_neq.
Qed.

(** C7: [MapLabels] returns an error, which is a [MalformedRule], exactly
    when some mapping does not split into exactly two parts on "=" (that is,
    when it does not hold exactly one "="); when it returns an error the data
    are as before; when it returns none, every file keeps its path and every
    annotation its attributes and coordinates, and its label is the result of
    replacing, rule after rule in list order, every occurrence of [old] by
    [new] in the label the earlier rules produced. *)
Theorem MapLabels_spec {F : Type} `{Float64 F}
    (mappings : list string) (data : AnnotatedFiles F) :
  ((exists v, v ∈ mappings /\ length (Go.Split "=" v) <> 2%nat) <->
   (exists v, snd (MapLabels mappings data) = Some (MalformedRule v))) /\
  (forall e, snd (MapLabels mappings data) = Some e ->
     (exists v, e = MalformedRule v) /\ fst (fst (MapLabels mappings data)) = data) /\
  (snd (MapLabels mappings data) = None ->
     fst (fst (MapLabels mappings data))
     = map (fun f =>
              {| Annotations :=
                   map (fun a =>
                          {| Attributes := Attributes a; Coords := Coords a;
                             Label := fold_left
                                        (fun label rule =>
                                           Go.ReplaceAll label (fst rule) (snd rule))
                                        (rulesOf mappings) (Label a) |})
                       (Annotations f);
                 FilePath := FilePath f |}) data) /\
  (forall v, length (Go.Split "=" v) = 2%nat <-> Go.countByte "=" v = 1%nat).
Proof.
  assert (Hnil : forall f : AnnotatedFile F,
            {| Annotations := map (fun a => {| Attributes := Attributes a; Coords := Coords a;
                                               Label := Label a |}) (Annotations f);
               FilePath := FilePath f |} = f).
  { intros [anns path]. simpl. f_equal.
    induction anns as [| [attrs coords label] rest IH]; [reflexivity |].
    simpl. by rewrite IH. }
  split; [| split; [| split]].
  - unfold MapLabels. destruct mappings as [| v0 rest].
    + simpl. split; [intros (v & Hin & _); by apply elem_of_nil in Hin |].
      intros (v & Hv). discriminate.
    + destruct (parseMappings (v0 :: rest)) as [rs | e] eqn:Hp; simpl.
      * apply parseMappings_Ok in Hp as [_ Hall].
        split; [| intros (v & Hv); discriminate].
        intros (v & Hin & Hne). exfalso. apply Hne.
        rewrite Forall_forall in Hall. by apply Hall.
      * apply parseMappings_Err in Hp as (v & -> & Hin & Hne).
        split; [intros _; by exists v |]. intros _. by exists v.
  - intros e He. unfold MapLabels in *. destruct mappings as [| v0 rest]; [discriminate |].
    destruct (parseMappings (v0 :: rest)) as [rs | e'] eqn:Hp; simpl in He |- *;
      [discriminate |].
    injection He as ->. apply parseMappings_Err in Hp as (v & -> & _).
    split; [by exists v | reflexivity].
  - intros He. unfold MapLabels in *. destruct mappings as [| v0 rest].
    + simpl. induction data as [| f rest IH]; [reflexivity |].
      simpl. by rewrite Hnil, <- IH.
    + destruct (parseMappings (v0 :: rest)) as [rs | e'] eqn:Hp; simpl in He |- *;
        [| discriminate].
      apply parseMappings_Ok in Hp as [-> _]. reflexivity.
  - intros v. rewrite Split_length. lia.
Qed.

(** *** Cropping (C2) *)

Lemma substring_length (s : string) (n m : nat) :
  (n + m <= String.length s)%nat -> String.length (String.substring n m s) = m.
Proof.
  revert n m. induction s as [| c rest IH]; intros n m Hle; simpl in Hle.
  - assert (n = 0%nat) as -> by lia. assert (m = 0%nat) as -> by lia. reflexivity.
  - destruct n as [| n'].
    + destruct m as [| m']; [reflexivity |]. simpl. rewrite IH; [reflexivity | lia].
    + simpl. apply IH. lia.
Qed.

Lemma substring_all (s : string) : String.substring 0 (String.length s) s = s.
Proof. induction s as [| c rest IH]; [reflexivity |]. simpl. by rewrite IH. Qed.

Lemma substring_split (s : string) (j : nat) :
  (j <= String.length s)%nat ->
  String.substring 0 j s +:+ String.substring j (String.length s - j) s = s.
Proof.
  revert j. induction s as [| c rest IH]; intros j Hle; simpl in Hle.
  - assert (j = 0%nat) as -> by lia. reflexivity.
  - destruct j as [| j'].
    + change (String.substring 0 0 (String c rest)) with EmptyString.
      rewrite Nat.sub_0_r. apply substring_all.
    + simpl.
      change (String c (String.substring 0 j' rest
                        +:+ String.substring j' (String.length rest - j') rest)
              = String c rest).
      f_equal. apply IH. lia.
Qed.

Lemma substring_empty (s : string) (n : nat) : String.substring n 0 s = EmptyString.
Proof.
  revert n. induction s as [| c rest IH]; intros [| n']; try reflexivity.
  simpl. apply IH.
Qed.

(** [filepath.Ext] yields a suffix of the path. *)
Lemma extLoop_suffix (path : string) (i : nat) :
  (i <= String.length path)%nat ->
  exists j, (j <= String.length path)%nat /\
            Go.extLoop i path = String.substring j (String.length path - j) path.
Proof.
  induction i as [| i' IH]; intros Hle.
  - exists (String.length path). split; [lia |].
    by rewrite Nat.sub_diag, substring_empty.
  - simpl. destruct (String.get i' path) as [c |].
    + destruct (Ascii.eqb c "/").
      * exists (String.length path). split; [lia |].
        by rewrite Nat.sub_diag, substring_empty.
      * destruct (Ascii.eqb c ".").
        -- exists i'. split; [lia | reflexivity].
        -- apply IH. lia.
    + exists (String.length path). split; [lia |].
      by rewrite Nat.sub_diag, substring_empty.
Qed.

(** The path is its stem followed by its extension. *)
Lemma stem_Ext (path : string) :
  String.substring 0 (String.length path - String.length (Go.Ext path)) path
    +:+ Go.Ext path = path.
Proof.
  destruct (extLoop_suffix path (String.length path) ltac:(lia)) as (j & Hj & Hext).
  unfold Go.Ext. rewrite Hext.
  rewrite substring_length by lia.
  replace (String.length path - (String.length path - j))%nat with j by lia.
  by apply substring_split.
Qed.

(** Below 100, [%02d] prints exactly the two decimal digits. *)
Lemma fmt_02d_two_digits (i : nat) :
  (i < 100)%nat ->
  Go.fmt_02d (Z.of_nat i)
  = String (ascii_of_nat (48 + i / 10)) (String (ascii_of_nat (48 + i mod 10)) EmptyString).
Proof.
  intros Hi. do 100 (destruct i as [| i]; [vm_compute; reflexivity |]). lia.
Qed.

(** The loop appends the derived files of the annotations it visits, and as
    many crops. *)
Lemma cropLoop_derivedFiles {F : Type} `{Float64 F} (img : Image) (path : string)
    (annotations : list (Annotation F)) (i : nat)
    (crops : list Image) (annotatedFiles : list (AnnotatedFile F)) :
  let stem := String.substring 0 (String.length path - String.length (Go.Ext path)) path in
  let result := cropLoop img path i annotations crops annotatedFiles in
  snd result = annotatedFiles ++ derivedFiles (Bounds img) stem (Go.Ext path) i annotations /\
  length (fst result) = (length crops + (length (snd result) - length annotatedFiles))%nat.
Proof.
  revert i crops annotatedFiles.
  induction annotations as [| a rest IH]; intros i crops annotatedFiles; simpl.
  - rewrite app_nil_r. split; [reflexivity | lia].
  - destruct (Go.Empty (clipToBounds (Bounds img) a)) eqn:Hempty.
    + apply IH.
    + destruct (IH (S i) (crops ++ [SubImage img (clipToBounds (Bounds img) a)])
                 (annotatedFiles ++ [derivedFile
                    (String.substring 0 (String.length path - String.length (Go.Ext path)) path)
                    (Go.Ext path) i a (clipToBounds (Bounds img) a)])) as [Hfiles Hlen].
      unfold cropPath. unfold derivedFile in Hfiles, Hlen.
      split.
      * rewrite Hfiles. rewrite <- app_assoc. reflexivity.
      * rewrite Hlen, Hfiles. rewrite !length_app. simpl. lia.
Qed.

Lemma derivedFiles_length {F : Type} `{Float64 F} (bounds : Go.Rectangle)
    (stem ext : string) (annotations : list (Annotation F)) (i : nat) :
  (length (derivedFiles bounds stem ext i annotations)
   + length (filter (fun a => Go.Empty (clipToBounds bounds a) = true) annotations))%nat
  = length annotations.
Proof.
  revert i. induction annotations as [| a rest IH]; intros i; [reflexivity |].
  simpl. rewrite filter_cons. specialize (IH (S i)).
  destruct (decide (Go.Empty (clipToBounds bounds a) = true)) as [Hempty | Hempty].
  - rewrite Hempty. simpl. lia.
  - apply not_true_is_false in Hempty. rewrite Hempty. simpl. lia.
Qed.

(** C2: on an image that has a [SubImage] method, [cropObjectsFromImage]
    returns no error, as many crops as files, and the files are the derived
    files of the annotations whose rounded box meets the image bounds, in
    their order, one each: a single annotation with coordinates
    (0,0,width,height) of the intersection, the label of the original, its
    attributes with "CropCoords" set to the intersection rectangle, and the
    path of the original with "_" and the index in [%02d] (two digits below
    100) inserted before the extension. The annotations whose box does not
    meet the bounds have no file: a file with three annotations of which one
    misses the bounds yields two files. *)
Theorem cropObjectsFromImage_spec {F : Type} `{Float64 F}
    (f : AnnotatedFile F) (img : Image) :
  hasSubImage img = true ->
  exists crops files stem,
    cropObjectsFromImage f img = Ok (crops, files) /\
    FilePath f = stem +:+ Go.Ext (FilePath f) /\
    files = derivedFiles (Bounds img) stem (Go.Ext (FilePath f)) 0 (Annotations f) /\
    length crops = length files /\
    (length files
     + length (filter (fun a => Go.Empty (clipToBounds (Bounds img) a) = true)
                      (Annotations f)))%nat
    = length (Annotations f) /\
    (length (Annotations f) = 3%nat ->
     length (filter (fun a => Go.Empty (clipToBounds (Bounds img) a) = true)
                    (Annotations f)) = 1%nat ->
     length files = 2%nat) /\
    (forall i, (i < 100)%nat ->
       Go.fmt_02d (Z.of_nat i)
       = String (ascii_of_nat (48 + i / 10))
                (String (ascii_of_nat (48 + i mod 10)) EmptyString)).
Proof.
  intros Hsub. unfold cropObjectsFromImage. rewrite Hsub. simpl.
  destruct (cropLoop_derivedFiles img (FilePath f) (Annotations f) 0 [] []) as [Hfiles Hlen].
  simpl in Hfiles, Hlen.
  destruct (cropLoop img (FilePath f) 0 (Annotations f) [] []) as [crops files] eqn:Hloop.
  simpl in Hfiles, Hlen.
  exists crops, files,
    (String.substring 0 (String.length (FilePath f) - String.length (Go.Ext (FilePath f)))
                      (FilePath f)).
  pose proof (derivedFiles_length (Bounds img)
                (String.substring 0 (String.length (FilePath f)
                                     - String.length (Go.Ext (FilePath f))) (FilePath f))
                (Go.Ext (FilePath f)) (Annotations f) 0) as Hcount.
  rewrite <- Hfiles in Hcount.
  split; [reflexivity |].
  split; [symmetry; apply stem_Ext |].
  split; [exact Hfiles |].
  split; [lia |].
  split; [exact Hcount |].
  split; [lia |].
  apply fmt_02d_two_digits.
Qed.

Lemma cropObjectsFromImage_spec_witness :
  hasSubImage image100x50 = true /\
  exists crops files stem,
    cropObjectsFromImage threeAnnotations image100x50 = Ok (crops, files) /\
    FilePath threeAnnotations = stem +:+ Go.Ext (FilePath threeAnnotations) /\
    files = derivedFiles (Bounds image100x50) stem (Go.Ext (FilePath threeAnnotations)) 0
              (Annotations threeAnnotations) /\
    length crops = length files /\
    (length files
     + length (filter (fun a => Go.Empty (clipToBounds (Bounds image100x50) a) = true)
                      (Annotations threeAnnotations)))%nat
    = length (Annotations threeAnnotations) /\
    (length (Annotations threeAnnotations) = 3%nat ->
     length (filter (fun a => Go.Empty (clipToBounds (Bounds image100x50) a) = true)
                    (Annotations threeAnnotations)) = 1%nat ->
     length files = 2%nat) /\
    (forall i, (i < 100)%nat ->
       Go.fmt_02d (Z.of_nat i)
       = String (ascii_of_nat (48 + i / 10))
                (String (ascii_of_nat (48 + i mod 10)) EmptyString)).
Proof.
  split; [reflexivity |].
  apply (cropObjectsFromImage_spec threeAnnotations image100x50). reflexivity.
Defined.

(** The three annotations of the example yield the crops of the first and
    of the third, under the indices 0 and 2. *)
Example cropObjectsFromImage_three_annotations :
  match cropObjectsFromImage threeAnnotations image100x50 with
  | Ok (crops, files) =>
      map Bounds crops = [Go.Rect 10 10 50 40; Go.Rect 0 3 7 50] /\
      map FilePath files = ["dir.v/foo_00.jpg"; "dir.v/foo_02.jpg"] /\
      map (fun f => map Coords (Annotations f)) files
        = [[box 0 0 40 30]; [box 0 0 7 47]] /\
      map (fun f => map (fun a => Attributes a !! CropCoords) (Annotations f)) files
        = [[Some (AString "(10,10)(50,40)")]; [Some (AString "(0,3)(7,50)")]]
  | Err _ => False
  end.
Proof. vm_compute. repeat split. Qed.

(** *** Splitting (C6, C10) *)

(** The inner loop appends to the first bucket whose boundary exceeds the
    draw, and to no bucket if there is none. *)
Lemma assignLoop_firstBucket {A : Type} (r : Z) (d : A) (splits : list Z) (i : nat)
    (datasets : list (list A)) :
  assignLoop r d i splits datasets
  = match firstBucket splits r with
    | Some j => alter (fun bucket => bucket ++ [d]) (i + j)%nat datasets
    | None => datasets
    end.
Proof.
  revert i. induction splits as [| s rest IH]; intros i; simpl; [reflexivity |].
  destruct (r <? s).
  - by rewrite Nat.add_0_r.
  - rewrite IH. destruct (firstBucket rest r) as [j |]; simpl; [| reflexivity].
    by replace (i + S j)%nat with (S i + j)%nat by lia.
Qed.

Lemma firstBucket_lt (splits : list Z) (r : Z) (i : nat) :
  firstBucket splits r = Some i -> (i < length splits)%nat.
Proof.
  revert i. induction splits as [| s rest IH]; intros i Hi; simpl in *; [discriminate |].
  destruct (r <? s).
  - injection Hi as <-. lia.
  - destruct (firstBucket rest r) as [j |]; simpl in Hi; [| discriminate].
    injection Hi as <-. specialize (IH j eq_refl). lia.
Qed.

(** A draw below the last boundary finds a bucket. *)
Lemma firstBucket_Some (splits : list Z) (r bound : Z) :
  last splits = Some bound -> r < bound -> is_Some (firstBucket splits r).
Proof.
  induction splits as [| s rest IH]; intros Hlast Hr; [discriminate |].
  simpl. destruct (r <? s) eqn:Hlt; [by eexists |].
  destruct rest as [| s' rest'].
  - simpl in Hlast. injection Hlast as ->. apply Z.ltb_ge in Hlt. lia.
  - destruct (IH Hlast Hr) as [j Hj]. rewrite Hj. by eexists.
Qed.

(** Every bucket receives, after what it holds, the files that select it. *)
Lemma splitLoop_lookup {A : Type} (rng : nat -> Z) (splits : list Z) (data : list A)
    (k : nat) (datasets : list (list A)) (i : nat) :
  splitLoop rng splits k data datasets !! i
  = (fun bucket => bucket ++ bucketFiles rng splits i k data) <$> datasets !! i.
Proof.
  revert k datasets. induction data as [| d rest IH]; intros k datasets; simpl.
  - destruct (datasets !! i); simpl; [by rewrite app_nil_r | reflexivity].
  - rewrite IH, assignLoop_firstBucket. simpl.
    destruct (firstBucket splits (rng k)) as [j |] eqn:Hj.
    + destruct (decide (j = i)) as [-> | Hne].
      * rewrite list_lookup_alter_eq. rewrite decide_True by reflexivity.
        destruct (datasets !! i); simpl; [| reflexivity].
        by rewrite <- app_assoc.
      * rewrite list_lookup_alter_ne by exact Hne.
        rewrite decide_False by congruence. reflexivity.
    + rewrite decide_False by congruence. reflexivity.
Qed.

Lemma assignLoop_length {A : Type} (r : Z) (d : A) (splits : list Z) (i : nat)
    (datasets : list (list A)) :
  length (assignLoop r d i splits datasets) = length datasets.
Proof.
  rewrite assignLoop_firstBucket. destruct (firstBucket splits r); [| reflexivity].
  apply length_alter.
Qed.

Lemma splitLoop_length {A : Type} (rng : nat -> Z) (splits : list Z) (data : list A)
    (k : nat) (datasets : list (list A)) :
  length (splitLoop rng splits k data datasets) = length datasets.
Proof.
  revert k datasets. induction data as [| d rest IH]; intros k datasets; simpl;
    [reflexivity |].
  by rewrite IH, assignLoop_length.
Qed.

(** A bucket is a subsequence of the data. *)
Lemma bucketFiles_sublist {A : Type} (rng : nat -> Z) (splits : list Z) (i k : nat)
    (data : list A) :
  sublist (bucketFiles rng splits i k data) data.
Proof.
  revert k. induction data as [| d rest IH]; intros k; simpl; [constructor |].
  destruct (decide (firstBucket splits (rng k) = Some i)); simpl.
  - by apply sublist_skip.
  - by apply sublist_cons.
Qed.

Lemma default_last_cons (a b z : Z) (rest : list Z) :
  default a (last (z :: rest)) = default b (last (z :: rest)).
Proof.
  destruct (last (z :: rest)) eqn:E; [reflexivity |].
  apply last_None in E. discriminate.
Qed.

(** [make] does not panic exactly on the capacities from 0 to what
    [maxAlloc] holds. *)
Lemma makePanics_false (size cap : Z) :
  Go.makePanics size cap = false <-> 0 <= cap /\ size * cap <= Go.maxAlloc.
Proof.
  unfold Go.makePanics. rewrite orb_false_iff, Z.ltb_ge, Z.ltb_ge. tauto.
Qed.

Lemma makePanics_true (size cap : Z) :
  Go.makePanics size cap = true <-> cap < 0 \/ Go.maxAlloc < size * cap.
Proof.
  unfold Go.makePanics. rewrite orb_true_iff, Z.ltb_lt, Z.ltb_lt. tauto.
Qed.

(** The allocation loop ends with the last boundary as its sum. *)
Lemma allocLoop_Done_inv {F : Type} `{Float64 F} (len sum : Z) (splits : list Z) (s : Z) :
  allocLoop len sum splits = Done s -> s = default sum (last splits).
Proof.
  revert sum. induction splits as [| b rest IH]; intros sum Hs; simpl in Hs.
  - by injection Hs as <-.
  - destruct (Go.makePanics _ (bucketCap (b - sum) len)); [discriminate |].
    rewrite (IH b Hs). destruct rest as [| z rest']; [reflexivity |].
    change (last (b :: z :: rest')) with (last (z :: rest')).
    apply default_last_cons.
Qed.

(** It does not panic when every capacity is one that [make] accepts. *)
Lemma allocLoop_Done {F : Type} `{Float64 F} (len sum : Z) (splits : list Z) :
  Forall (fun percent =>
            0 <= bucketCap percent len /\
            sizeofAnnotatedFile * bucketCap percent len <= Go.maxAlloc)
         (zip_with Z.sub splits (sum :: splits)) ->
  allocLoop len sum splits = Done (default sum (last splits)).
Proof.
  revert sum. induction splits as [| b rest IH]; intros sum Hcaps; simpl; [reflexivity |].
  simpl in Hcaps. apply Forall_cons in Hcaps as [Hcap Hrest].
  rewrite (proj2 (makePanics_false _ _) Hcap). rewrite IH by exact Hrest.
  destruct rest as [| z rest']; [reflexivity |].
  change (last (b :: z :: rest')) with (last (z :: rest')).
  f_equal. apply default_last_cons.
Qed.

(** Adding one element to the bucket [j] of a family of buckets adds it to
    their concatenation. *)
Lemma concat_add_none {A : Type} (g : nat -> list A) (d : A) (j : nat)
    (indices : list nat) :
  j ∉ indices ->
  concat (map (fun i => (if decide (Some j = Some i) then [d] else []) ++ g i) indices)
  = concat (map g indices).
Proof.
  induction indices as [| i rest IH]; intros Hnotin; [reflexivity |].
  apply not_elem_of_cons in Hnotin as [Hne Hnotin].
  simpl. rewrite (IH Hnotin). rewrite decide_False by congruence. reflexivity.
Qed.

Lemma concat_add_one {A : Type} (g : nat -> list A) (d : A) (j : nat)
    (indices : list nat) :
  NoDup indices -> j ∈ indices ->
  concat (map (fun i => (if decide (Some j = Some i) then [d] else []) ++ g i) indices)
  ≡ₚ d :: concat (map g indices).
Proof.
  induction indices as [| i rest IH]; intros Hnd Hin.
  - by apply elem_of_nil in Hin.
  - apply NoDup_cons in Hnd as [Hnotin Hnd]. simpl.
    destruct (decide (Some j = Some i)) as [Heq | Hne].
    + injection Heq as <-. rewrite (concat_add_none g d j rest Hnotin). reflexivity.
    + apply elem_of_cons in Hin as [-> | Hin]; [congruence |].
      rewrite (IH Hnd Hin). simpl. symmetry. apply Permutation_middle.
Qed.

(** When every draw finds a bucket, the buckets together hold the data. *)
Lemma bucketFiles_concat {A : Type} (rng : nat -> Z) (splits : list Z) (data : list A)
    (k : nat) :
  (forall k', is_Some (firstBucket splits (rng k'))) ->
  concat (map (fun i => bucketFiles rng splits i k data) (seq 0 (length splits))) ≡ₚ data.
Proof.
  intros Hdraw. revert k. induction data as [| d rest IH]; intros k.
  - simpl. induction (seq 0 (length splits)) as [| i l IHl]; [reflexivity | exact IHl].
  - simpl. destruct (Hdraw k) as [j Hj]. rewrite Hj.
    rewrite (concat_add_one (fun i => bucketFiles rng splits i (S k) rest) d j
               (seq 0 (length splits)) (NoDup_seq _ _)).
    + by rewrite IH.
    + apply elem_of_seq. pose proof (firstBucket_lt _ _ _ Hj). lia.
Qed.

(** The result of the splitting loop, started on empty buckets. *)
Lemma splitLoop_buckets {A : Type} (rng : nat -> Z) (splits : list Z) (data : list A) :
  splitLoop rng splits 0 data (replicate (length splits) [])
  = map (fun i => bucketFiles rng splits i 0 data) (seq 0 (length splits)).
Proof.
  apply list_eq. intros i.
  rewrite splitLoop_lookup, list_lookup_fmap.
  destruct (decide (i < length splits)%nat) as [Hlt | Hge].
  - rewrite (lookup_replicate_2 _ _ _ Hlt). rewrite lookup_seq_lt by exact Hlt.
    reflexivity.
  - rewrite (proj1 (lookup_replicate_None _ _ _)) by lia.
    rewrite lookup_seq_ge by lia. reflexivity.
Qed.

(** C6 (the code at the failing inputs): in binary64, with five files,
    [Split] panics on the boundaries [50,30], whose last entry is not 100,
    where it is meant to return its error: it allocates the buckets before
    it tests the sum, and the capacity of the second bucket is
    [int(1.05 * -20 / 100 * 5) = -1]. It panics in the same way on
    [50,30,100], whose last entry is 100, and on the single boundary
    [10^15], whose capacity of 52500000000000 files is more than [make]
    allocates. *)
Lemma Split_decreasing_boundaries_counterexample :
  last [50; 30] <> Some 100 /\
  Split draw10 [50; 30] fiveFiles = Panicked /\
  bucketCap (F := spec_float) (30 - 50) 5 = -1 /\
  last [50; 30; 100] = Some 100 /\
  Split draw10 [50; 30; 100] fiveFiles = Panicked /\
  last [10 ^ 15] <> Some 100 /\
  Split draw10 [10 ^ 15] fiveFiles = Panicked /\
  bucketCap (F := spec_float) (10 ^ 15 - 0) 5 = 52500000000000.
Proof.
  split; [discriminate |].
  split; [vm_compute; reflexivity |].
  split; [vm_compute; reflexivity |].
  split; [reflexivity |].
  split; [vm_compute; reflexivity |].
  split; [discriminate |].
  split; vm_compute; reflexivity.
Qed.

(** What [Split] does once its allocations have succeeded: when the draws
    lie in [0,100) and every bucket capacity computed from the boundaries is
    one that [make] accepts, [Split] returns the InvalidSplit error exactly
    when the last boundary is not 100 (an empty list included); and when it
    is 100, [Split] returns one dataset per boundary, the dataset [i] holds,
    in input order, the files whose draw selects the bucket [i] as the first
    whose boundary exceeds the draw, every draw selects one bucket, and the
    datasets together are a permutation of the input. *)
Lemma Split_after_allocation {F : Type} `{Float64 F}
    (rng : nat -> Z) (cumulativeSplits : list Z) (data : AnnotatedFiles F) :
  (forall k, 0 <= rng k < 100) ->
  Forall (fun percent =>
            0 <= bucketCap percent (Z.of_nat (length data)) /\
            sizeofAnnotatedFile * bucketCap percent (Z.of_nat (length data))
            <= Go.maxAlloc)
         (increments cumulativeSplits) ->
  (Split rng cumulativeSplits data = Done (Err InvalidSplit)
   <-> last cumulativeSplits <> Some 100) /\
  (last cumulativeSplits = Some 100 ->
   exists datasets,
     Split rng cumulativeSplits data = Done (Ok datasets) /\
     length datasets = length cumulativeSplits /\
     (forall i, (i < length cumulativeSplits)%nat ->
        datasets !! i = Some (bucketFiles rng cumulativeSplits i 0 data)) /\
     (forall k, exists i, firstBucket cumulativeSplits (rng k) = Some i /\
                          (i < length cumulativeSplits)%nat) /\
     concat datasets ≡ₚ data).
Proof.
  intros Hrng Hcaps. unfold Split.
  rewrite (allocLoop_Done _ 0 cumulativeSplits Hcaps). simpl.
  split.
  - destruct (default 0 (last cumulativeSplits) =? 100) eqn:Hsum; simpl.
    + apply Z.eqb_eq in Hsum. split; [discriminate |].
      intros Hlast. exfalso. apply Hlast.
      destruct (last cumulativeSplits) as [s |]; simpl in Hsum; [by subst | lia].
    + apply Z.eqb_neq in Hsum. split; [| reflexivity].
      intros _ Hlast. rewrite Hlast in Hsum. by apply Hsum.
  - intros Hlast. rewrite Hlast. simpl.
    assert (Hdraw : forall k, is_Some (firstBucket cumulativeSplits (rng k))).
    { intros k. apply (firstBucket_Some _ _ 100 Hlast). apply Hrng. }
    eexists. split; [reflexivity |].
    rewrite splitLoop_buckets.
    split; [by rewrite length_map, length_seq |].
    split.
    { intros i Hi. rewrite list_lookup_fmap, lookup_seq_lt by exact Hi. reflexivity. }
    split.
    { intros k. destruct (Hdraw k) as [i Hi]. exists i. split; [exact Hi |].
      by apply firstBucket_lt in Hi. }
    by apply bucketFiles_concat.
Qed.

(** The split of the five files under these draws (11, 48, 85, 22, 59). *)
Example Split_five_files :
  Split someDraws [30; 70; 100] fiveFiles
  = Done (Ok [ [emptyFile "a"; emptyFile "d"];
               [emptyFile "b"; emptyFile "e"];
               [emptyFile "c"] ]).
Proof. vm_compute. reflexivity. Qed.

(** C10: when [Split] succeeds, every dataset it returns is a subsequence
    of the input. *)
Theorem Split_datasets_sublist {F : Type} `{Float64 F}
    (rng : nat -> Z) (cumulativeSplits : list Z) (data : AnnotatedFiles F)
    (datasets : list (AnnotatedFiles F)) :
  Split rng cumulativeSplits data = Done (Ok datasets) ->
  Forall (fun dataset => sublist dataset data) datasets.
Proof.
  unfold Split. intros Hsplit.
  destruct (allocLoop (Z.of_nat (length data)) 0 cumulativeSplits) as [sum |];
    simpl in Hsplit; [| discriminate].
  destruct (negb (sum =? 100)); [discriminate |].
  injection Hsplit as <-. rewrite splitLoop_buckets.
  apply Forall_forall. intros dataset Hin.
  apply list_elem_of_fmap in Hin as (i & -> & _).
  apply bucketFiles_sublist.
Qed.

Lemma Split_datasets_sublist_witness :
  Split someDraws [30; 70; 100] fiveFiles
  = Done (Ok [ [emptyFile "a"; emptyFile "d"];
               [emptyFile "b"; emptyFile "e"];
               [emptyFile "c"] ]) /\
  Forall (fun dataset => sublist dataset fiveFiles)
         [ [emptyFile "a"; emptyFile "d"];
           [emptyFile "b"; emptyFile "e"];
           [emptyFile "c"] ].
Proof.
  assert (Hsplit : Split someDraws [30; 70; 100] fiveFiles
                   = Done (Ok [ [emptyFile "a"; emptyFile "d"];
                                [emptyFile "b"; emptyFile "e"];
                                [emptyFile "c"] ])) by (vm_compute; reflexivity).
  split; [exact Hsplit |].
  exact (Split_datasets_sublist someDraws [30; 70; 100] fiveFiles _ Hsplit).
Defined.

(** *** Idempotence of Filter (C4) *)

(** C4 fails when a required attribute is not among the attributes to
    keep: the first application keeps the annotation, whose "Text" is not
    empty, and deletes its "Text"; the second application then removes the
    annotation. *)
Lemma Filter_not_idempotent_counterexample :
  Filter [] [Confidence] [DetectedText] (b64_int 0) false
         (b64_int 0) (b64_int 0) (b64_int 0) (b64_int 0)
         [ {| Annotations := [textOnly]; FilePath := "a.jpg" |} ]
  = Done ([ {| Annotations := [textStripped]; FilePath := "a.jpg" |} ], (0%nat, 0%nat)) /\
  Filter [] [Confidence] [DetectedText] (b64_int 0) false
         (b64_int 0) (b64_int 0) (b64_int 0) (b64_int 0)
         [ {| Annotations := [textStripped]; FilePath := "a.jpg" |} ]
  = Done ([ {| Annotations := []; FilePath := "a.jpg" |} ], (1%nat, 0%nat)) /\
  [ {| Annotations := []; FilePath := "a.jpg" |} ]
  <> [ {| Annotations := [textStripped]; FilePath := "a.jpg" |} ].
Proof.
  split; [vm_compute; reflexivity |].
  split; [vm_compute; reflexivity | discriminate].
Qed.

Section FilterIdempotence.
Context {F : Type} `{Float64 F}.
Variables (labelNames attributes requiredAttrs : list string).
Variables (minConfidence : F) (requireLabel : bool).
Variables (minBboxWidth minBboxHeight minAspectRatio maxAspectRatio : F).

Local Abbreviation filterOne :=
  (filterAnnotation labelNames attributes requiredAttrs minConfidence
     minBboxWidth minBboxHeight minAspectRatio maxAspectRatio).
Local Abbreviation loop :=
  (annotationLoop labelNames attributes requiredAttrs minConfidence
     minBboxWidth minBboxHeight minAspectRatio maxAspectRatio).
Local Abbreviation stable := (fun a => filterOne a = Done (Some a)).
Local Abbreviation files :=
  (fileLoop labelNames attributes requiredAttrs minConfidence requireLabel
     minBboxWidth minBboxHeight minAspectRatio maxAspectRatio).
Local Abbreviation settled :=
  (fun f : AnnotatedFile F =>
     Forall stable (Annotations f) /\
     requireLabel && (length (Annotations f) =? 0)%nat = false).

(** Filtering the attributes keeps the coordinates and the label, and every
    attribute either as it is or not at all. *)
Lemma filterAttributes_lookup (a : Annotation F) (k : string) :
  Attributes (filterAttributes attributes a) !! k = Attributes a !! k \/
  Attributes (filterAttributes attributes a) !! k = None.
Proof.
  unfold filterAttributes. destruct (negb (length attributes =? 0)%nat); [| by left].
  simpl. rewrite map_lookup_filter.
  destruct (Attributes a !! k) as [v |]; simpl; [| by left].
  destruct (decide (inList k attributes = true)) as [Hin | Hout].
  - left. by rewrite option_guard_True.
  - right. by rewrite option_guard_False.
Qed.

Lemma filterAttributes_lookup_listed (a : Annotation F) (k : string) :
  attributes = [] \/ inList k attributes = true ->
  Attributes (filterAttributes attributes a) !! k = Attributes a !! k.
Proof.
  intros Hk. unfold filterAttributes.
  destruct Hk as [-> | Hin]; [reflexivity |].
  destruct (negb (length attributes =? 0)%nat); [| reflexivity].
  simpl. rewrite map_lookup_filter.
  destruct (Attributes a !! k) as [v |]; simpl; [| reflexivity].
  by rewrite option_guard_True.
Qed.

Lemma filterAttributes_idemp (a : Annotation F) :
  filterAttributes attributes (filterAttributes attributes a) = filterAttributes attributes a.
Proof.
  unfold filterAttributes. destruct (negb (length attributes =? 0)%nat) eqn:Hlen;
    rewrite ?Hlen; [| reflexivity].
  simpl. f_equal. apply map_filter_id.
  intros k v Hkv. apply map_lookup_filter_Some in Hkv as [_ HP]. exact HP.
Qed.

Lemma failsRequired_agree (attrs attrs' : gmap string (AttrValue F)) (keys : list string) :
  Forall (fun k => attrs' !! k = attrs !! k) keys ->
  failsRequired attrs' keys = failsRequired attrs keys.
Proof.
  induction keys as [| k rest IH]; intros Hagree; [reflexivity |].
  apply Forall_cons in Hagree as [Hk Hrest]. simpl. rewrite Hk.
  destruct (attrs !! k) as [v |]; [| reflexivity].
  destruct (interfaceEq v (zeroValue v)) as [[|] |]; simpl; try reflexivity.
  by apply IH.
Qed.

Hypothesis Hrequired :
  attributes = [] \/ Forall (fun k => inList k attributes = true) requiredAttrs.

(** An annotation that an iteration keeps is kept unchanged by another. *)
Lemma filterAnnotation_stable (a a' : Annotation F) :
  filterOne a = Done (Some a') -> filterOne a' = Done (Some a').
Proof.
  unfold filterAnnotation. intros Hkeep.
  destruct (failsConfidence minConfidence a) eqn:Hc; [discriminate |].
  destruct (failsBboxSize minBboxWidth minBboxHeight a) eqn:Hb; [discriminate |].
  destruct (failsAspectRatio minAspectRatio maxAspectRatio a) eqn:Har; [discriminate |].
  destruct (failsLabels labelNames a) eqn:Hl; [discriminate |].
  destruct (failsRequired (Attributes a) requiredAttrs) as [[|] |] eqn:Hr;
    simpl in Hkeep; try discriminate.
  injection Hkeep as <-.
  assert (Hcoords : Coords (filterAttributes attributes a) = Coords a)
    by (unfold filterAttributes; by destruct (negb _)).
  assert (Hlabel : Label (filterAttributes attributes a) = Label a)
    by (unfold filterAttributes; by destruct (negb _)).
  assert (Hc' : failsConfidence minConfidence (filterAttributes attributes a) = false).
  { unfold failsConfidence in *.
    destruct (filterAttributes_lookup a Confidence) as [-> | ->]; [exact Hc | reflexivity]. }
  assert (Hb' : failsBboxSize minBboxWidth minBboxHeight (filterAttributes attributes a)
                = false).
  { unfold failsBboxSize, Width, Height in *. by rewrite Hcoords. }
  assert (Har' : failsAspectRatio minAspectRatio maxAspectRatio
                   (filterAttributes attributes a) = false).
  { unfold failsAspectRatio, Width, Height in *. by rewrite Hcoords. }
  assert (Hl' : failsLabels labelNames (filterAttributes attributes a) = false).
  { unfold failsLabels in *. by rewrite Hlabel. }
  rewrite Hc', Hb', Har', Hl'.
  rewrite (failsRequired_agree (Attributes a)).
  - rewrite Hr. simpl. by rewrite filterAttributes_idemp.
  - destruct Hrequired as [Hnil | Hall].
    + apply Forall_forall. intros k _. apply filterAttributes_lookup_listed. by left.
    + apply (Forall_impl _ _ _ Hall). intros k Hk.
      apply filterAttributes_lookup_listed. by right.
Qed.

Lemma deleteAnnotation_length {A : Type} (l : list A) (i : nat) :
  (i < length l)%nat -> length (deleteAnnotation l i) = (length l - 1)%nat.
Proof.
  intros Hi. unfold deleteAnnotation.
  destruct (l !! (length l - 1)%nat) as [x |] eqn:Hlast.
  - rewrite length_take, length_insert. lia.
  - apply lookup_ge_None in Hlast. lia.
Qed.

Lemma deleteAnnotation_take {A : Type} (l : list A) (i : nat) :
  (i < length l)%nat -> take i (deleteAnnotation l i) = take i l.
Proof.
  intros Hi. unfold deleteAnnotation.
  destruct (l !! (length l - 1)%nat) as [x |] eqn:Hlast; [| reflexivity].
  rewrite take_take. replace (i `min` (length l - 1))%nat with i by lia.
  by apply take_insert_ge.
Qed.

(** Whatever the loop leaves behind is stable, if what it has passed is. *)
Lemma annotationLoop_stable (fuel i : nat) (annotations out : list (Annotation F)) :
  (length annotations - i <= fuel)%nat ->
  Forall stable (take i annotations) ->
  loop fuel i annotations = Done out ->
  Forall stable out.
Proof.
  revert i annotations. induction fuel as [| fuel' IH]; intros i annotations Hfuel Hpast Hloop.
  - simpl in Hloop. injection Hloop as <-.
    rewrite take_ge in Hpast by lia. exact Hpast.
  - simpl in Hloop. destruct (annotations !! i) as [a |] eqn:Ha.
    + pose proof (lookup_lt_Some _ _ _ Ha) as Hi.
      destruct (filterOne a) as [[a' |] |] eqn:Hkeep; simpl in Hloop; [| | discriminate].
      * apply (IH (S i) (<[i := a']> annotations)); [| | exact Hloop].
        -- rewrite length_insert. lia.
        -- rewrite (take_S_r _ _ a') by (by apply list_lookup_insert_eq).
           rewrite take_insert_ge by lia.
           apply Forall_app. split; [exact Hpast |].
           constructor; [| constructor]. by apply (filterAnnotation_stable a).
      * apply (IH i (deleteAnnotation annotations i)); [| | exact Hloop].
        -- rewrite deleteAnnotation_length by exact Hi. lia.
        -- by rewrite deleteAnnotation_take.
    + injection Hloop as <-. apply lookup_ge_None in Ha.
      rewrite take_ge in Hpast by lia. exact Hpast.
Qed.

(** The loop leaves a list of stable annotations as it is. *)
Lemma annotationLoop_fixed (fuel i : nat) (annotations : list (Annotation F)) :
  Forall stable annotations ->
  loop fuel i annotations = Done annotations.
Proof.
  intros Hall. revert i. induction fuel as [| fuel' IH]; intros i; [reflexivity |].
  simpl. destruct (annotations !! i) as [a |] eqn:Ha; [| reflexivity].
  rewrite Forall_forall in Hall.
  rewrite (Hall a) by (by eapply list_elem_of_lookup_2). simpl.
  rewrite list_insert_id by exact Ha. apply IH.
Qed.

(** Whatever the loop over the files leaves behind is settled: the
    annotations of every file are stable, and no file is without
    annotations if a label is required. *)
Lemma fileLoop_settled (fuel dataIdx : nat) (data out : AnnotatedFiles F)
    (before after before' after' : nat) :
  (length data - dataIdx <= fuel)%nat ->
  Forall settled (take dataIdx data) ->
  files fuel dataIdx data before after = Done (out, before', after') ->
  Forall settled out.
Proof.
  revert dataIdx data before after.
  induction fuel as [| fuel' IH]; intros dataIdx data before after Hfuel Hpast Hloop.
  - simpl in Hloop. injection Hloop as <- _ _.
    rewrite take_ge in Hpast by lia. exact Hpast.
  - simpl in Hloop. destruct (data !! dataIdx) as [d |] eqn:Hd.
    + pose proof (lookup_lt_Some _ _ _ Hd) as Hi.
      unfold filterAnnotations in Hloop.
      destruct (loop (length (Annotations d)) 0 (Annotations d)) as [annotations |] eqn:Hanns;
        simpl in Hloop; [| discriminate].
      assert (Hstable : Forall stable annotations).
      { apply (annotationLoop_stable (length (Annotations d)) 0 (Annotations d)); [lia | constructor | exact Hanns]. }
      destruct (requireLabel && (length annotations =? 0)%nat) eqn:Hempty.
      * eapply IH; [| | exact Hloop].
        -- rewrite deleteAnnotation_length by (rewrite length_insert; exact Hi).
           rewrite length_insert. lia.
        -- rewrite deleteAnnotation_take by (rewrite length_insert; exact Hi).
           by rewrite take_insert_ge by lia.
      * eapply IH; [| | exact Hloop].
        -- rewrite length_insert. lia.
        -- rewrite (take_S_r _ _ {| Annotations := annotations; FilePath := FilePath d |})
             by (by apply list_lookup_insert_eq).
           rewrite take_insert_ge by lia.
           apply Forall_app. split; [exact Hpast |].
           constructor; [| constructor]. split; [exact Hstable | exact Hempty].
    + injection Hloop as <- _ _. apply lookup_ge_None in Hd.
      rewrite take_ge in Hpast by lia. exact Hpast.
Qed.

(** The loop leaves settled files as they are, and counts as many labels
    after as before. *)
Lemma fileLoop_fixed (fuel dataIdx : nat) (data : AnnotatedFiles F) (before after : nat) :
  Forall settled data ->
  exists n, files fuel dataIdx data before after
            = Done (data, (before + n)%nat, (after + n)%nat).
Proof.
  intros Hall. revert dataIdx before after.
  induction fuel as [| fuel' IH]; intros dataIdx before after.
  - exists 0%nat. simpl. by rewrite !Nat.add_0_r.
  - simpl. destruct (data !! dataIdx) as [d |] eqn:Hd.
    + rewrite Forall_forall in Hall.
      destruct (Hall d) as [Hstable Hempty]; [by eapply list_elem_of_lookup_2 |].
      unfold filterAnnotations. rewrite annotationLoop_fixed by exact Hstable. simpl.
      rewrite Hempty.
      replace {| Annotations := Annotations d; FilePath := FilePath d |} with d
        by (by destruct d).
      rewrite list_insert_id by exact Hd.
      destruct (IH (S dataIdx) (before + length (Annotations d))%nat
                  (after + length (Annotations d))%nat) as [n Hn].
      exists (length (Annotations d) + n)%nat. rewrite Hn. by rewrite !Nat.add_assoc.
    + exists 0%nat. by rewrite !Nat.add_0_r.
Qed.

(** C4 (amended): when the attribute allow-list is empty or lists every
    required attribute, applying [Filter] with the same parameters to the
    data a first application returned leaves these data as they are (and
    logs that 0 labels and 0 files were filtered out). *)
Theorem Filter_idempotent (data data' : AnnotatedFiles F) (log : nat * nat) :
  Filter labelNames attributes requiredAttrs minConfidence requireLabel
         minBboxWidth minBboxHeight minAspectRatio maxAspectRatio data = Done (data', log) ->
  Filter labelNames attributes requiredAttrs minConfidence requireLabel
         minBboxWidth minBboxHeight minAspectRatio maxAspectRatio data'
  = Done (data', (0%nat, 0%nat)).
Proof.
  unfold Filter. intros Hfirst.
  destruct (files (length data) 0 data 0 0) as [[[out before] after] |] eqn:Hloop;
    simpl in Hfirst; [| discriminate].
  injection Hfirst as <- _.
  assert (Hsettled : Forall settled out).
  { apply (fileLoop_settled (length data) 0 data out 0 0 before after); [lia | constructor | exact Hloop]. }
  destruct (fileLoop_fixed (length out) 0 out 0 0 Hsettled) as [n Hn].
  rewrite Hn. simpl. by rewrite Nat.sub_diag, Nat.sub_diag.
Qed.
End FilterIdempotence.

Lemma Filter_idempotent_witness :
  ([Confidence; DetectedText] = []
   \/ Forall (fun k => inList k [Confidence; DetectedText] = true) [DetectedText]) /\
  Filter ["sign"] [Confidence; DetectedText] [DetectedText] (b64 1 2) true
         (b64_int 5) (b64_int 5) (b64_int 1) (b64_int 4) filterInput
  = Done (filterOutput, (4%nat, 1%nat)) /\
  Filter ["sign"] [Confidence; DetectedText] [DetectedText] (b64 1 2) true
         (b64_int 5) (b64_int 5) (b64_int 1) (b64_int 4) filterOutput
  = Done (filterOutput, (0%nat, 0%nat)).
Proof.
  assert (Hrequired : [Confidence; DetectedText] = []
                      \/ Forall (fun k => inList k [Confidence; DetectedText] = true)
                                [DetectedText]).
  { right. repeat constructor. }
  assert (Hfirst : Filter ["sign"] [Confidence; DetectedText] [DetectedText] (b64 1 2) true
                          (b64_int 5) (b64_int 5) (b64_int 1) (b64_int 4) filterInput
                   = Done (filterOutput, (4%nat, 1%nat))) by (vm_compute; reflexivity).
  split; [exact Hrequired |]. split; [exact Hfirst |].
  exact (Filter_idempotent ["sign"] [Confidence; DetectedText] [DetectedText] (b64 1 2) true
           (b64_int 5) (b64_int 5) (b64_int 1) (b64_int 4) Hrequired
           filterInput filterOutput (4%nat, 1%nat) Hfirst).
Defined.

(** *** The loops of Filter end by their conditions *)

(** [length annotations - i] iterations are enough for [annotationLoop]:
    more fuel does not change its result. *)
Lemma annotationLoop_fuel {F : Type} `{Float64 F}
    (labelNames attributes requiredAttrs : list string)
    (minConfidence minW minH minAR maxAR : F)
    (fuel extra i : nat) (annotations : list (Annotation F)) :
  (length annotations - i <= fuel)%nat ->
  annotationLoop labelNames attributes requiredAttrs minConfidence minW minH minAR maxAR
    (fuel + extra) i annotations
  = annotationLoop labelNames attributes requiredAttrs minConfidence minW minH minAR maxAR
      fuel i annotations.
Proof.
  revert i annotations. induction fuel as [| fuel' IH]; intros i annotations Hfuel.
  - simpl. destruct extra as [| extra']; [reflexivity |]. simpl.
    rewrite (proj2 (lookup_ge_None annotations i)) by lia. reflexivity.
  - simpl. destruct (annotations !! i) as [a |] eqn:Ha; [| reflexivity].
    pose proof (lookup_lt_Some _ _ _ Ha) as Hi.
    destruct (filterAnnotation _ _ _ _ _ _ _ _ a) as [[a' |] |]; simpl; [| | reflexivity].
    + apply IH. rewrite length_insert. lia.
    + apply IH. rewrite deleteAnnotation_length by exact Hi. lia.
Qed.

(** Likewise [length data - dataIdx] iterations are enough for [fileLoop]. *)
Lemma fileLoop_fuel {F : Type} `{Float64 F}
    (labelNames attributes requiredAttrs : list string)
    (minConfidence : F) (requireLabel : bool) (minW minH minAR maxAR : F)
    (fuel extra dataIdx : nat) (data : AnnotatedFiles F) (before after : nat) :
  (length data - dataIdx <= fuel)%nat ->
  fileLoop labelNames attributes requiredAttrs minConfidence requireLabel minW minH minAR maxAR
    (fuel + extra) dataIdx data before after
  = fileLoop labelNames attributes requiredAttrs minConfidence requireLabel minW minH minAR maxAR
      fuel dataIdx data before after.
Proof.
  revert dataIdx data before after.
  induction fuel as [| fuel' IH]; intros dataIdx data before after Hfuel.
  - simpl. destruct extra as [| extra']; [reflexivity |]. simpl.
    rewrite (proj2 (lookup_ge_None data dataIdx)) by lia. reflexivity.
  - simpl. destruct (data !! dataIdx) as [d |] eqn:Hd; [| reflexivity].
    pose proof (lookup_lt_Some _ _ _ Hd) as Hi.
    destruct (filterAnnotations _ _ _ _ _ _ _ _ (Annotations d)) as [annotations |];
      simpl; [| reflexivity].
    destruct (requireLabel && (length annotations =? 0)%nat).
    + apply IH. rewrite deleteAnnotation_length by (rewrite length_insert; exact Hi).
      rewrite length_insert. lia.
    + apply IH. rewrite length_insert. lia.
Qed.

(** *** The required-attribute test on comparable values *)

(** When no required attribute holds a list, the test does not panic and
    fails exactly when some required attribute is missing or has the default
    value of its kind. *)
Lemma failsRequired_default {F : Type} `{Float64 F}
    (attrs : gmap string (AttrValue F)) (keys : list string) :
  Forall (fun k => forall l, attrs !! k <> Some (AStrings l)) keys ->
  failsRequired attrs keys
  = Done (existsb (fun k => match attrs !! k with
                            | None => true
                            | Some v => isDefault v
                            end) keys).
Proof.
  induction keys as [| k rest IH]; intros Hkeys; [reflexivity |].
  apply Forall_cons in Hkeys as [Hk Hrest]. simpl.
  destruct (attrs !! k) as [v |] eqn:Hv; [| reflexivity].
  rewrite interfaceEq_default by (intros l ->; by apply (Hk l)). simpl.
  destruct (isDefault v); [reflexivity |]. by apply IH.
Qed.

(** *** When Split panics *)

(** The allocation loop panics at the first capacity that [make] refuses. *)
Lemma allocLoop_Panicked {F : Type} `{Float64 F} (len sum : Z) (splits : list Z) :
  allocLoop len sum splits = Panicked <->
  Exists (fun percent =>
            bucketCap percent len < 0 \/
            Go.maxAlloc < sizeofAnnotatedFile * bucketCap percent len)
         (zip_with Z.sub splits (sum :: splits)).
Proof.
  revert sum. induction splits as [| b rest IH]; intros sum; simpl.
  - split; [discriminate | intros Hex; by apply Exists_nil in Hex].
  - rewrite Exists_cons.
    destruct (Go.makePanics sizeofAnnotatedFile (bucketCap (b - sum) len)) eqn:Hcap.
    + apply makePanics_true in Hcap. split; [by left | reflexivity].
    + apply makePanics_false in Hcap. rewrite IH. split; [by right |].
      intros [[Hneg | Hbig] | Hex]; [lia | lia | exact Hex].
Qed.

(** X15: [Split] panics, whatever its last boundary and the draws, when
    the capacity computed for some bucket is negative or takes more bytes
    than [make] allocates. *)
Theorem Split_Panicked {F : Type} `{Float64 F}
    (rng : nat -> Z) (cumulativeSplits : list Z) (data : AnnotatedFiles F) :
  Exists (fun percent =>
            bucketCap percent (Z.of_nat (length data)) < 0 \/
            Go.maxAlloc < sizeofAnnotatedFile * bucketCap percent (Z.of_nat (length data)))
         (increments cumulativeSplits) ->
  Split rng cumulativeSplits data = Panicked.
Proof.
  unfold increments. intros Hcaps. apply allocLoop_Panicked in Hcaps.
  unfold Split. by rewrite Hcaps.
Qed.

Lemma Split_Panicked_witness :
  Split draw10 [30; 70; 50; 100] fiveFiles = Panicked.
Proof.
  apply Split_Panicked.
  unfold increments. simpl. do 2 apply Exists_cons_tl. apply Exists_cons_hd.
  left. vm_compute. reflexivity.
Defined.

(** *** Bucket capacities in binary64 *)

Lemma digits2_size (p : positive) : digits2_pos p = Pos.size p.
Proof. induction p as [p IH | p IH |]; simpl; by rewrite ?IH. Qed.

Lemma digits2_gt (p : positive) : Zpos p < 2 ^ Zpos (digits2_pos p).
Proof.
  rewrite digits2_size. pose proof (Pos.size_gt p) as Hgt.
  apply Pos2Z.pos_lt_pos in Hgt. by rewrite Pos2Z.inj_pow in Hgt.
Qed.

Lemma digits2_le (p : positive) (k : Z) :
  0 <= k -> Zpos p < 2 ^ k -> Zpos (digits2_pos p) <= k.
Proof.
  intros Hk Hlt. rewrite digits2_size.
  pose proof (Pos.size_le p) as Hle. apply Pos2Z.pos_le_pos in Hle.
  rewrite Pos2Z.inj_pow in Hle. pose proof (Pos2Z.inj_xO p) as HxO.
  assert (H2 : 2 ^ Zpos (Pos.size p) < 2 ^ (k + 1)).
  { rewrite Z.pow_add_r by lia. change (2 ^ 1) with 2. lia. }
  apply Z.pow_lt_mono_r_iff in H2; lia.
Qed.

Lemma shr_1_m (mrs : shr_record) :
  0 <= shr_m mrs -> shr_m (shr_1 mrs) = shr_m mrs / 2.
Proof.
  destruct mrs as [m r s]. simpl. intros Hm. rewrite <- Z.div2_div.
  destruct m as [| p | p]; [reflexivity | | lia].
  by destruct p.
Qed.

Lemma pow2_xO (p : positive) : 2 ^ Zpos p~0 = 2 ^ Zpos p * 2 ^ Zpos p.
Proof.
  replace (Zpos p~0) with (Zpos p + Zpos p) by lia. by rewrite Z.pow_add_r by lia.
Qed.

Lemma pow2_xI (p : positive) : 2 ^ Zpos p~1 = 2 * (2 ^ Zpos p * 2 ^ Zpos p).
Proof.
  replace (Zpos p~1) with (1 + (Zpos p + Zpos p)) by lia.
  by rewrite !Z.pow_add_r by lia.
Qed.

Lemma iter_shr_1_m (p : positive) (mrs : shr_record) :
  0 <= shr_m mrs ->
  shr_m (SpecFloat.iter_pos shr_1 p mrs) = shr_m mrs / 2 ^ Zpos p.
Proof.
  revert mrs. induction p as [p IH | p IH |]; intros mrs Hm; simpl.
  - assert (H1 : 0 <= shr_m (shr_1 mrs)) by (rewrite shr_1_m by lia; apply Z.div_pos; lia).
    assert (H2 : 0 <= shr_m (SpecFloat.iter_pos shr_1 p (shr_1 mrs)))
      by (rewrite IH by lia; apply Z.div_pos; lia).
    rewrite IH by lia. rewrite IH by lia. rewrite shr_1_m by lia.
    rewrite !Z.div_div by lia. by rewrite pow2_xI.
  - assert (H2 : 0 <= shr_m (SpecFloat.iter_pos shr_1 p mrs))
      by (rewrite IH by lia; apply Z.div_pos; lia).
    rewrite IH by lia. rewrite IH by lia. rewrite Z.div_div by lia. by rewrite pow2_xO.
  - rewrite shr_1_m by lia. reflexivity.
Qed.

Lemma shr_record_of_loc_m (m : Z) (l : location) : shr_m (shr_record_of_loc m l) = m.
Proof. destruct l as [| []]; reflexivity. Qed.

Lemma Zdigits2_bounds (m D : Z) :
  0 <= m -> m < 2 ^ D -> 0 <= D ->
  0 <= Zdigits2 m <= D /\ m < 2 ^ Zdigits2 m.
Proof.
  intros Hm HD HD0. destruct m as [| p | p]; [simpl; lia | | lia].
  simpl. pose proof (digits2_le p D HD0 HD). pose proof (digits2_gt p). lia.
Qed.

(** One normalising shift leaves a mantissa of at most 53 bits and raises
    the exponent no further than the digits require. *)
Lemma shr_fexp_bound (m e D : Z) (l : location) :
  0 <= m -> m < 2 ^ D -> 0 <= D ->
  0 <= shr_m (fst (shr_fexp 53 1024 m e l)) < 2 ^ 53 /\
  snd (shr_fexp 53 1024 m e l) <= Z.max e (Z.max (D + e - 53) (-1074)).
Proof.
  intros Hm HD HD0.
  destruct (Zdigits2_bounds m D Hm HD HD0) as [Hd Hlt].
  unfold shr_fexp, shr, fexp, emin.
  set (d := Zdigits2 m) in *.
  destruct (Z.max (d + e - 53) (3 - 1024 - 53) - e) as [| n | n] eqn:Hn; simpl.
  - rewrite shr_record_of_loc_m. split; [| lia].
    split; [lia |]. apply (Z.lt_le_trans _ _ _ Hlt). apply Z.pow_le_mono_r; lia.
  - rewrite iter_shr_1_m by (rewrite shr_record_of_loc_m; lia).
    rewrite shr_record_of_loc_m. split; [| lia].
    split; [apply Z.div_pos; lia |].
    apply Z.div_lt_upper_bound; [lia |].
    rewrite <- Z.pow_add_r by lia.
    apply (Z.lt_le_trans _ _ _ Hlt). apply Z.pow_le_mono_r; lia.
  - rewrite shr_record_of_loc_m. split; [| lia].
    split; [lia |]. apply (Z.lt_le_trans _ _ _ Hlt). apply Z.pow_le_mono_r; lia.
Qed.

Lemma round_nearest_even_bound (m : Z) (l : location) :
  0 <= m -> m <= round_nearest_even m l <= m + 1.
Proof.
  intros Hm. destruct l as [| []]; simpl; try lia.
  destruct (Z.even m); lia.
Qed.

Lemma binary_round_aux_small (m : positive) (e D E : Z) (l : location) :
  Zpos m < 2 ^ D -> 0 <= D ->
  Z.max e (Z.max (D + e - 53) (-1074)) + 1 <= E -> E <= 971 ->
  small E (binary_round_aux 53 1024 false (Zpos m) e l).
Proof.
  intros HD HD0 HE HE'. unfold binary_round_aux.
  pose proof (shr_fexp_bound (Zpos m) e D l ltac:(lia) HD HD0) as [Hm1 He1].
  destruct (shr_fexp 53 1024 (Zpos m) e l) as [mrs' e'] eqn:H1. simpl in Hm1, He1.
  pose proof (round_nearest_even_bound (shr_m mrs') (loc_of_shr_record mrs') ltac:(lia))
    as Hround.
  set (m1 := round_nearest_even (shr_m mrs') (loc_of_shr_record mrs')) in *.
  assert (Hm1' : m1 < 2 ^ 54) by (change (2 ^ 54) with (2 * 2 ^ 53); lia).
  pose proof (shr_fexp_bound m1 e' 54 loc_Exact ltac:(lia) Hm1' ltac:(lia)) as [Hm2 He2].
  destruct (shr_fexp 53 1024 m1 e' loc_Exact) as [mrs'' e''] eqn:H2. simpl in Hm2, He2.
  destruct (shr_m mrs'') as [| m2 | m2]; simpl; [exact I | | lia].
  replace (e'' <=? 1024 - 53) with true by (symmetry; apply Z.leb_le; lia).
  simpl. split; lia.
Qed.

Lemma small_weaken (E E' : Z) (x : spec_float) : E <= E' -> small E x -> small E' x.
Proof. intros HE. destruct x as [[] | | | [] m e]; simpl; try tauto. lia. Qed.

(** The product of two such floats is one. *)
Lemma SFmul_small (Ex Ey E : Z) (x y : spec_float) :
  small Ex x -> small Ey y ->
  Z.max (Ex + Ey + 53) (-1074) + 1 <= E -> E <= 971 ->
  small E (SFmul 53 1024 x y).
Proof.
  intros Hx Hy HE HE'.
  destruct x as [[] | | | [] mx ex]; simpl in Hx; try contradiction;
    destruct y as [[] | | | [] my ey]; simpl in Hy; try contradiction;
    try exact I.
  destruct Hx as [Hmx Hex], Hy as [Hmy Hey]. simpl.
  apply (binary_round_aux_small (mx * my) (ex + ey) 106 E loc_Exact); try lia.
  rewrite Pos2Z.inj_mul. change (2 ^ 106) with (2 ^ 53 * 2 ^ 53).
  apply Z.mul_lt_mono_nonneg; lia.
Qed.

Lemma iter_xO (p d : positive) : Zpos (Pos.iter xO p d) = Zpos p * 2 ^ Zpos d.
Proof.
  induction d as [| d IH] using Pos.peano_ind.
  - simpl. lia.
  - rewrite Pos.iter_succ. rewrite Pos2Z.inj_succ, Z.pow_succ_r by lia.
    pose proof (Pos2Z.inj_xO (Pos.iter xO p d)) as HxO. lia.
Qed.

(** The conversion of an integer below [2^31] that is not negative. *)
Lemma of_int_small (n : Z) : 0 <= n < 2 ^ 31 -> small (-21) (B64.of_int n).
Proof.
  intros Hn. unfold B64.of_int, binary_normalize.
  destruct n as [| p | p]; [exact I | | lia].
  unfold binary_round.
  pose proof (digits2_le p 31 ltac:(lia) ltac:(lia)) as Hd.
  pose proof (digits2_gt p) as Hgt.
  assert (Hd1 : 1 <= Zpos (digits2_pos p)) by lia.
  unfold shl_align, fexp, emin, B64.prec, B64.emax.
  set (d := Zpos (digits2_pos p)) in *.
  replace (Z.max (d + 0 - 53) (3 - 1024 - 53)) with (d - 53) by lia.
  destruct (d - 53 - 0) as [| k | k] eqn:Hk; try lia.
  apply (binary_round_aux_small _ (d - 53) 53 (-21) loc_Exact); try lia.
  rewrite iter_xO. replace (Zpos k) with (53 - d) by lia.
  replace (2 ^ 53) with (2 ^ d * 2 ^ (53 - d)).
  - apply Z.mul_lt_mono_pos_r; [apply Z.pow_pos_nonneg; lia | exact Hgt].
  - rewrite <- Z.pow_add_r by lia. f_equal. lia.
Qed.

(** The integral part of a small float of negative exponent is not
    negative. *)
Lemma trunc_small (E : Z) (x : spec_float) :
  E < 0 -> small E x -> 0 <= f_trunc_int x.
Proof.
  intros HE Hx. destruct x as [[] | | | [] m e]; simpl in Hx; try contradiction.
  - simpl. lia.
  - destruct Hx as [Hm He]. simpl. unfold B64.truncMagnitude.
    destruct e as [| e | e]; try lia.
    assert (Hq : 0 <= Zpos m / 2 ^ Zpos e < 2 ^ 53).
    { split; [apply Z.div_pos; lia |].
      apply Z.div_lt_upper_bound; [lia |].
      assert (1 <= 2 ^ Zpos e) by (apply Z.pow_le_mono_r with (b := 0) (c := Zpos e) (a := 2); lia).
      nia. }
    unfold Go.toInt64, Go.minInt64.
    replace ((- 2 ^ 63 <=? Zpos m / 2 ^ Zpos e) && (Zpos m / 2 ^ Zpos e <? 2 ^ 63)) with true;
      [lia |].
    symmetry. apply andb_true_intro. split; [apply Z.leb_le | apply Z.ltb_lt]; lia.
Qed.

Lemma smallb_small (E : Z) (x : spec_float) : smallb E x = true -> small E x.
Proof.
  destruct x as [[] | | | [] m e]; simpl; try discriminate; try tauto.
  intros Hb. apply andb_prop in Hb as [H1 H2].
  apply Z.ltb_lt in H1. apply Z.leb_le in H2. by split.
Qed.

(** [1.05 * percent / 100] for the percentages 0 to 100. *)
Lemma percentage_small (percent : Z) :
  0 <= percent <= 100 ->
  small (-52) (f_div (f_mul f_1_05 (f_of_int percent)) (f_100 : spec_float)).
Proof.
  intros Hp. apply smallb_small.
  assert (Hall : forallb (fun k => smallb (-52)
                            (f_div (f_mul f_1_05 (f_of_int (Z.of_nat k)))
                                   (f_100 : spec_float)))
                         (seq 0 101) = true) by (vm_compute; reflexivity).
  rewrite forallb_forall in Hall.
  replace percent with (Z.of_nat (Z.to_nat percent)) by lia.
  apply Hall. apply in_seq. lia.
Qed.

(** The integral part of such a float is below [2^(53+E)]. *)
Lemma trunc_small_below (E : Z) (x : spec_float) :
  - 53 <= E < 0 -> small E x -> f_trunc_int x < 2 ^ (53 + E).
Proof.
  intros HE Hx. destruct x as [[] | | | [] m e]; simpl in Hx; try contradiction.
  - simpl. apply Z.pow_pos_nonneg; lia.
  - destruct Hx as [Hm He]. simpl. unfold B64.truncMagnitude.
    destruct e as [| e | e]; try lia.
    assert (Hpow : 2 ^ 53 = 2 ^ (53 + E) * 2 ^ (- E))
      by (rewrite <- Z.pow_add_r by lia; f_equal; lia).
    assert (Hle : 2 ^ (- E) <= 2 ^ Zpos e) by (apply Z.pow_le_mono_r; lia).
    assert (Hpos : 0 < 2 ^ (53 + E)) by (apply Z.pow_pos_nonneg; lia).
    assert (Hq : 0 <= Zpos m / 2 ^ Zpos e < 2 ^ (53 + E)).
    { split; [apply Z.div_pos; lia |].
      apply Z.div_lt_upper_bound; [lia |]. nia. }
    assert (Hbig : 2 ^ (53 + E) <= 2 ^ 53) by (apply Z.pow_le_mono_r; lia).
    unfold Go.toInt64, Go.minInt64.
    replace ((- 2 ^ 63 <=? Zpos m / 2 ^ Zpos e) && (Zpos m / 2 ^ Zpos e <? 2 ^ 63))
      with true; [lia |].
    symmetry. apply andb_true_iff. split; [apply Z.leb_le | apply Z.ltb_lt]; lia.
Qed.

(** In binary64 a percentage between 0 and 100 and fewer than [2^31] files
    give a capacity that is not negative. *)
Lemma bucketCap_binary64_nonneg (percent len : Z) :
  0 <= percent <= 100 -> 0 <= len < 2 ^ 31 ->
  0 <= bucketCap (F := spec_float) percent len.
Proof.
  intros Hp Hl. unfold bucketCap.
  apply (trunc_small (-19)); [lia |].
  apply (SFmul_small (-52) (-21)); try lia.
  - by apply percentage_small.
  - by apply of_int_small.
Qed.

(** It is below [2^34], so that [make] accepts it. *)
Lemma bucketCap_binary64_below (percent len : Z) :
  0 <= percent <= 100 -> 0 <= len < 2 ^ 31 ->
  bucketCap (F := spec_float) percent len < 2 ^ 34.
Proof.
  intros Hp Hl. unfold bucketCap.
  apply (trunc_small_below (-19)); [lia |].
  apply (SFmul_small (-52) (-21)); try lia.
  - by apply percentage_small.
  - by apply of_int_small.
Qed.

(** Boundaries between 0 and 100 that do not decrease have percentages
    between 0 and 100. *)
Lemma increments_bounds (prev : Z) (boundaries : list Z) :
  0 <= prev -> Sorted Z.le (prev :: boundaries) ->
  Forall (fun b => b <= 100) boundaries ->
  Forall (fun percent => 0 <= percent <= 100)
         (zip_with Z.sub boundaries (prev :: boundaries)).
Proof.
  revert prev. induction boundaries as [| b rest IH]; intros prev Hprev Hsorted Hle;
    [constructor |].
  apply Sorted_inv in Hsorted as [Hrest Hhead]. apply HdRel_inv in Hhead.
  apply Forall_cons in Hle as [Hb Hle].
  simpl. constructor; [lia | apply IH; [lia | exact Hrest | exact Hle]].
Qed.

(** So in binary64 [make] accepts every capacity of such boundaries when
    there are fewer than [2^31] files. *)
Lemma bucketCap_binary64_sorted (boundaries : list Z) (len : nat) :
  Sorted Z.le (0 :: boundaries) ->
  Forall (fun b => b <= 100) boundaries ->
  Z.of_nat len < 2 ^ 31 ->
  Forall (fun percent =>
            0 <= bucketCap (F := spec_float) percent (Z.of_nat len) /\
            sizeofAnnotatedFile * bucketCap (F := spec_float) percent (Z.of_nat len)
            <= Go.maxAlloc)
         (increments boundaries).
Proof.
  intros Hsorted Hle Hlen. unfold increments.
  apply (Forall_impl _ _ _ (increments_bounds 0 boundaries ltac:(lia) Hsorted Hle)).
  intros percent Hp.
  pose proof (bucketCap_binary64_nonneg percent (Z.of_nat len) Hp ltac:(lia)) as Hlo.
  pose proof (bucketCap_binary64_below percent (Z.of_nat len) Hp ltac:(lia)) as Hhi.
  split; [exact Hlo |].
  unfold sizeofAnnotatedFile, Go.maxAlloc.
  change (2 ^ 48) with (16384 * 2 ^ 34). lia.
Qed.

(** ** Further properties of the code *)

(** *** What Filter leaves *)

Lemma deleteAnnotation_drop {A : Type} (l : list A) (i : nat) :
  (i < length l)%nat -> drop i (deleteAnnotation l i) ≡ₚ drop (S i) l.
Proof.
  intros Hi. unfold deleteAnnotation.
  destruct (l !! (length l - 1)%nat) as [x |] eqn:Hlast;
    [| apply lookup_ge_None in Hlast; lia].
  destruct (decide (i = length l - 1)%nat) as [-> | Hne].
  - rewrite list_insert_id by exact Hlast.
    rewrite drop_ge by (rewrite length_take; lia).
    by rewrite drop_ge by lia.
  - destruct (lookup_lt_is_Some_2 l i Hi) as [a Ha].
    pose proof (take_drop_middle l i a Ha) as Hsplit.
    assert (Hmid : exists mid, drop (S i) l = mid ++ [x]).
    { exists (take (length l - 1 - S i) (drop (S i) l)).
      rewrite <- (take_drop (length l - 1 - S i) (drop (S i) l)) at 1.
      f_equal. rewrite drop_drop.
      replace (S i + (length l - 1 - S i))%nat with (length l - 1)%nat by lia.
      apply list_eq. intros [| j]; simpl.
      - rewrite lookup_drop. by rewrite Nat.add_0_r.
      - rewrite lookup_drop. apply lookup_ge_None. lia. }
    destruct Hmid as [mid Hmid].
    assert (Hlen : length (take i l) = i) by (rewrite length_take; lia).
    rewrite <- Hsplit at 2. rewrite Hmid.
    rewrite insert_app_r_alt by lia. rewrite Hlen, Nat.sub_diag. simpl.
    assert (Hl : length l = (i + S (length mid + 1))%nat).
    { rewrite <- Hsplit at 1. rewrite Hmid, length_app, Hlen. simpl.
      rewrite length_app. simpl. lia. }
    rewrite Hl.
    replace (i + S (length mid + 1) - 1)%nat with (i + S (length mid))%nat by lia.
    rewrite take_app_add' by (symmetry; exact Hlen).
    rewrite drop_app_length' by (symmetry; exact Hlen).
    simpl. rewrite take_app_length.
    apply Permutation_cons_append.
Qed.

Section FilterContent.
Context {F : Type} `{Float64 F}.
Variables (labelNames attributes requiredAttrs : list string).
Variables (minConfidence : F) (requireLabel : bool).
Variables (minBboxWidth minBboxHeight minAspectRatio maxAspectRatio : F).

Local Abbreviation kept :=
  (keptAnnotation labelNames attributes requiredAttrs minConfidence
     minBboxWidth minBboxHeight minAspectRatio maxAspectRatio).
Local Abbreviation keptF :=
  (keptFile labelNames attributes requiredAttrs minConfidence requireLabel
     minBboxWidth minBboxHeight minAspectRatio maxAspectRatio).

(** The annotation loop leaves what it has passed, and of the rest the
    annotations that are kept, in some order. *)
Lemma annotationLoop_content (fuel i : nat) (annotations out : list (Annotation F)) :
  (length annotations - i <= fuel)%nat ->
  annotationLoop labelNames attributes requiredAttrs minConfidence
    minBboxWidth minBboxHeight minAspectRatio maxAspectRatio fuel i annotations = Done out ->
  out ≡ₚ take i annotations ++ omap kept (drop i annotations).
Proof.
  revert i annotations. induction fuel as [| fuel' IH]; intros i annotations Hfuel Hloop.
  - simpl in Hloop. injection Hloop as <-.
    rewrite take_ge, drop_ge by lia. by rewrite app_nil_r.
  - simpl in Hloop. destruct (annotations !! i) as [a |] eqn:Ha.
    + pose proof (lookup_lt_Some _ _ _ Ha) as Hi.
      rewrite (drop_S _ _ _ Ha). simpl. unfold keptAnnotation at 1.
      destruct (filterAnnotation _ _ _ _ _ _ _ _ a) as [[a' |] |] eqn:Hkeep;
        simpl in Hloop; [| | discriminate].
      * rewrite (IH (S i) (<[i := a']> annotations)); [| rewrite length_insert; lia | exact Hloop].
        rewrite (take_S_r _ _ a') by (by apply list_lookup_insert_eq).
        rewrite take_insert_ge by lia. rewrite drop_insert_lt by lia.
        by rewrite <- app_assoc.
      * rewrite (IH i (deleteAnnotation annotations i));
          [| rewrite deleteAnnotation_length by exact Hi; lia | exact Hloop].
        rewrite deleteAnnotation_take by exact Hi.
        by rewrite (deleteAnnotation_drop annotations i Hi).
    + injection Hloop as <-. apply lookup_ge_None in Ha.
      rewrite take_ge, drop_ge by lia. by rewrite app_nil_r.
Qed.

(** The loop over the files leaves the files it has passed, and of the rest
    the files that are kept, in some order. *)
Lemma fileLoop_content (fuel dataIdx : nat) (data out : AnnotatedFiles F)
    (before after before' after' : nat) :
  (length data - dataIdx <= fuel)%nat ->
  fileLoop labelNames attributes requiredAttrs minConfidence requireLabel
    minBboxWidth minBboxHeight minAspectRatio maxAspectRatio
    fuel dataIdx data before after = Done (out, before', after') ->
  out ≡ₚ take dataIdx data ++ omap keptF (drop dataIdx data).
Proof.
  revert dataIdx data before after.
  induction fuel as [| fuel' IH]; intros dataIdx data before after Hfuel Hloop.
  - simpl in Hloop. injection Hloop as <- _ _.
    rewrite take_ge, drop_ge by lia. by rewrite app_nil_r.
  - simpl in Hloop. destruct (data !! dataIdx) as [d |] eqn:Hd.
    + pose proof (lookup_lt_Some _ _ _ Hd) as Hi.
      rewrite (drop_S _ _ _ Hd). simpl. unfold keptFile at 1.
      destruct (filterAnnotations _ _ _ _ _ _ _ _ (Annotations d)) as [annotations |];
        simpl in Hloop; [| discriminate].
      destruct (requireLabel && (length annotations =? 0)%nat).
      * rewrite (IH dataIdx
                   (deleteAnnotation
                      (<[dataIdx := {| Annotations := annotations; FilePath := FilePath d |}]>
                         data) dataIdx)
                   (before + length (Annotations d))%nat (after + length annotations)%nat);
          [| rewrite deleteAnnotation_length by (rewrite length_insert; exact Hi);
             rewrite length_insert; lia
           | exact Hloop].
        rewrite deleteAnnotation_take by (rewrite length_insert; exact Hi).
        rewrite deleteAnnotation_drop by (rewrite length_insert; exact Hi).
        rewrite take_insert_ge by lia. by rewrite drop_insert_lt by lia.
      * rewrite (IH (S dataIdx)
                   (<[dataIdx := {| Annotations := annotations; FilePath := FilePath d |}]>
                      data)
                   (before + length (Annotations d))%nat (after + length annotations)%nat);
          [| rewrite length_insert; lia | exact Hloop].
        rewrite (take_S_r _ _ {| Annotations := annotations; FilePath := FilePath d |})
          by (by apply list_lookup_insert_eq).
        rewrite take_insert_ge by lia. rewrite drop_insert_lt by lia.
        by rewrite <- app_assoc.
    + injection Hloop as <- _ _. apply lookup_ge_None in Hd.
      rewrite take_ge, drop_ge by lia. by rewrite app_nil_r.
Qed.

(** X1: what [Filter] leaves is, up to the order of the files and of the
    annotations in a file, what filtering every annotation by itself gives. *)
Theorem Filter_content (data out : AnnotatedFiles F) (log : nat * nat) :
  Filter labelNames attributes requiredAttrs minConfidence requireLabel
         minBboxWidth minBboxHeight minAspectRatio maxAspectRatio data = Done (out, log) ->
  out ≡ₚ omap keptF data /\
  (forall d d', keptF d = Some d' ->
     FilePath d' = FilePath d /\ Annotations d' ≡ₚ omap kept (Annotations d)).
Proof.
  unfold Filter. intros Hfilter.
  destruct (fileLoop _ _ _ _ _ _ _ _ _ (length data) 0 data 0 0)
    as [[[out' before] after] |] eqn:Hloop; simpl in Hfilter; [| discriminate].
  injection Hfilter as <- _.
  split.
  - by rewrite (fileLoop_content (length data) 0 data out' 0 0 before after ltac:(lia) Hloop).
  - intros d d' Hkept. unfold keptFile in Hkept.
    destruct (filterAnnotations _ _ _ _ _ _ _ _ (Annotations d)) as [annotations |] eqn:Hanns;
      [| discriminate].
    destruct (requireLabel && (length annotations =? 0)%nat); [discriminate |].
    injection Hkept as <-. simpl. split; [reflexivity |].
    unfold filterAnnotations in Hanns.
    by rewrite (annotationLoop_content (length (Annotations d)) 0 (Annotations d) annotations
                  ltac:(lia) Hanns).
Qed.

Lemma omap_length_le {A B : Type} (f : A -> option B) (l : list A) :
  (length (omap f l) <= length l)%nat.
Proof. induction l as [| x l IH]; csimpl; [lia |]. destruct (f x); simpl; lia. Qed.

Lemma numLabels_app (l1 l2 : AnnotatedFiles F) :
  numLabels (l1 ++ l2) = (numLabels l1 + numLabels l2)%nat.
Proof. unfold numLabels. by rewrite map_app, concat_app, length_app. Qed.

Lemma numLabels_Permutation (l1 l2 : AnnotatedFiles F) :
  l1 ≡ₚ l2 -> numLabels l1 = numLabels l2.
Proof. intros Hperm. unfold numLabels. by rewrite Hperm. Qed.

(** The counters of the loop over the files: the annotations of the files
    still to pass are added to the first, and the second grows by the
    annotations of the files that are left, and by no more than the first. *)
Lemma fileLoop_counts (fuel dataIdx : nat) (data out : AnnotatedFiles F)
    (before after before' after' : nat) :
  (length data - dataIdx <= fuel)%nat ->
  fileLoop labelNames attributes requiredAttrs minConfidence requireLabel
    minBboxWidth minBboxHeight minAspectRatio maxAspectRatio
    fuel dataIdx data before after = Done (out, before', after') ->
  before' = (before + numLabels (drop dataIdx data))%nat /\
  (after' + numLabels (take dataIdx data))%nat = (after + numLabels out)%nat /\
  (after' + before <= before' + after)%nat.
Proof.
  revert dataIdx data before after.
  induction fuel as [| fuel' IH]; intros dataIdx data before after Hfuel Hloop.
  - simpl in Hloop. injection Hloop as <- <- <-.
    rewrite take_ge, drop_ge by lia. unfold numLabels at 1. simpl. lia.
  - simpl in Hloop. destruct (data !! dataIdx) as [d |] eqn:Hd.
    + pose proof (lookup_lt_Some _ _ _ Hd) as Hi.
      rewrite (drop_S _ _ _ Hd).
      change (d :: drop (S dataIdx) data) with ([d] ++ drop (S dataIdx) data).
      rewrite numLabels_app.
      replace (numLabels [d]) with (length (Annotations d))
        by (unfold numLabels; simpl; by rewrite app_nil_r).
      destruct (filterAnnotations _ _ _ _ _ _ _ _ (Annotations d)) as [annotations |] eqn:Hanns;
        simpl in Hloop; [| discriminate].
      assert (Hle : (length annotations <= length (Annotations d))%nat).
      { unfold filterAnnotations in Hanns.
        rewrite (annotationLoop_content (length (Annotations d)) 0 (Annotations d) annotations
                   ltac:(lia) Hanns).
        simpl. rewrite drop_0. apply omap_length_le. }
      destruct (requireLabel && (length annotations =? 0)%nat) eqn:Hempty.
      * apply andb_prop in Hempty as [_ Hzero]. apply Nat.eqb_eq in Hzero.
        apply IH in Hloop as (Hb & Ha & Hab);
          [| rewrite deleteAnnotation_length by (rewrite length_insert; exact Hi);
             rewrite length_insert; lia].
        rewrite deleteAnnotation_take in Ha by (rewrite length_insert; exact Hi).
        rewrite (numLabels_Permutation _ _
                   (deleteAnnotation_drop _ dataIdx ltac:(rewrite length_insert; exact Hi)))
          in Hb.
        rewrite take_insert_ge in Ha by lia. rewrite drop_insert_lt in Hb by lia.
        lia.
      * apply IH in Hloop as (Hb & Ha & Hab); [| rewrite length_insert; lia].
        rewrite (take_S_r _ _ {| Annotations := annotations; FilePath := FilePath d |})
          in Ha by (by apply list_lookup_insert_eq).
        rewrite take_insert_ge in Ha by lia. rewrite drop_insert_lt in Hb by lia.
        rewrite numLabels_app in Ha.
        replace (numLabels [{| Annotations := annotations; FilePath := FilePath d |}])
          with (length annotations) in Ha
          by (unfold numLabels; simpl; by rewrite app_nil_r).
        lia.
    + injection Hloop as <- <- <-. apply lookup_ge_None in Hd.
      rewrite take_ge, drop_ge by lia. unfold numLabels at 1. simpl. lia.
Qed.

(** X2: the two numbers [Filter] logs are the annotations and the files
    that are missing from what it leaves. *)
Theorem Filter_log (data out : AnnotatedFiles F) (log : nat * nat) :
  Filter labelNames attributes requiredAttrs minConfidence requireLabel
         minBboxWidth minBboxHeight minAspectRatio maxAspectRatio data = Done (out, log) ->
  (fst log + numLabels out)%nat = numLabels data /\
  (snd log + length out)%nat = length data.
Proof.
  unfold Filter. intros Hfilter.
  destruct (fileLoop _ _ _ _ _ _ _ _ _ (length data) 0 data 0 0)
    as [[[out' before] after] |] eqn:Hloop; simpl in Hfilter; [| discriminate].
  injection Hfilter as <- <-. simpl.
  destruct (fileLoop_counts (length data) 0 data out' 0 0 before after ltac:(lia) Hloop)
    as (Hb & Ha & Hab).
  pose proof (fileLoop_content (length data) 0 data out' 0 0 before after ltac:(lia) Hloop)
    as Hcontent.
  simpl in Hb, Ha, Hcontent. rewrite drop_0 in Hb, Hcontent.
  change (numLabels []) with 0%nat in Ha.
  assert (Hlen : (length out' <= length data)%nat).
  { rewrite Hcontent. apply omap_length_le. }
  rewrite take_0 in Ha. change (numLabels []) with 0%nat in Ha.
  split; lia.
Qed.

(** When no label is required, the loop over the files leaves every file at
    its position. *)
Lemma fileLoop_in_place (fuel dataIdx : nat) (data out : AnnotatedFiles F)
    (before after before' after' : nat) :
  requireLabel = false ->
  (length data - dataIdx <= fuel)%nat ->
  fileLoop labelNames attributes requiredAttrs minConfidence requireLabel
    minBboxWidth minBboxHeight minAspectRatio maxAspectRatio
    fuel dataIdx data before after = Done (out, before', after') ->
  exists rest, out = take dataIdx data ++ rest /\
               Forall2 (fun d' d => keptF d = Some d') rest (drop dataIdx data).
Proof.
  intros Hreq. revert dataIdx data before after.
  induction fuel as [| fuel' IH]; intros dataIdx data before after Hfuel Hloop.
  - simpl in Hloop. injection Hloop as <- _ _. exists [].
    rewrite take_ge, drop_ge by lia. by rewrite app_nil_r.
  - simpl in Hloop. destruct (data !! dataIdx) as [d |] eqn:Hd.
    + pose proof (lookup_lt_Some _ _ _ Hd) as Hi.
      destruct (filterAnnotations _ _ _ _ _ _ _ _ (Annotations d)) as [annotations |] eqn:Hanns;
        simpl in Hloop; [| discriminate].
      replace (requireLabel && (length annotations =? 0)%nat) with false in Hloop
        by (by rewrite Hreq).
      apply IH in Hloop as (rest & -> & Hrest); [| rewrite length_insert; lia].
      exists ({| Annotations := annotations; FilePath := FilePath d |} :: rest).
      rewrite (take_S_r _ _ {| Annotations := annotations; FilePath := FilePath d |})
        by (by apply list_lookup_insert_eq).
      rewrite take_insert_ge by lia. rewrite drop_insert_lt in Hrest by lia.
      split; [by rewrite <- app_assoc |].
      rewrite (drop_S _ _ _ Hd). constructor; [| exact Hrest].
      unfold keptFile. rewrite Hanns, Hreq. reflexivity.
    + injection Hloop as <- _ _. exists [].
      apply lookup_ge_None in Hd. rewrite take_ge, drop_ge by lia. by rewrite app_nil_r.
Qed.

(** X3: when no label is required, [Filter] leaves every file at its
    position, with its path, and removes none. *)
Theorem Filter_in_place (data out : AnnotatedFiles F) (log : nat * nat) :
  requireLabel = false ->
  Filter labelNames attributes requiredAttrs minConfidence requireLabel
         minBboxWidth minBboxHeight minAspectRatio maxAspectRatio data = Done (out, log) ->
  Forall2 (fun d' d => FilePath d' = FilePath d /\
                       filterAnnotations labelNames attributes requiredAttrs minConfidence
                         minBboxWidth minBboxHeight minAspectRatio maxAspectRatio
                         (Annotations d) = Done (Annotations d')) out data /\
  snd log = 0%nat.
Proof.
  intros Hreq. unfold Filter. intros Hfilter.
  destruct (fileLoop _ _ _ _ _ _ _ _ _ (length data) 0 data 0 0)
    as [[[out' before] after] |] eqn:Hloop; simpl in Hfilter; [| discriminate].
  injection Hfilter as <- <-. simpl.
  destruct (fileLoop_in_place (length data) 0 data out' 0 0 before after Hreq ltac:(lia) Hloop)
    as (rest & -> & Hrest).
  simpl in *. rewrite drop_0 in Hrest.
  split.
  - apply (Forall2_impl _ _ _ _ Hrest). intros d' d Hkept. unfold keptFile in Hkept.
    destruct (filterAnnotations _ _ _ _ _ _ _ _ (Annotations d)) as [annotations |];
      [| discriminate].
    rewrite Hreq in Hkept. simpl in Hkept. by injection Hkept as <-.
  - apply Forall2_length in Hrest. lia.
Qed.
End FilterContent.

Lemma Filter_content_witness :
  Filter ["sign"] [Confidence; DetectedText] [DetectedText] (b64 1 2) true
         (b64_int 5) (b64_int 5) (b64_int 1) (b64_int 4) filterInput
  = Done (filterOutput, (4%nat, 1%nat)) /\
  filterOutput
  ≡ₚ omap (keptFile ["sign"] [Confidence; DetectedText] [DetectedText] (b64 1 2) true
             (b64_int 5) (b64_int 5) (b64_int 1) (b64_int 4)) filterInput /\
  (forall d d',
     keptFile ["sign"] [Confidence; DetectedText] [DetectedText] (b64 1 2) true
       (b64_int 5) (b64_int 5) (b64_int 1) (b64_int 4) d = Some d' ->
     FilePath d' = FilePath d /\
     Annotations d'
     ≡ₚ omap (keptAnnotation ["sign"] [Confidence; DetectedText] [DetectedText] (b64 1 2)
                (b64_int 5) (b64_int 5) (b64_int 1) (b64_int 4)) (Annotations d)).
Proof.
  assert (Hfirst : Filter ["sign"] [Confidence; DetectedText] [DetectedText] (b64 1 2) true
                          (b64_int 5) (b64_int 5) (b64_int 1) (b64_int 4) filterInput
                   = Done (filterOutput, (4%nat, 1%nat))) by (vm_compute; reflexivity).
  split; [exact Hfirst |].
  exact (Filter_content ["sign"] [Confidence; DetectedText] [DetectedText] (b64 1 2) true
           (b64_int 5) (b64_int 5) (b64_int 1) (b64_int 4)
           filterInput filterOutput (4%nat, 1%nat) Hfirst).
Defined.

Lemma Filter_log_witness :
  Filter ["sign"] [Confidence; DetectedText] [DetectedText] (b64 1 2) true
         (b64_int 5) (b64_int 5) (b64_int 1) (b64_int 4) filterInput
  = Done (filterOutput, (4%nat, 1%nat)) /\
  (4 + numLabels filterOutput)%nat = numLabels filterInput /\
  (1 + length filterOutput)%nat = length filterInput.
Proof.
  assert (Hfirst : Filter ["sign"] [Confidence; DetectedText] [DetectedText] (b64 1 2) true
                          (b64_int 5) (b64_int 5) (b64_int 1) (b64_int 4) filterInput
                   = Done (filterOutput, (4%nat, 1%nat))) by (vm_compute; reflexivity).
  split; [exact Hfirst |].
  exact (Filter_log ["sign"] [Confidence; DetectedText] [DetectedText] (b64 1 2) true
           (b64_int 5) (b64_int 5) (b64_int 1) (b64_int 4)
           filterInput filterOutput (4%nat, 1%nat) Hfirst).
Defined.

Lemma Filter_in_place_witness :
  false = false /\
  Filter ["sign"] [Confidence; DetectedText] [DetectedText] (b64 1 2) false
         (b64_int 5) (b64_int 5) (b64_int 1) (b64_int 4) filterInput
  = Done (filterOutputAll, (4%nat, 0%nat)) /\
  Forall2 (fun d' d =>
             FilePath d' = FilePath d /\
             filterAnnotations ["sign"] [Confidence; DetectedText] [DetectedText] (b64 1 2)
               (b64_int 5) (b64_int 5) (b64_int 1) (b64_int 4) (Annotations d)
             = Done (Annotations d')) filterOutputAll filterInput /\
  0%nat = 0%nat.
Proof.
  assert (Hfirst : Filter ["sign"] [Confidence; DetectedText] [DetectedText] (b64 1 2) false
                          (b64_int 5) (b64_int 5) (b64_int 1) (b64_int 4) filterInput
                   = Done (filterOutputAll, (4%nat, 0%nat))) by (vm_compute; reflexivity).
  split; [reflexivity |]. split; [exact Hfirst |].
  exact (Filter_in_place ["sign"] [Confidence; DetectedText] [DetectedText] (b64 1 2) false
           (b64_int 5) (b64_int 5) (b64_int 1) (b64_int 4)
           filterInput filterOutputAll (4%nat, 0%nat) eq_refl Hfirst).
Defined.

(** *** Edge cases of Split *)

(** The bucket a draw selects has a boundary above the draw, and the
    boundaries before it are not above the draw. *)
Lemma firstBucket_inv (splits : list Z) (r : Z) (i : nat) :
  firstBucket splits r = Some i ->
  (exists b, splits !! i = Some b /\ r < b) /\
  (forall j b, (j < i)%nat -> splits !! j = Some b -> b <= r).
Proof.
  revert i. induction splits as [| s rest IH]; intros i Hi; simpl in Hi; [discriminate |].
  destruct (r <? s) eqn:Hlt.
  - injection Hi as <-. apply Z.ltb_lt in Hlt. split; [by exists s |]. intros j b Hj. lia.
  - apply Z.ltb_ge in Hlt.
    destruct (firstBucket rest r) as [i' |] eqn:Hrest; simpl in Hi; [| discriminate].
    injection Hi as <-. destruct (IH i' eq_refl) as [Hb Hbefore].
    split; [exact Hb |].
    intros [| j] b Hj Hlookup; simpl in Hlookup.
    + injection Hlookup as <-. exact Hlt.
    + apply (Hbefore j b); [lia | exact Hlookup].
Qed.

Lemma bucketFiles_nil {A : Type} (rng : nat -> Z) (splits : list Z) (i k : nat)
    (data : list A) :
  (forall k', firstBucket splits (rng k') <> Some i) ->
  bucketFiles rng splits i k data = [].
Proof.
  intros Hnever. revert k. induction data as [| d rest IH]; intros k; [reflexivity |].
  simpl. rewrite decide_False by apply Hnever. apply IH.
Qed.

Lemma bucketFiles_all {A : Type} (rng : nat -> Z) (splits : list Z) (i k : nat)
    (data : list A) :
  (forall k', firstBucket splits (rng k') = Some i) ->
  bucketFiles rng splits i k data = data.
Proof.
  intros Halways. revert k. induction data as [| d rest IH]; intros k; [reflexivity |].
  simpl. rewrite decide_True by apply Halways. simpl. by rewrite IH.
Qed.

(** X4: a bucket whose boundary is not above the boundary before it is left
    empty. *)
Theorem Split_empty_bucket {F : Type} `{Float64 F}
    (rng : nat -> Z) (cumulativeSplits : list Z) (data : AnnotatedFiles F)
    (datasets : list (AnnotatedFiles F)) (i : nat) (b b' : Z) :
  Split rng cumulativeSplits data = Done (Ok datasets) ->
  cumulativeSplits !! i = Some b' -> cumulativeSplits !! S i = Some b -> b <= b' ->
  datasets !! S i = Some [].
Proof.
  unfold Split. intros Hsplit Hb' Hb Hle.
  destruct (allocLoop (Z.of_nat (length data)) 0 cumulativeSplits) as [sum |];
    simpl in Hsplit; [| discriminate].
  destruct (negb (sum =? 100)); [discriminate |].
  injection Hsplit as <-. rewrite splitLoop_buckets.
  rewrite list_lookup_fmap, lookup_seq_lt by (by eapply lookup_lt_Some).
  simpl. f_equal. apply bucketFiles_nil. intros k Hk.
  apply firstBucket_inv in Hk as [(b0 & Hb0 & Hlt) Hbefore].
  rewrite Hb in Hb0. injection Hb0 as <-.
  specialize (Hbefore i b' ltac:(lia) Hb'). lia.
Qed.

Lemma Split_empty_bucket_witness :
  Split someDraws [30; 30; 100] fiveFiles
  = Done (Ok [ [emptyFile "a"; emptyFile "d"]; [];
               [emptyFile "b"; emptyFile "c"; emptyFile "e"] ]) /\
  [ [emptyFile "a"; emptyFile "d"]; [];
    [emptyFile "b"; emptyFile "c"; emptyFile "e"] ] !! 1%nat = Some [].
Proof.
  split; [vm_compute; reflexivity |].
  apply (Split_empty_bucket someDraws [30; 30; 100] fiveFiles _ 0 30 30);
    [vm_compute; reflexivity | reflexivity | reflexivity | lia].
Defined.


Lemma Sorted_le_last (l : list Z) (m : Z) :
  Sorted Z.le l -> last l = Some m -> Forall (fun b => b <= m) l.
Proof.
  induction l as [| x rest IH]; intros Hsorted Hlast; [constructor |].
  apply Sorted_inv in Hsorted as [Hrest Hhead].
  destruct rest as [| y rest'].
  - simpl in Hlast. injection Hlast as ->. constructor; [lia | constructor].
  - change (last (x :: y :: rest')) with (last (y :: rest')) in Hlast.
    specialize (IH Hrest Hlast). constructor; [| exact IH].
    apply HdRel_inv in Hhead. apply Forall_cons in IH as [Hy _]. lia.
Qed.

Lemma Sorted_le_lookup (l : list Z) (i j : nat) (a b : Z) :
  Sorted Z.le l -> (i <= j)%nat -> l !! i = Some a -> l !! j = Some b -> a <= b.
Proof.
  intros Hsorted. revert i j a b.
  induction l as [| x rest IH]; intros i j a b Hij Ha Hb; [discriminate |].
  apply Sorted_inv in Hsorted as [Hrest Hhead].
  destruct i as [| i], j as [| j]; simpl in Ha, Hb; try lia.
  - injection Ha as <-. injection Hb as <-. lia.
  - injection Ha as <-.
    destruct rest as [| y rest']; [discriminate |].
    apply HdRel_inv in Hhead.
    specialize (IH Hrest 0%nat j y b ltac:(lia) eq_refl Hb). lia.
  - apply (IH Hrest i j); [lia | exact Ha | exact Hb].
Qed.

(** With sorted boundaries, a draw selects the bucket whose interval holds
    it. *)
Lemma firstBucket_interval (boundaries : list Z) (r lo hi : Z) (i : nat) :
  Sorted Z.le (0 :: boundaries) -> 0 <= r ->
  (0 :: boundaries) !! i = Some lo -> boundaries !! i = Some hi ->
  firstBucket boundaries r = Some i <-> lo <= r < hi.
Proof.
  intros Hsorted Hr Hlo Hhi. split.
  - intros Hfirst. apply firstBucket_inv in Hfirst as [(b & Hb & Hlt) Hbefore].
    rewrite Hhi in Hb. injection Hb as <-. split; [| exact Hlt].
    destruct i as [| i]; simpl in Hlo; [injection Hlo as <-; exact Hr |].
    apply (Hbefore i lo); [lia | exact Hlo].
  - intros [Hge Hlt].
    assert (Hsome : is_Some (firstBucket boundaries r)).
    { clear Hsorted Hlo Hge. revert i Hhi.
      induction boundaries as [| b rest IH]; intros i Hhi; [discriminate |].
      simpl. destruct (r <? b) eqn:E; [by eexists |].
      destruct i as [| i]; simpl in Hhi.
      - injection Hhi as ->. apply Z.ltb_ge in E. lia.
      - destruct (IH i Hhi) as [j ->]. by eexists. }
    destruct Hsome as [j Hj]. rewrite Hj. f_equal.
    apply firstBucket_inv in Hj as [(b & Hb & Hltb) Hbefore].
    destruct (lt_eq_lt_dec j i) as [[Hji | ->] | Hij]; [| reflexivity |].
    + exfalso.
      assert (b <= lo); [| lia].
      apply (Sorted_le_lookup (0 :: boundaries) (S j) i b lo Hsorted); [lia | exact Hb | exact Hlo].
    + exfalso. specialize (Hbefore i hi Hij Hhi). lia.
Qed.

Lemma bucketFiles_drawnIn {A : Type} (rng : nat -> Z) (boundaries : list Z) (lo hi : Z)
    (i k : nat) (data : list A) :
  (forall k', 0 <= rng k') -> Sorted Z.le (0 :: boundaries) ->
  (0 :: boundaries) !! i = Some lo -> boundaries !! i = Some hi ->
  bucketFiles rng boundaries i k data = drawnIn rng lo hi k data.
Proof.
  intros Hrng Hsorted Hlo Hhi. revert k.
  induction data as [| d rest IH]; intros k; [reflexivity |].
  simpl. rewrite IH. f_equal.
  pose proof (firstBucket_interval boundaries (rng k) lo hi i Hsorted (Hrng k) Hlo Hhi)
    as Hiff.
  destruct (decide (firstBucket boundaries (rng k) = Some i)) as [Hfirst | Hfirst].
  - apply Hiff in Hfirst as [Hge Hlt].
    by rewrite (proj2 (Z.leb_le _ _) Hge), (proj2 (Z.ltb_lt _ _) Hlt).
  - destruct (lo <=? rng k) eqn:E1; [| reflexivity].
    destruct (rng k <? hi) eqn:E2; [| reflexivity].
    exfalso. apply Hfirst, Hiff. apply Z.leb_le in E1. apply Z.ltb_lt in E2. lia.
Qed.

(** X5: in binary64, for boundaries that ascend from 0 or above to a last
    boundary of 100, draws in [0,100) and fewer than [2^31] files, [Split]
    returns one dataset per boundary, and the dataset of a boundary holds,
    in input order, the files whose draw is at least the boundary before it
    (0 for the first) and below the boundary itself. *)
Theorem Split_binary64_intervals (rng : nat -> Z) (boundaries : list Z)
    (data : AnnotatedFiles spec_float) :
  (forall k, 0 <= rng k < 100) ->
  Sorted Z.le (0 :: boundaries) -> last boundaries = Some 100 ->
  Z.of_nat (length data) < 2 ^ 31 ->
  exists datasets,
    Split rng boundaries data = Done (Ok datasets) /\
    length datasets = length boundaries /\
    (forall i lo hi, (0 :: boundaries) !! i = Some lo -> boundaries !! i = Some hi ->
       datasets !! i = Some (drawnIn rng lo hi 0 data)).
Proof.
  intros Hrng Hsorted Hlast Hlen. unfold Split.
  assert (Hle : Forall (fun b => b <= 100) boundaries).
  { apply Sorted_le_last; [| exact Hlast]. by apply Sorted_inv in Hsorted as [? _]. }
  rewrite (allocLoop_Done _ 0 boundaries)
    by (apply (bucketCap_binary64_sorted boundaries (length data) Hsorted Hle Hlen)).
  rewrite Hlast. simpl. eexists. split; [reflexivity |].
  rewrite splitLoop_buckets. split; [by rewrite length_map, length_seq |].
  intros i lo hi Hlo Hhi.
  rewrite list_lookup_fmap, lookup_seq_lt by (by eapply lookup_lt_Some).
  simpl. f_equal. apply bucketFiles_drawnIn; try assumption. intros k. apply Hrng.
Qed.

Lemma Split_binary64_intervals_witness :
  exists datasets,
    Split someDraws [30; 70; 100] fiveFiles = Done (Ok datasets) /\
    length datasets = length [30; 70; 100] /\
    (forall i lo hi, (0 :: [30; 70; 100]) !! i = Some lo -> [30; 70; 100] !! i = Some hi ->
       datasets !! i = Some (drawnIn someDraws lo hi 0 fiveFiles)).
Proof.
  apply (Split_binary64_intervals someDraws [30; 70; 100] fiveFiles).
  - intros k. unfold someDraws. apply Z.mod_pos_bound. lia.
  - repeat (constructor; try lia).
  - reflexivity.
  - vm_compute. reflexivity.
Defined.

(** *** TransformBboxes *)

(** What holds between every annotation and its transform holds position by
    position between the data and the transformed data. *)
Lemma TransformBboxes_Forall2 {F : Type} `{Float64 F}
    (R : Annotation F -> Annotation F -> Prop) (scaleX scaleY aspectRatio : F)
    (data : AnnotatedFiles F) :
  (forall a, R (transformBbox scaleX scaleY aspectRatio a) a) ->
  Forall2 (fun f' f => FilePath f' = FilePath f /\
                       Forall2 R (Annotations f') (Annotations f))
          (TransformBboxes scaleX scaleY aspectRatio data) data.
Proof.
  intros HR. unfold TransformBboxes.
  induction data as [| f rest IH]; simpl; constructor; [| exact IH].
  split; [reflexivity |]. simpl.
  induction (Annotations f) as [| a l IHl]; simpl; constructor; [apply HR | exact IHl].
Qed.

Lemma scaleBbox_frame {F : Type} `{Float64 F} (scaleX scaleY : F) (a : Annotation F) :
  Label (scaleBbox scaleX scaleY a) = Label a /\
  Attributes (scaleBbox scaleX scaleY a) = Attributes a.
Proof. unfold scaleBbox. by destruct (_ || _). Qed.

Lemma growBbox_frame {F : Type} `{Float64 F} (aspectRatio : F) (a : Annotation F) :
  Label (growBbox aspectRatio a) = Label a /\
  Attributes (growBbox aspectRatio a) = Attributes a.
Proof.
  unfold growBbox. destruct (f_gtb aspectRatio f_zero); [| done].
  destruct (f_ltb _ aspectRatio); [done |]. by destruct (f_gtb _ aspectRatio).
Qed.

(** X6: [TransformBboxes] changes coordinates only: the files, their paths
    and the number and order of their annotations stay, and so do the label
    and the attributes of every annotation. *)
Theorem TransformBboxes_frame {F : Type} `{Float64 F}
    (scaleX scaleY aspectRatio : F) (data : AnnotatedFiles F) :
  Forall2 (fun f' f => FilePath f' = FilePath f /\
             Forall2 (fun a' a => Label a' = Label a /\ Attributes a' = Attributes a)
                     (Annotations f') (Annotations f))
          (TransformBboxes scaleX scaleY aspectRatio data) data.
Proof.
  apply TransformBboxes_Forall2. intros a. unfold transformBbox.
  destruct (growBbox_frame aspectRatio (scaleBbox scaleX scaleY a)) as [-> ->].
  apply scaleBbox_frame.
Qed.

(** X9: in binary64, [TransformBboxes] with both scale factors 1 and an
    aspect ratio that is not above 0 leaves the data as they are. *)
Theorem TransformBboxes_neutral (aspectRatio : spec_float)
    (data : AnnotatedFiles spec_float) :
  f_gtb aspectRatio f_zero = false ->
  TransformBboxes f_one f_one aspectRatio data = data.
Proof.
  intros Hr. unfold TransformBboxes.
  rewrite <- (map_id data) at 2. apply map_ext. intros [annotations path]. simpl.
  f_equal. rewrite <- (map_id annotations) at 2. apply map_ext. intros a.
  unfold transformBbox, growBbox. rewrite Hr. reflexivity.
Qed.

Lemma TransformBboxes_neutral_witness :
  TransformBboxes f_one f_one (b64_int 0) filterInput = filterInput.
Proof. apply TransformBboxes_neutral. vm_compute. reflexivity. Defined.

(** *** MapLabels *)

Lemma parseMappings_app (m1 m2 : list string) :
  parseMappings (m1 ++ m2)
  = match parseMappings m1 with
    | Err e => Err e
    | Ok r1 => match parseMappings m2 with
               | Err e => Err e
               | Ok r2 => Ok (r1 ++ r2)
               end
    end.
Proof.
  induction m1 as [| v rest IH]; simpl.
  - by destruct (parseMappings m2).
  - destruct (negb (length (Go.Split "=" v) =? 2)%nat); [reflexivity |].
    rewrite IH. destruct (parseMappings rest); [| reflexivity].
    by destruct (parseMappings m2).
Qed.

Lemma mapFile_app {F : Type} `{Float64 F} (r1 r2 : list (string * string))
    (f : AnnotatedFile F) :
  mapFile (r1 ++ r2) f = mapFile r2 (mapFile r1 f).
Proof.
  unfold mapFile. simpl. f_equal. rewrite map_map. apply map_ext. intros a.
  unfold mapAnnotation, mapLabel. simpl. by rewrite fold_left_app.
Qed.

Lemma mapFile_nil {F : Type} `{Float64 F} (data : AnnotatedFiles F) :
  map (mapFile []) data = data.
Proof.
  rewrite <- (map_id data) at 2. apply map_ext. intros [annotations path].
  unfold mapFile. simpl. f_equal.
  rewrite <- (map_id annotations) at 2. apply map_ext. by intros [].
Qed.

Lemma MapLabels_data {F : Type} `{Float64 F} (mappings : list string)
    (replacements : list (string * string)) (data : AnnotatedFiles F) :
  parseMappings mappings = Ok replacements ->
  fst (fst (MapLabels mappings data)) = map (mapFile replacements) data /\
  snd (MapLabels mappings data) = None.
Proof.
  intros Hp. unfold MapLabels. destruct mappings as [| v rest].
  - simpl in Hp. injection Hp as <-. simpl. by rewrite mapFile_nil.
  - by rewrite Hp.
Qed.

Lemma MapLabels_error {F : Type} `{Float64 F} (mappings : list string) (e : error)
    (data : AnnotatedFiles F) :
  parseMappings mappings = Err e -> snd (MapLabels mappings data) = Some e.
Proof.
  intros Hp. unfold MapLabels. destruct mappings as [| v rest]; [discriminate |].
  by rewrite Hp.
Qed.

(** X10: when [MapLabels] accepts the rules [m1 ++ m2], it accepts [m1] and
    [m2], and it leaves the data that [MapLabels] with [m2] leaves of the
    data that [MapLabels] with [m1] leaves. *)
Theorem MapLabels_app {F : Type} `{Float64 F} (m1 m2 : list string)
    (data : AnnotatedFiles F) :
  snd (MapLabels (m1 ++ m2) data) = None ->
  snd (MapLabels m1 data) = None /\
  snd (MapLabels m2 (fst (fst (MapLabels m1 data)))) = None /\
  fst (fst (MapLabels (m1 ++ m2) data))
  = fst (fst (MapLabels m2 (fst (fst (MapLabels m1 data))))).
Proof.
  intros Hnone.
  pose proof (parseMappings_app m1 m2) as Happ.
  destruct (parseMappings m1) as [r1 | e1] eqn:H1.
  2: { rewrite (MapLabels_error _ e1 data Happ) in Hnone. discriminate. }
  destruct (parseMappings m2) as [r2 | e2] eqn:H2.
  2: { rewrite (MapLabels_error _ e2 data Happ) in Hnone. discriminate. }
  destruct (MapLabels_data _ _ data H1) as [D1 E1].
  destruct (MapLabels_data _ _ (fst (fst (MapLabels m1 data))) H2) as [D2 E2].
  destruct (MapLabels_data _ _ data Happ) as [D E].
  split; [exact E1 |]. split; [exact E2 |].
  rewrite D, D2, D1, map_map. apply map_ext. intros f. apply mapFile_app.
Qed.

Lemma MapLabels_app_witness :
  snd (MapLabels ["car=vehicle"] filterInput) = None /\
  snd (MapLabels ["vehicle=v"] (fst (fst (MapLabels ["car=vehicle"] filterInput)))) = None /\
  fst (fst (MapLabels (["car=vehicle"] ++ ["vehicle=v"]) filterInput))
  = fst (fst (MapLabels ["vehicle=v"] (fst (fst (MapLabels ["car=vehicle"] filterInput))))).
Proof. apply (MapLabels_app ["car=vehicle"] ["vehicle=v"] filterInput). reflexivity. Defined.

(** *** cropObjectsFromImage *)

(** A non-empty intersection lies inside both rectangles. *)
Lemma Intersect_inside (r s : Go.Rectangle) :
  Go.Empty (Go.Intersect r s) = false ->
  let t := Go.Intersect r s in
  (Go.X (Go.Min s) <= Go.X (Go.Min t) /\ Go.Y (Go.Min s) <= Go.Y (Go.Min t) /\
   Go.X (Go.Max t) <= Go.X (Go.Max s) /\ Go.Y (Go.Max t) <= Go.Y (Go.Max s)) /\
  (Go.X (Go.Min r) <= Go.X (Go.Min t) /\ Go.Y (Go.Min r) <= Go.Y (Go.Min t) /\
   Go.X (Go.Max t) <= Go.X (Go.Max r) /\ Go.Y (Go.Max t) <= Go.Y (Go.Max r)).
Proof.
  destruct r as [[rx0 ry0] [rx1 ry1]], s as [[sx0 sy0] [sx1 sy1]].
  unfold Go.Intersect. cbv zeta. cbn [Go.X Go.Y Go.Min Go.Max]. rewrite !Z.gtb_ltb.
  repeat match goal with
         | |- context [?a <? ?b] => destruct (Z.ltb_spec a b)
         end.
  all: destruct (Go.Empty (Go.MkRect _ _)).
  all: try (intros Hz; vm_compute in Hz; discriminate).
  all: intros _; cbn [Go.X Go.Y Go.Min Go.Max]; lia.
Qed.

Lemma cropLoop_crops {F : Type} `{Float64 F} (img : Image) (path : string)
    (annotations : list (Annotation F)) (i : nat)
    (crops : list Image) (annotatedFiles : list (AnnotatedFile F)) :
  fst (cropLoop img path i annotations crops annotatedFiles)
  = crops ++ map (SubImage img)
               (filter (fun r => Go.Empty r = false)
                       (map (clipToBounds (Bounds img)) annotations)).
Proof.
  revert i crops annotatedFiles.
  induction annotations as [| a rest IH]; intros i crops annotatedFiles; simpl.
  - by rewrite app_nil_r.
  - rewrite filter_cons. destruct (Go.Empty (clipToBounds (Bounds img) a)) eqn:He.
    + rewrite decide_False by done. apply IH.
    + rewrite decide_True by done. rewrite IH. simpl. by rewrite <- app_assoc.
Qed.

(** X11: every crop that [cropObjectsFromImage] returns has a non-empty
    rectangle that lies within the bounds of the image, and the single
    annotation of its file spans that rectangle moved to the origin. *)
Theorem cropObjectsFromImage_in_bounds {F : Type} `{Float64 F}
    (f : AnnotatedFile F) (img : Image) (crops : list Image)
    (files : list (AnnotatedFile F)) :
  cropObjectsFromImage f img = Ok (crops, files) ->
  Forall2 (fun crop file =>
             Go.Empty (Bounds crop) = false /\
             (Go.X (Go.Min (Bounds img)) <= Go.X (Go.Min (Bounds crop)) /\
              Go.Y (Go.Min (Bounds img)) <= Go.Y (Go.Min (Bounds crop)) /\
              Go.X (Go.Max (Bounds crop)) <= Go.X (Go.Max (Bounds img)) /\
              Go.Y (Go.Max (Bounds crop)) <= Go.Y (Go.Max (Bounds img))) /\
             map Coords (Annotations file)
             = [MkCoords f_zero f_zero (f_of_int (Go.Dx (Bounds crop)))
                         (f_of_int (Go.Dy (Bounds crop)))])
          crops files.
Proof.
  unfold cropObjectsFromImage. destruct (negb (hasSubImage img)); [discriminate |].
  intros Hok. injection Hok as Hok.
  pose proof (f_equal fst Hok) as Hcrops. pose proof (f_equal snd Hok) as Hfiles.
  simpl in Hcrops, Hfiles.
  pose proof (cropLoop_crops img (FilePath f) (Annotations f) 0 [] []) as Ec.
  destruct (cropLoop_derivedFiles img (FilePath f) (Annotations f) 0 [] []) as [Ef _].
  rewrite <- Hcrops, <- Hfiles, Ec, Ef. simpl app. clear.
  generalize 0%nat at 2. revert img.
  generalize (String.substring 0
                (String.length (FilePath f) - String.length (Go.Ext (FilePath f)))
                (FilePath f)).
  generalize (Go.Ext (FilePath f)).
  induction (Annotations f) as [| a rest IH]; intros ext stem img i; simpl; [constructor |].
  rewrite filter_cons. destruct (Go.Empty (clipToBounds (Bounds img) a)) eqn:He.
  - rewrite decide_False by done. simpl. apply IH.
  - rewrite decide_True by done. simpl. constructor; [| apply IH].
    split; [exact He |]. split; [| reflexivity].
    unfold clipToBounds in *. apply (Intersect_inside _ _ He).
Qed.

Lemma cropObjectsFromImage_in_bounds_witness :
  Forall2 (fun crop file =>
             Go.Empty (Bounds crop) = false /\
             (Go.X (Go.Min (Bounds image200x100)) <= Go.X (Go.Min (Bounds crop)) /\
              Go.Y (Go.Min (Bounds image200x100)) <= Go.Y (Go.Min (Bounds crop)) /\
              Go.X (Go.Max (Bounds crop)) <= Go.X (Go.Max (Bounds image200x100)) /\
              Go.Y (Go.Max (Bounds crop)) <= Go.Y (Go.Max (Bounds image200x100))) /\
             map Coords (Annotations file)
             = [MkCoords f_zero f_zero (f_of_int (Go.Dx (Bounds crop)))
                         (f_of_int (Go.Dy (Bounds crop)))])
          (fst (cropLoop image200x100 (FilePath threeAnnotations) 0
                  (Annotations threeAnnotations) [] []))
          (snd (cropLoop image200x100 (FilePath threeAnnotations) 0
                  (Annotations threeAnnotations) [] [])).
Proof.
  apply (cropObjectsFromImage_in_bounds threeAnnotations image200x100).
  vm_compute. reflexivity.
Defined.

Local Ltac in_list := repeat (apply elem_of_cons; first [by left | right]).

(** *** ProcessImages *)

Section ProcessImagesProperties.
Context {F : Type} `{Float64 F}.
Variable Resize : Image -> Z -> Z -> ResampleFilter -> Image.
Variable World : Type.
Variable loadImage : World -> string -> result Image.
Variable saveImage : World -> string -> Image -> Z -> World * option error.
Variable Base : string -> string.
Variable Join : string -> string -> string.

Lemma sameObjects_refl (f : AnnotatedFile F) : sameObjects f f.
Proof. unfold sameObjects. induction (Annotations f); constructor; auto. Qed.

Lemma sameObjects_scaleCoords (width height : F) (path : string) (f : AnnotatedFile F) :
  sameObjects (scaleCoords width height (MkFile (Annotations f) path)) f.
Proof.
  unfold sameObjects, scaleCoords. simpl.
  induction (Annotations f); simpl; constructor; auto.
Qed.

(** The metadata that [processLoop] yields are those of its items, in their
    order, with the same objects and a path in [imageOutDir]; there are at
    most as many. *)
Lemma processLoop_done (w : World) (imageOutDir fileExt : string)
    (longerSide shorterSide : Z) (downsample upsample : ResampleFilter)
    (jpegQuality : Z) (doResizeImage : bool) (items : list (Image * AnnotatedFile F)) :
  let '(_, done, _) :=
    processLoop Resize saveImage Base Join w imageOutDir fileExt longerSide shorterSide
      downsample upsample jpegQuality doResizeImage items in
  Forall2 (fun d' item => sameObjects d' (snd item) /\
                          exists name, FilePath d' = Join imageOutDir name)
          done (take (length done) items).
Proof.
  revert w. induction items as [| [img data] rest IH]; intros w; simpl; [constructor |].
  destruct (if doResizeImage then _ else _) as [[img' sw] sh].
  destruct (saveImage w _ img' jpegQuality) as [w' [err |]]; [constructor |].
  specialize (IH w').
  destruct (processLoop _ _ _ _ w' _ _ _ _ _ _ _ _ rest) as [[w'' done] err].
  simpl. constructor; [| exact IH]. simpl. split.
  - destruct doResizeImage; [apply sameObjects_scaleCoords |].
    unfold sameObjects. simpl. apply sameObjects_refl.
  - eexists. destruct doResizeImage; reflexivity.
Qed.

Lemma workLoop_no_crop (w : World) (imageOutDir fileExt : string)
    (longerSide shorterSide : Z) (downsample upsample : ResampleFilter)
    (jpegQuality : Z) (doResizeImages : bool) (queue : AnnotatedFiles F) :
  let '(_, data', _, _) :=
    workLoop Resize loadImage saveImage Base Join w imageOutDir fileExt longerSide
      shorterSide downsample upsample jpegQuality false doResizeImages queue in
  Forall2 sameObjects data' queue.
Proof.
  revert w. induction queue as [| d rest IH]; intros w; simpl; [constructor |].
  unfold processImage.
  destruct (loadImage w (FilePath d)) as [img | e].
  - pose proof (processLoop_done w imageOutDir fileExt longerSide shorterSide downsample
                  upsample jpegQuality doResizeImages [(img, d)]) as Hdone.
    destruct (processLoop _ _ _ _ w _ _ _ _ _ _ _ _ [(img, d)]) as [[w' done] err].
    specialize (IH w').
    destruct (workLoop _ _ _ _ _ w' _ _ _ _ _ _ _ _ _ rest) as [[[w'' data'] cropped] err'].
    constructor; [| exact IH].
    destruct done as [| d' done']; simpl; [apply sameObjects_refl |].
    simpl in Hdone. apply Forall2_cons_1 in Hdone as [[Hsame _] _]. exact Hsame.
  - specialize (IH w).
    destruct (workLoop _ _ _ _ _ w _ _ _ _ _ _ _ _ _ rest) as [[[w'' data'] cropped] err'].
    constructor; [apply sameObjects_refl | exact IH].
Qed.

Lemma ProcessImages_no_crop_objects (w : World) (imageOutDir : string)
    (longerSide shorterSide : Z) (downsamplingFilter upsamplingFilter encoding : string)
    (jpegQuality : Z) (data : AnnotatedFiles F) :
  let '(_, data', _) :=
    ProcessImages Resize loadImage saveImage Base Join w imageOutDir longerSide shorterSide
      downsamplingFilter upsamplingFilter encoding jpegQuality false data in
  Forall2 sameObjects data' data.
Proof.
  assert (Hrefl : Forall2 sameObjects data data).
  { induction data; constructor; [apply sameObjects_refl | assumption]. }
  unfold ProcessImages.
  destruct (negb _ && negb false); [exact Hrefl |].
  destruct (selectFilter downsamplingFilter) as [down |]; [| exact Hrefl].
  destruct (selectFilter upsamplingFilter) as [up |]; [| exact Hrefl].
  destruct (selectFileExt encoding) as [ext |]; [| exact Hrefl].
  pose proof (workLoop_no_crop w imageOutDir ext longerSide shorterSide down up
                jpegQuality ((longerSide >? 0) || (shorterSide >? 0)) data) as Hloop.
  destruct (workLoop _ _ _ _ _ w _ _ _ _ _ _ _ _ _ data) as [[[w' data'] cropped] err].
  exact Hloop.
Qed.

Lemma cropLoop_single (img : Image) (path : string) (annotations : list (Annotation F))
    (i : nat) (crops : list Image) (annotatedFiles : list (AnnotatedFile F)) :
  Forall (fun f => length (Annotations f) = 1%nat) annotatedFiles ->
  Forall (fun f => length (Annotations f) = 1%nat)
         (snd (cropLoop img path i annotations crops annotatedFiles)).
Proof.
  revert i crops annotatedFiles.
  induction annotations as [| a rest IH]; intros i crops annotatedFiles Hsingle; simpl;
    [exact Hsingle |].
  destruct (Go.Empty _); apply IH; [exact Hsingle |].
  apply Forall_app. split; [exact Hsingle |]. by constructor.
Qed.

Local Abbreviation cropped imageOutDir :=
  (fun f : AnnotatedFile F =>
     length (Annotations f) = 1%nat /\ exists name, FilePath f = Join imageOutDir name).

Lemma workLoop_crop (w : World) (imageOutDir fileExt : string)
    (longerSide shorterSide : Z) (downsample upsample : ResampleFilter)
    (jpegQuality : Z) (doResizeImages : bool) (queue : AnnotatedFiles F) :
  let '(_, _, croppedData, _) :=
    workLoop Resize loadImage saveImage Base Join w imageOutDir fileExt longerSide
      shorterSide downsample upsample jpegQuality true doResizeImages queue in
  Forall (cropped imageOutDir) croppedData.
Proof.
  revert w. induction queue as [| d rest IH]; intros w; simpl; [constructor |].
  unfold processImage.
  destruct (loadImage w (FilePath d)) as [img | e].
  2: { specialize (IH w).
       destruct (workLoop _ _ _ _ _ w _ _ _ _ _ _ _ _ _ rest) as [[[w'' data'] cr] err'].
       exact IH. }
  unfold cropObjectsFromImage.
  destruct (negb (hasSubImage img)).
  { specialize (IH w).
    destruct (workLoop _ _ _ _ _ w _ _ _ _ _ _ _ _ _ rest) as [[[w'' data'] cr] err'].
    exact IH. }
  pose proof (cropLoop_single img (FilePath d) (Annotations d) 0 [] [] (Forall_nil_2 _))
    as Hsingle.
  destruct (cropLoop img (FilePath d) 0 (Annotations d) [] []) as [images tmpData].
  simpl in Hsingle.
  pose proof (processLoop_done w imageOutDir fileExt longerSide shorterSide downsample
                upsample jpegQuality doResizeImages (zip images tmpData)) as Hdone.
  destruct (processLoop _ _ _ _ w _ _ _ _ _ _ _ _ (zip images tmpData)) as [[w' sent] err].
  specialize (IH w').
  destruct (workLoop _ _ _ _ _ w' _ _ _ _ _ _ _ _ _ rest) as [[[w'' data'] cr] err'].
  apply Forall_app. split; [| exact IH].
  apply Forall_forall. intros d' Hin.
  apply list_elem_of_lookup_1 in Hin as [k Hk].
  destruct (Forall2_lookup_l _ _ _ _ _ Hdone Hk) as ([img0 d0] & Hitem & Hsame & Hname).
  split; [| exact Hname].
  apply lookup_take_Some in Hitem as [Hitem _].
  apply list_elem_of_lookup_2 in Hitem. apply elem_of_zip_r in Hitem.
  rewrite Forall_forall in Hsingle. specialize (Hsingle _ Hitem).
  simpl in Hsame. unfold sameObjects in Hsame. apply Forall2_length in Hsame.
  rewrite Hsame. exact Hsingle.
Qed.


(** X12: without cropping, [ProcessImages] leaves as many files as it was
    given, in their order, each with as many annotations, and every
    annotation keeps its label and its attributes, whichever images could
    not be read, resized or written. *)
Theorem ProcessImages_keeps_objects (w : World) (imageOutDir : string)
    (longerSide shorterSide : Z) (downsamplingFilter upsamplingFilter encoding : string)
    (jpegQuality : Z) (data : AnnotatedFiles F) :
  Forall2 (fun f' f =>
             Forall2 (fun a' a => Label a' = Label a /\ Attributes a' = Attributes a)
                     (Annotations f') (Annotations f))
          (snd (fst (ProcessImages Resize loadImage saveImage Base Join w imageOutDir
                       longerSide shorterSide downsamplingFilter upsamplingFilter encoding
                       jpegQuality false data)))
          data.
Proof.
  pose proof (ProcessImages_no_crop_objects w imageOutDir longerSide shorterSide
                downsamplingFilter upsamplingFilter encoding jpegQuality data) as Hsame.
  destruct (ProcessImages _ _ _ _ _ w _ _ _ _ _ _ _ false data) as [[w' data'] err].
  exact Hsame.
Qed.

(** X13: when [ProcessImages] with cropping knows both filter names and
    the encoding, every file of the data it leaves has exactly one
    annotation and a path made by [filepath.Join] from [imageOutDir]. *)
Theorem ProcessImages_crops (w : World) (imageOutDir : string)
    (longerSide shorterSide : Z) (downsamplingFilter upsamplingFilter encoding : string)
    (jpegQuality : Z) (data : AnnotatedFiles F) :
  is_Some (selectFilter downsamplingFilter) ->
  is_Some (selectFilter upsamplingFilter) ->
  is_Some (selectFileExt encoding) ->
  Forall (fun f => length (Annotations f) = 1%nat /\
                   exists name, FilePath f = Join imageOutDir name)
         (snd (fst (ProcessImages Resize loadImage saveImage Base Join w imageOutDir
                      longerSide shorterSide downsamplingFilter upsamplingFilter encoding
                      jpegQuality true data))).
Proof.
  intros [down Hdown] [up Hup] [ext Hext]. unfold ProcessImages.
  rewrite andb_false_r, Hdown, Hup, Hext.
  pose proof (workLoop_crop w imageOutDir ext longerSide shorterSide down up
                jpegQuality ((longerSide >? 0) || (shorterSide >? 0)) data) as Hloop.
  destruct (workLoop _ _ _ _ _ w _ _ _ _ _ _ _ _ _ data) as [[[w' data'] cr] err].
  exact Hloop.
Qed.

(** X14: asked to resize or to crop with a filter name other than
    nearest, box, linear, gaussian and lanczos, or with an encoding that is
    not jpg, jpeg or png in any letter case, [ProcessImages] returns an
    error that names the filter or the encoding, and it leaves the data and
    the files as they are. *)
Theorem ProcessImages_unsupported (w : World) (imageOutDir : string)
    (longerSide shorterSide : Z) (downsamplingFilter upsamplingFilter encoding : string)
    (jpegQuality : Z) (doCropObjects : bool) (data : AnnotatedFiles F) :
  0 < longerSide \/ 0 < shorterSide \/ doCropObjects = true ->
  downsamplingFilter ∉ ["nearest"; "box"; "linear"; "gaussian"; "lanczos"] \/
  upsamplingFilter ∉ ["nearest"; "box"; "linear"; "gaussian"; "lanczos"] \/
  Go.ToLower encoding ∉ ["jpg"; "jpeg"; "png"] ->
  exists e,
    ProcessImages Resize loadImage saveImage Base Join w imageOutDir longerSide
      shorterSide downsamplingFilter upsamplingFilter encoding jpegQuality doCropObjects
      data = (w, data, Some e) /\
    e ∈ [UnsupportedFilter downsamplingFilter; UnsupportedFilter upsamplingFilter;
         UnsupportedEncoding encoding].
Proof.
  intros Hrequested Hbad. unfold ProcessImages.
  assert (Hgo : negb ((longerSide >? 0) || (shorterSide >? 0)) && negb doCropObjects = false).
  { destruct Hrequested as [Hl | [Hs | ->]].
    - rewrite (proj2 (Z.gtb_gt _ _)) by lia. reflexivity.
    - rewrite (proj2 (Z.gtb_gt shorterSide 0)) by lia. by rewrite orb_true_r.
    - apply andb_false_r. }
  rewrite Hgo.
  assert (Hfilter : forall name,
            name ∉ ["nearest"; "box"; "linear"; "gaussian"; "lanczos"] ->
            selectFilter name = None).
  { intros name Hname. unfold selectFilter.
    repeat match goal with
           | |- context [String.eqb name ?s] =>
               destruct (String.eqb_spec name s) as [-> | _];
               [exfalso; apply Hname; in_list |]
           end.
    reflexivity. }
  assert (Hext : Go.ToLower encoding ∉ ["jpg"; "jpeg"; "png"] ->
                 selectFileExt encoding = None).
  { intros Henc. unfold selectFileExt. cbv zeta.
    repeat match goal with
           | |- context [String.eqb (Go.ToLower encoding) ?s] =>
               destruct (String.eqb_spec (Go.ToLower encoding) s) as [E | _];
               [exfalso; apply Henc; rewrite E; in_list |]
           end.
    reflexivity. }
  destruct (selectFilter downsamplingFilter) as [down |] eqn:Hdown.
  2: { eexists. split; [reflexivity | in_list]. }
  destruct (selectFilter upsamplingFilter) as [up |] eqn:Hup.
  2: { eexists. split; [reflexivity | in_list]. }
  destruct (selectFileExt encoding) as [ext |] eqn:Hext'.
  2: { eexists. split; [reflexivity | in_list]. }
  exfalso. destruct Hbad as [Hb | [Hb | Hb]].
  - apply Hfilter in Hb. congruence.
  - apply Hfilter in Hb. congruence.
  - apply Hext in Hb. congruence.
Qed.

End ProcessImagesProperties.

Lemma ProcessImages_crops_witness :
  Forall (fun f => length (Annotations f) = 1%nat /\
                   exists name, FilePath f = joinPath "out" name)
         (snd (fst (ProcessImages resizeBounds loadAll saveAll id joinPath [] "out"
                      50 0 "box" "linear" "PNG" 90 true [threeAnnotations]))).
Proof.
  apply (ProcessImages_crops resizeBounds (list string) loadAll saveAll id joinPath []
           "out" 50 0 "box" "linear" "PNG" 90 [threeAnnotations]);
    vm_compute; eexists; reflexivity.
Defined.

Lemma ProcessImages_unsupported_witness :
  exists e,
    ProcessImages resizeBounds loadAll saveAll id joinPath [] "out" 50 0
      "box" "cubic" "png" 90 false [threeAnnotations]
    = ([], [threeAnnotations], Some e) /\
    e ∈ [UnsupportedFilter "box"; UnsupportedFilter "cubic"; UnsupportedEncoding "png"].
Proof.
  apply (ProcessImages_unsupported resizeBounds (list string) loadAll saveAll id joinPath []
           "out" 50 0 "box" "cubic" "png" 90 false [threeAnnotations]).
  - left. lia.
  - right. left. intros Hin. repeat (apply elem_of_cons in Hin as [Hin | Hin];
      [discriminate |]). by apply elem_of_nil in Hin.
Defined.

(** *** When Filter panics *)

Section FilterPanics.
Context {F : Type} `{Float64 F}.
Variables (labelNames attributes requiredAttrs : list string).
Variables (minConfidence : F) (requireLabel : bool).
Variables (minBboxWidth minBboxHeight minAspectRatio maxAspectRatio : F).

Local Abbreviation panics :=
  (fun a : Annotation F =>
     filterAnnotation labelNames attributes requiredAttrs minConfidence
       minBboxWidth minBboxHeight minAspectRatio maxAspectRatio a = Panicked).
Local Abbreviation filePanics :=
  (fun d : AnnotatedFile F =>
     filterAnnotations labelNames attributes requiredAttrs minConfidence
       minBboxWidth minBboxHeight minAspectRatio maxAspectRatio (Annotations d) = Panicked).

(** The annotation loop panics exactly when an annotation it has not yet
    passed makes its iteration panic. *)
Lemma annotationLoop_Panicked (fuel i : nat) (annotations : list (Annotation F)) :
  (length annotations - i <= fuel)%nat ->
  annotationLoop labelNames attributes requiredAttrs minConfidence
    minBboxWidth minBboxHeight minAspectRatio maxAspectRatio fuel i annotations = Panicked <->
  Exists panics (drop i annotations).
Proof.
  revert i annotations. induction fuel as [| fuel' IH]; intros i annotations Hfuel.
  - simpl. rewrite drop_ge by lia. split; [discriminate | by intros ?%Exists_nil].
  - simpl. destruct (annotations !! i) as [a |] eqn:Ha.
    + pose proof (lookup_lt_Some _ _ _ Ha) as Hi.
      rewrite (drop_S _ _ _ Ha), Exists_cons.
      destruct (filterAnnotation _ _ _ _ _ _ _ _ a) as [[a' |] |] eqn:Hkeep; simpl.
      * rewrite IH by (rewrite length_insert; lia).
        rewrite drop_insert_lt by lia.
        split; [by right | intros [? | ?]; [discriminate | done]].
      * rewrite IH by (rewrite deleteAnnotation_length by exact Hi; lia).
        rewrite (deleteAnnotation_drop annotations i Hi).
        split; [by right | intros [? | ?]; [discriminate | done]].
      * split; [by left | reflexivity].
    + apply lookup_ge_None in Ha. rewrite drop_ge by lia.
      split; [discriminate | by intros ?%Exists_nil].
Qed.

Lemma filterAnnotations_Panicked (annotations : list (Annotation F)) :
  filterAnnotations labelNames attributes requiredAttrs minConfidence
    minBboxWidth minBboxHeight minAspectRatio maxAspectRatio annotations = Panicked <->
  Exists panics annotations.
Proof.
  unfold filterAnnotations. rewrite annotationLoop_Panicked by lia. by rewrite drop_0.
Qed.

Lemma fileLoop_Panicked (fuel dataIdx : nat) (data : AnnotatedFiles F) (before after : nat) :
  (length data - dataIdx <= fuel)%nat ->
  fileLoop labelNames attributes requiredAttrs minConfidence requireLabel
    minBboxWidth minBboxHeight minAspectRatio maxAspectRatio
    fuel dataIdx data before after = Panicked <->
  Exists filePanics (drop dataIdx data).
Proof.
  revert dataIdx data before after.
  induction fuel as [| fuel' IH]; intros dataIdx data before after Hfuel.
  - simpl. rewrite drop_ge by lia. split; [discriminate | by intros ?%Exists_nil].
  - simpl. destruct (data !! dataIdx) as [d |] eqn:Hd.
    + pose proof (lookup_lt_Some _ _ _ Hd) as Hi.
      rewrite (drop_S _ _ _ Hd), Exists_cons.
      destruct (filterAnnotations _ _ _ _ _ _ _ _ (Annotations d)) as [annotations |]
        eqn:Hfilter; simpl.
      * destruct (requireLabel && (length annotations =? 0)%nat).
        -- rewrite IH
             by (rewrite deleteAnnotation_length by (rewrite length_insert; exact Hi);
                 rewrite length_insert; lia).
           rewrite deleteAnnotation_drop by (rewrite length_insert; exact Hi).
           rewrite drop_insert_lt by lia.
           split; [by right | intros [? | ?]; [discriminate | done]].
        -- rewrite IH by (rewrite length_insert; lia).
           rewrite drop_insert_lt by lia.
           split; [by right | intros [? | ?]; [discriminate | done]].
      * split; [by left | reflexivity].
    + apply lookup_ge_None in Hd. rewrite drop_ge by lia.
      split; [discriminate | by intros ?%Exists_nil].
Qed.

Lemma Filter_Panicked_files (data : AnnotatedFiles F) :
  Filter labelNames attributes requiredAttrs minConfidence requireLabel
    minBboxWidth minBboxHeight minAspectRatio maxAspectRatio data = Panicked <->
  Exists (fun d => Exists panics (Annotations d)) data.
Proof.
  unfold Filter.
  pose proof (fileLoop_Panicked (length data) 0 data 0 0 ltac:(lia)) as Hloop.
  rewrite drop_0 in Hloop.
  assert (Hfiles : Exists filePanics data <->
                   Exists (fun d => Exists panics (Annotations d)) data).
  { rewrite !Exists_exists. split; intros (d & Hd & Hp); exists d; (split; [exact Hd |]);
      by apply filterAnnotations_Panicked. }
  rewrite <- Hfiles, <- Hloop.
  destruct (fileLoop _ _ _ _ _ _ _ _ _ _ _ data 0 0) as [[[data' before] after] |]; simpl;
    split; (reflexivity || discriminate).
Qed.

(** X16: [Filter] panics exactly when some annotation of some file passes
    the confidence, size, aspect ratio and label filters and the scan of
    its required attributes panics; the loops reach every annotation,
    whatever they delete on the way. *)
Theorem Filter_Panicked (data : AnnotatedFiles F) :
  Filter labelNames attributes requiredAttrs minConfidence requireLabel
    minBboxWidth minBboxHeight minAspectRatio maxAspectRatio data = Panicked <->
  exists d a,
    d ∈ data /\ a ∈ Annotations d /\
    failsConfidence minConfidence a = false /\
    failsBboxSize minBboxWidth minBboxHeight a = false /\
    failsAspectRatio minAspectRatio maxAspectRatio a = false /\
    failsLabels labelNames a = false /\
    failsRequired (Attributes a) requiredAttrs = Panicked.
Proof.
  rewrite Filter_Panicked_files, Exists_exists. split.
  - intros (d & Hd & Hex). apply Exists_exists in Hex as (a & Ha & Hpanic).
    exists d, a. split; [exact Hd |]. split; [exact Ha |].
    unfold filterAnnotation in Hpanic.
    destruct (failsConfidence _ a); [discriminate |].
    destruct (failsBboxSize _ _ a); [discriminate |].
    destruct (failsAspectRatio _ _ a); [discriminate |].
    destruct (failsLabels _ a); [discriminate |].
    repeat (split; [reflexivity |]).
    destruct (failsRequired _ _) as [[|] |]; [discriminate | discriminate | reflexivity].
  - intros (d & a & Hd & Ha & Hc & Hb & Hr & Hl & Hpanic).
    exists d. split; [exact Hd |]. apply Exists_exists. exists a. split; [exact Ha |].
    unfold filterAnnotation. by rewrite Hc, Hb, Hr, Hl, Hpanic.
Qed.

(** No iteration panics when none of the required attributes of the
    annotation is a list. *)
Lemma failsRequired_Done (attrs : gmap string (AttrValue F)) (keys : list string) :
  (forall k l, k ∈ keys -> attrs !! k <> Some (AStrings l)) ->
  exists fails, failsRequired attrs keys = Done fails.
Proof.
  induction keys as [| k rest IH]; intros Hnolist; simpl; [by eexists |].
  destruct (attrs !! k) as [v |] eqn:Hk; [| by eexists].
  rewrite interfaceEq_default.
  2: { intros l ->. apply (Hnolist k l); [apply elem_of_cons; by left | exact Hk]. }
  simpl. destruct (isDefault v); [by eexists |].
  apply IH. intros k' l Hin. apply Hnolist. apply elem_of_cons. by right.
Qed.

Lemma filterAnnotation_no_list (a : Annotation F) :
  (forall k l, k ∈ requiredAttrs -> Attributes a !! k <> Some (AStrings l)) ->
  filterAnnotation labelNames attributes requiredAttrs minConfidence
    minBboxWidth minBboxHeight minAspectRatio maxAspectRatio a <> Panicked.
Proof.
  intros Hnolist Hpanic.
  destruct (failsRequired_Done (Attributes a) requiredAttrs Hnolist) as [fails Hfails].
  unfold filterAnnotation in Hpanic. rewrite Hfails in Hpanic.
  destruct (failsConfidence _ a); [discriminate |].
  destruct (failsBboxSize _ _ a); [discriminate |].
  destruct (failsAspectRatio _ _ a); [discriminate |].
  destruct (failsLabels _ a); [discriminate |].
  simpl in Hpanic. by destruct fails.
Qed.

(** X17: [Filter] returns, without a panic, on data in which no annotation
    has a list of strings as the value of a required attribute. *)
Theorem Filter_returns (data : AnnotatedFiles F) :
  Forall (fun d =>
            Forall (fun a => forall k l,
                      k ∈ requiredAttrs -> Attributes a !! k <> Some (AStrings l))
                   (Annotations d)) data ->
  exists out log,
    Filter labelNames attributes requiredAttrs minConfidence requireLabel
      minBboxWidth minBboxHeight minAspectRatio maxAspectRatio data = Done (out, log).
Proof.
  intros Hnolist.
  destruct (Filter _ _ _ _ _ _ _ _ _ data) as [[out log] |] eqn:Hfilter; [by eexists _, _ |].
  exfalso. apply Filter_Panicked_files in Hfilter.
  apply Exists_exists in Hfilter as (d & Hd & Hex).
  apply Exists_exists in Hex as (a & Ha & Hpanic).
  rewrite Forall_forall in Hnolist. specialize (Hnolist d Hd).
  rewrite Forall_forall in Hnolist. specialize (Hnolist a Ha).
  by apply (filterAnnotation_no_list a Hnolist).
Qed.

End FilterPanics.

Lemma Filter_returns_witness :
  exists out log,
    Filter [] [] [DetectedText] (b64 1 2) true (b64_int 0) (b64_int 0) (b64_int 0)
      (b64_int 0) filterInput = Done (out, log).
Proof.
  apply (Filter_returns [] [] [DetectedText] (b64 1 2) true (b64_int 0) (b64_int 0)
           (b64_int 0) (b64_int 0) filterInput).
  repeat first [apply Forall_nil_2 | apply Forall_cons_2];
    intros k l Hin; apply list_elem_of_singleton in Hin as ->; vm_compute; discriminate.
Defined.

(** *** Strings *)

Lemma append_cons (c : ascii) (s t : string) : String c s +:+ t = String c (s +:+ t).
Proof. reflexivity. Qed.

Lemma append_nil_l (s : string) : "" +:+ s = s.
Proof. reflexivity. Qed.

Lemma append_nil_r (s : string) : s +:+ "" = s.
Proof. induction s as [| c s IH]; [reflexivity |]. by rewrite append_cons, IH. Qed.

Lemma append_assoc (s t u : string) : (s +:+ t) +:+ u = s +:+ (t +:+ u).
Proof. induction s as [| c s IH]; [reflexivity |]. by rewrite !append_cons, IH. Qed.

Lemma append_length (s t : string) :
  String.length (s +:+ t) = (String.length s + String.length t)%nat.
Proof. induction s as [| c s IH]; [reflexivity |]. rewrite append_cons. simpl. by rewrite IH. Qed.

Lemma substring_app_l (s t : string) : String.substring 0 (String.length s) (s +:+ t) = s.
Proof.
  induction s as [| c s IH].
  - simpl. destruct t; reflexivity.
  - rewrite append_cons. simpl. by rewrite IH.
Qed.

Lemma substring_app_r (s t : string) :
  String.substring (String.length s) (String.length t) (s +:+ t) = t.
Proof.
  induction s as [| c s IH].
  - simpl. apply substring_all.
  - rewrite append_cons. simpl. exact IH.
Qed.

Lemma countByte_app (c : ascii) (s t : string) :
  Go.countByte c (s +:+ t) = (Go.countByte c s + Go.countByte c t)%nat.
Proof.
  induction s as [| a s IH]; [reflexivity |].
  rewrite append_cons. simpl. rewrite IH. lia.
Qed.

(** A byte that does not occur in a string is at none of its positions. *)
Lemma countByte_get (c : ascii) (s : string) (i : nat) (a : ascii) :
  Go.countByte c s = 0%nat -> String.get i s = Some a -> Ascii.eqb a c = false.
Proof.
  revert i. induction s as [| b s IH]; intros i Hcount Hget; [discriminate |].
  simpl in Hcount. destruct (Ascii.eqb b c) eqn:E; [discriminate |].
  destruct i as [| i]; simpl in Hget.
  - by injection Hget as <-.
  - apply (IH i); [exact Hcount | exact Hget].
Qed.

Lemma get_app_r (s t : string) (i : nat) :
  String.get (String.length s + i) (s +:+ t) = String.get i t.
Proof. rewrite Nat.add_comm. symmetry. apply append_correct2. Qed.

Lemma get_length (s : string) (c : ascii) (t : string) :
  String.get (String.length s) (s +:+ String c t) = Some c.
Proof.
  pose proof (get_app_r s (String c t) 0) as Hget.
  rewrite Nat.add_0_r in Hget. by rewrite Hget.
Qed.

(** Every string is free of a byte, or it has a last occurrence of it. *)
Lemma last_occurrence (c : ascii) (s : string) :
  Go.countByte c s = 0%nat \/
  exists d f, s = d +:+ String c f /\ Go.countByte c f = 0%nat.
Proof.
  induction s as [| a s IH]; [by left |].
  destruct IH as [Hfree | (d & f & -> & Hf)].
  - destruct (Ascii.eqb a c) eqn:E.
    + right. exists "", s. apply Ascii.eqb_eq in E as ->. by split.
    + left. simpl. by rewrite E.
  - right. exists (String a d), f. by split.
Qed.

(** *** filepath.Split and filepath.Ext *)

Lemma lastSeparator_skip (d f : string) (k : nat) :
  Go.countByte "/" f = 0%nat -> (k <= String.length f)%nat ->
  lastSeparator (String.length d + k) (d +:+ f) = lastSeparator (String.length d) (d +:+ f).
Proof.
  intros Hfree. induction k as [| k IH]; intros Hk; [by rewrite Nat.add_0_r |].
  rewrite Nat.add_succ_r. simpl. rewrite get_app_r.
  destruct (String.get k f) as [a |] eqn:Hget; [| apply IH; lia].
  rewrite (countByte_get "/" f k a Hfree Hget). apply IH. lia.
Qed.

Lemma filepathSplit_file (f : string) :
  Go.countByte "/" f = 0%nat -> filepathSplit f = ("", f).
Proof.
  intros Hfree. unfold filepathSplit.
  pose proof (lastSeparator_skip "" f (String.length f) Hfree ltac:(lia)) as Hskip.
  change ("" +:+ f) with f in Hskip. simpl in Hskip. rewrite Hskip. simpl.
  rewrite Nat.sub_0_r, substring_all. by rewrite substring_empty.
Qed.

Lemma length_snoc (d : string) (c : ascii) :
  String.length (d +:+ String c "") = S (String.length d).
Proof. rewrite append_length. simpl. lia. Qed.

Lemma lastSeparator_at (d t : string) :
  lastSeparator (S (String.length d)) (d +:+ String "/" t) = S (String.length d).
Proof. cbn [lastSeparator]. by rewrite get_length. Qed.

Lemma filepathSplit_dir (d f : string) :
  Go.countByte "/" f = 0%nat -> filepathSplit (d +:+ "/" +:+ f) = (d +:+ "/", f).
Proof.
  intros Hfree. unfold filepathSplit.
  rewrite <- append_assoc.
  assert (Hlen : String.length ((d +:+ "/") +:+ f)
                 = (String.length (d +:+ "/") + String.length f)%nat)
    by apply append_length.
  rewrite Hlen.
  rewrite (lastSeparator_skip (d +:+ "/") f (String.length f) Hfree) by lia.
  assert (Hlast : lastSeparator (String.length (d +:+ "/")) ((d +:+ "/") +:+ f)
                  = String.length (d +:+ "/")).
  { rewrite length_snoc, append_assoc. apply lastSeparator_at. }
  rewrite Hlast.
  replace (String.length (d +:+ "/") + String.length f - String.length (d +:+ "/"))%nat
    with (String.length f) by lia.
  by rewrite substring_app_l, substring_app_r.
Qed.

Lemma get_lt (s : string) (i : nat) :
  (i < String.length s)%nat -> exists a, String.get i s = Some a.
Proof.
  revert i. induction s as [| c s IH]; intros i Hi; simpl in Hi; [lia |].
  destruct i as [| i]; simpl; [by eexists |]. apply IH. lia.
Qed.

Lemma extLoop_skip (b e : string) (k : nat) :
  Go.countByte "/" e = 0%nat -> Go.countByte "." e = 0%nat -> (k <= String.length e)%nat ->
  Go.extLoop (String.length b + k) (b +:+ e) = Go.extLoop (String.length b) (b +:+ e).
Proof.
  intros Hslash Hdot. induction k as [| k IH]; intros Hk; [by rewrite Nat.add_0_r |].
  rewrite Nat.add_succ_r. simpl. rewrite get_app_r.
  destruct (get_lt e k ltac:(lia)) as [a Hget]. rewrite Hget.
  rewrite (countByte_get "/" e k a Hslash Hget), (countByte_get "." e k a Hdot Hget).
  apply IH. lia.
Qed.

(** The extension of a name without dot and separator is empty. *)
Lemma Ext_none (f : string) :
  Go.countByte "/" f = 0%nat -> Go.countByte "." f = 0%nat -> Go.Ext f = "".
Proof.
  intros Hslash Hdot. unfold Go.Ext.
  pose proof (extLoop_skip "" f (String.length f) Hslash Hdot ltac:(lia)) as Hskip.
  change ("" +:+ f) with f in Hskip. simpl in Hskip. exact Hskip.
Qed.

(** The extension starts at the last dot, when no separator follows it. *)
Lemma extLoop_at (b t : string) :
  Go.extLoop (S (String.length b)) (b +:+ String "." t) = String "." t.
Proof.
  cbn [Go.extLoop]. rewrite get_length. simpl Ascii.eqb. cbv iota.
  rewrite append_length.
  replace (String.length b + String.length (String "." t) - String.length b)%nat
    with (String.length (String "." t)) by lia.
  apply substring_app_r.
Qed.

Lemma Ext_dot (b e : string) :
  Go.countByte "/" e = 0%nat -> Go.countByte "." e = 0%nat ->
  Go.Ext (b +:+ "." +:+ e) = "." +:+ e.
Proof.
  intros Hslash Hdot. unfold Go.Ext.
  rewrite <- append_assoc.
  assert (Hlen : String.length ((b +:+ ".") +:+ e)
                 = (String.length (b +:+ ".") + String.length e)%nat)
    by apply append_length.
  rewrite Hlen.
  rewrite (extLoop_skip (b +:+ ".") e (String.length e) Hslash Hdot) by lia.
  rewrite length_snoc, append_assoc. apply extLoop_at.
Qed.

(** *** splitPath *)

Lemma TrimSuffix_separator (d : string) : TrimSuffix (d +:+ "/") "/" = d.
Proof.
  unfold TrimSuffix, HasSuffix. rewrite append_length. simpl String.length.
  replace (1 <=? String.length d + 1)%nat with true by (symmetry; apply Nat.leb_le; lia).
  replace (String.length d + 1 - 1)%nat with (String.length d) by lia.
  pose proof (substring_app_r d "/") as Hr. simpl String.length in Hr. rewrite Hr.
  simpl. apply substring_app_l.
Qed.

Lemma TrimSuffix_empty : TrimSuffix "" "/" = "".
Proof. reflexivity. Qed.

(** What [splitPath] makes of a file name with an extension, and of one
    without, behind a directory part that [filepath.Split] has cut off. *)
Lemma splitPath_name (path dirPart b e : string) :
  filepathSplit path = (dirPart, b +:+ "." +:+ e) ->
  Go.countByte "/" e = 0%nat -> Go.countByte "." e = 0%nat ->
  splitPath path = Some (TrimSuffix dirPart "/", b, e).
Proof.
  intros Hsplit Hslash Hdot. unfold splitPath. rewrite Hsplit.
  rewrite (Ext_dot b e Hslash Hdot). simpl String.eqb. cbv iota.
  f_equal. f_equal; [f_equal |].
  - rewrite append_length.
    replace (String.length b + String.length ("." +:+ e) - String.length ("." +:+ e))%nat
      with (String.length b) by lia.
    apply substring_app_l.
  - simpl. rewrite Nat.sub_0_r. apply substring_all.
Qed.

Lemma splitPath_no_extension (path dirPart f : string) :
  filepathSplit path = (dirPart, f) ->
  Go.countByte "/" f = 0%nat -> Go.countByte "." f = 0%nat ->
  splitPath path = None.
Proof.
  intros Hsplit Hslash Hdot. unfold splitPath. rewrite Hsplit.
  by rewrite (Ext_none f Hslash Hdot).
Qed.

Lemma countByte_name (b e : string) :
  Go.countByte "/" b = 0%nat -> Go.countByte "/" e = 0%nat ->
  Go.countByte "/" (b +:+ "." +:+ e) = 0%nat.
Proof.
  intros Hb He. rewrite countByte_app. change ("." +:+ e) with (String "." e).
  simpl. lia.
Qed.

(** X18: a path [d/b.e], whose base name [b] has no separator and whose
    extension [e] has neither separator nor dot, is split into [d], [b]
    and [e]; without a directory the same name is split into the empty
    directory, [b] and [e]. *)
Theorem splitPath_joined (d b e : string) :
  Go.countByte "/" b = 0%nat -> Go.countByte "/" e = 0%nat -> Go.countByte "." e = 0%nat ->
  splitPath (d +:+ "/" +:+ b +:+ "." +:+ e) = Some (d, b, e) /\
  splitPath (b +:+ "." +:+ e) = Some ("", b, e).
Proof.
  intros Hb Hslash Hdot. pose proof (countByte_name b e Hb Hslash) as Hname. split.
  - rewrite (splitPath_name _ (d +:+ "/") b e (filepathSplit_dir d _ Hname) Hslash Hdot).
    by rewrite TrimSuffix_separator.
  - by rewrite (splitPath_name _ "" b e (filepathSplit_file _ Hname) Hslash Hdot).
Qed.

Lemma splitPath_joined_witness :
  splitPath ("data/img.v1" +:+ "/" +:+ "cat.small" +:+ "." +:+ "jpg")
  = Some ("data/img.v1", "cat.small", "jpg") /\
  splitPath ("cat.small" +:+ "." +:+ "jpg") = Some ("", "cat.small", "jpg").
Proof. apply (splitPath_joined "data/img.v1" "cat.small" "jpg"); reflexivity. Defined.

(** X19: [splitPath] returns its error for every path whose last element
    has no dot, also when a directory before it has one. *)
Theorem splitPath_missing_extension (d f : string) :
  Go.countByte "/" f = 0%nat -> Go.countByte "." f = 0%nat ->
  splitPath (d +:+ "/" +:+ f) = None /\ splitPath f = None.
Proof.
  intros Hslash Hdot. split.
  - exact (splitPath_no_extension _ _ f (filepathSplit_dir d f Hslash) Hslash Hdot).
  - exact (splitPath_no_extension _ _ f (filepathSplit_file f Hslash) Hslash Hdot).
Qed.

Lemma splitPath_missing_extension_witness :
  splitPath ("data/img.v1" +:+ "/" +:+ "README") = None /\ splitPath "README" = None.
Proof. apply (splitPath_missing_extension "data/img.v1" "README"); reflexivity. Defined.

(** X20: what [splitPath] returns puts the path together again: the path
    is directory, separator, base name, dot and extension, or, when the
    directory is empty, possibly only base name, dot and extension; the
    base name holds no separator and the extension neither separator nor
    dot. *)
Theorem splitPath_inverse (path dir baseNoExt ext : string) :
  splitPath path = Some (dir, baseNoExt, ext) ->
  (path = dir +:+ "/" +:+ baseNoExt +:+ "." +:+ ext \/
   dir = "" /\ path = baseNoExt +:+ "." +:+ ext) /\
  Go.countByte "/" baseNoExt = 0%nat /\
  Go.countByte "/" ext = 0%nat /\ Go.countByte "." ext = 0%nat.
Proof.
  intros Hsplit.
  assert (Hname : forall dirPart f,
            filepathSplit path = (dirPart, f) -> Go.countByte "/" f = 0%nat ->
            f = baseNoExt +:+ "." +:+ ext /\ dir = TrimSuffix dirPart "/" /\
            Go.countByte "/" baseNoExt = 0%nat /\
            Go.countByte "/" ext = 0%nat /\ Go.countByte "." ext = 0%nat).
  { intros dirPart f Hparts Hslash.
    destruct (last_occurrence "." f) as [Hdot | (b & e & -> & Hdot)].
    - rewrite (splitPath_no_extension _ _ f Hparts Hslash Hdot) in Hsplit. discriminate.
    - rewrite countByte_app in Hslash. simpl in Hslash.
      assert (He : Go.countByte "/" e = 0%nat) by lia.
      rewrite (splitPath_name _ dirPart b e Hparts He Hdot) in Hsplit.
      injection Hsplit as <- <- <-. repeat split; try done. lia. }
  destruct (last_occurrence "/" path) as [Hfree | (d & f & -> & Hf)].
  - destruct (Hname "" path (filepathSplit_file path Hfree) Hfree)
      as (-> & -> & Hb & He & Hd).
    split; [right; by split | done].
  - destruct (Hname (d +:+ "/") f (filepathSplit_dir d f Hf) Hf)
      as (-> & -> & Hb & He & Hd).
    rewrite TrimSuffix_separator. split; [by left | done].
Qed.

Lemma splitPath_inverse_witness :
  ("/tmp/a.b/c.d.png" = "/tmp/a.b" +:+ "/" +:+ "c.d" +:+ "." +:+ "png" \/
   "/tmp/a.b" = "" /\ "/tmp/a.b/c.d.png" = "c.d" +:+ "." +:+ "png") /\
  Go.countByte "/" "c.d" = 0%nat /\
  Go.countByte "/" "png" = 0%nat /\ Go.countByte "." "png" = 0%nat.
Proof. apply (splitPath_inverse "/tmp/a.b/c.d.png" "/tmp/a.b" "c.d" "png"). reflexivity. Defined.

(** *** mapFileNamesToExtensions *)

Lemma mapFileNames_fold (filePaths : list string) (mapping : gmap string string)
    (baseNoExt : string) :
  fold_left (fun mapping path =>
               match splitPath path with
               | None => mapping
               | Some (_, b, ext) => <[b := ext]> mapping
               end) filePaths mapping !! baseNoExt
  = match last (omap (fun path =>
                        match splitPath path with
                        | Some (_, b, ext) =>
                            if decide (b = baseNoExt) then Some ext else None
                        | None => None
                        end) filePaths) with
    | Some ext => Some ext
    | None => mapping !! baseNoExt
    end.
Proof.
  revert mapping. induction filePaths as [| path rest IH]; intros mapping; [reflexivity |].
  simpl fold_left. rewrite IH. csimpl.
  destruct (splitPath path) as [[[dir b] ext] |]; [| reflexivity].
  destruct (decide (b = baseNoExt)) as [-> | Hne].
  - rewrite lookup_insert_eq. simpl.
    match goal with |- context [omap ?f rest] => generalize (omap f rest) end.
    intros [| x l]; [reflexivity |].
    change (last (ext :: x :: l)) with (last (x :: l)).
    destruct (last (x :: l)) eqn:Hlast; [reflexivity |]. by apply last_None in Hlast.
  - rewrite lookup_insert_ne by exact Hne. reflexivity.
Qed.

(** X21: [mapFileNamesToExtensions] maps a base name to the extension of
    the last path of the list that has this base name and an extension,
    and to nothing if there is no such path. *)
Theorem mapFileNamesToExtensions_lookup (filePaths : list string) (baseNoExt : string) :
  mapFileNamesToExtensions filePaths !! baseNoExt
  = last (omap (fun path =>
                  match splitPath path with
                  | Some (_, b, ext) => if decide (b = baseNoExt) then Some ext else None
                  | None => None
                  end) filePaths).
Proof.
  unfold mapFileNamesToExtensions. rewrite mapFileNames_fold.
  rewrite lookup_empty. by destruct (last _).
Qed.

(** *** parseLabelsWithOneToOneImages *)

Lemma last_omap_Some {A B : Type} (f : A -> option B) (l : list A) (y : B) :
  last (omap f l) = Some y -> exists x, x ∈ l /\ f x = Some y.
Proof.
  intros Hlast.
  assert (Hin : y ∈ omap f l).
  { apply last_Some in Hlast as [l' ->]. apply elem_of_app. right. by apply list_elem_of_singleton. }
  by apply list_elem_of_omap in Hin.
Qed.

Section LabelFilesProperties.
Context {F : Type}.
Variable filesByExtInDir : string -> string -> option (list string).
Variable Join : string -> string -> string.
Variable parse : string -> string -> option (AnnotatedFile F).

(** X22: every file that [parseLabelsWithOneToOneImages] returns is what
    the parser made of a label file of the label directory and of the path
    that [filepath.Join] makes of the image directory and a name [b.e],
    where [b] is the base name of the label file and some file of the image
    directory has the base name [b] and the extension [e]. *)
Theorem parseLabelsWithOneToOneImages_sound (labelDir labelFileExt imageDir : string)
    (data : AnnotatedFiles F) :
  parseLabelsWithOneToOneImages filesByExtInDir Join parse labelDir labelFileExt imageDir
    = Some data ->
  exists labelFiles imageFiles,
    filesByExtInDir labelDir labelFileExt = Some labelFiles /\
    filesByExtInDir imageDir "" = Some imageFiles /\
    Forall (fun fileData =>
              exists labelPath imageFile dir dir' b e e',
                labelPath ∈ labelFiles /\ imageFile ∈ imageFiles /\
                splitPath labelPath = Some (dir, b, e') /\
                splitPath imageFile = Some (dir', b, e) /\
                parse labelPath (Join imageDir (b +:+ "." +:+ e)) = Some fileData)
           data.
Proof.
  unfold parseLabelsWithOneToOneImages.
  destruct (filesByExtInDir labelDir labelFileExt) as [labelFiles |]; [| discriminate].
  destruct (filesByExtInDir imageDir "") as [imageFiles |]; [| discriminate].
  intros Hdata. injection Hdata as <-. exists labelFiles, imageFiles.
  split; [reflexivity |]. split; [reflexivity |].
  induction labelFiles as [| labelPath rest IH]; simpl; [constructor |].
  assert (Hrest : Forall (fun fileData =>
              exists labelPath0 imageFile dir dir' b e e',
                labelPath0 ∈ labelPath :: rest /\ imageFile ∈ imageFiles /\
                splitPath labelPath0 = Some (dir, b, e') /\
                splitPath imageFile = Some (dir', b, e) /\
                parse labelPath0 (Join imageDir (b +:+ "." +:+ e)) = Some fileData)
           (pairLoop Join parse (mapFileNamesToExtensions imageFiles) imageDir rest)).
  { apply (Forall_impl _ _ _ IH).
    intros fd (l0 & im & dir & dir' & b & e & e' & Hl & Him & Hs & Hs' & Hp).
    exists l0, im, dir, dir', b, e, e'. split; [apply elem_of_cons; by right | done]. }
  destruct (splitPath labelPath) as [[[dir b] e'] |] eqn:Hlabel; [| exact Hrest].
  destruct (mapFileNamesToExtensions imageFiles !! b) as [e |] eqn:Himage; [| exact Hrest].
  destruct (parse labelPath _) as [fileData |] eqn:Hparse; [| exact Hrest].
  constructor; [| exact Hrest].
  unfold mapFileNamesToExtensions in Himage.
  rewrite mapFileNames_fold, lookup_empty in Himage.
  destruct (last _) as [e0 |] eqn:Hlast; [| discriminate]. injection Himage as ->.
  apply last_omap_Some in Hlast as (imageFile & Hin & Hext).
  destruct (splitPath imageFile) as [[[dir' b'] e1] |] eqn:Himg; [| discriminate].
  destruct (decide (b' = b)) as [-> | ?]; [| discriminate]. injection Hext as ->.
  exists labelPath, imageFile, dir, dir', b, e, e'.
  split; [apply elem_of_cons; by left |]. done.
Qed.

End LabelFilesProperties.

(** *** loadTFRecordLabelMap *)

Lemma loadLoop_spec (items : list (string * Z)) (labelMap : gmap string Z) (maxID : Z) :
  match loadLoop items labelMap maxID with
  | Loaded labelMap' maxID' =>
      Forall (fun item => fst item <> "" /\ 0 < snd item) items /\
      maxID <= maxID' /\
      Forall (fun item => snd item <= maxID') items /\
      (maxID' = maxID \/ maxID' ∈ map snd items) /\
      (forall k, labelMap' !! k
                 = match last (filter (fun item => fst item = k) items) with
                   | Some item => Some (snd item)
                   | None => labelMap !! k
                   end)
  | NotExist => False
  | LoadError => Exists (fun item => fst item = "" \/ snd item <= 0) items
  end.
Proof.
  revert labelMap maxID. induction items as [| [k v] rest IH]; intros labelMap maxID; simpl.
  - split; [constructor |]. split; [lia |]. split; [constructor |].
    split; [by left |]. reflexivity.
  - destruct (String.eqb_spec k "") as [-> | Hk]; simpl.
    { apply Exists_cons. left. by left. }
    destruct (v <=? 0) eqn:Hv.
    { apply Z.leb_le in Hv. apply Exists_cons. left. by right. }
    apply Z.leb_gt in Hv.
    specialize (IH (<[k := v]> labelMap) (if maxID >? v then maxID else v)).
    destruct (loadLoop rest _ _) as [labelMap' maxID' | |]; [| done |].
    + destruct IH as (Hvalid & Hmax & Hle & Hin & Hlookup).
      assert (Hm : maxID <= maxID' /\ v <= maxID').
      { destruct (Z.gtb_spec maxID v); lia. }
      split; [constructor; [by split | exact Hvalid] |].
      split; [lia |]. split; [constructor; [simpl; lia | exact Hle] |].
      split.
      * destruct Hin as [-> | Hin].
        -- destruct (Z.gtb_spec maxID v); [by left |]. right. apply elem_of_cons. by left.
        -- right. apply elem_of_cons. by right.
      * intros k'. rewrite Hlookup. rewrite filter_cons. simpl.
        destruct (decide (k = k')) as [-> | Hne].
        -- rewrite lookup_insert_eq.
           destruct (filter _ rest) as [| x l] eqn:Hf; [reflexivity |].
           change (last ((k', v) :: x :: l)) with (last (x :: l)).
           destruct (last (x :: l)) eqn:Hlast; [reflexivity |]. by apply last_None in Hlast.
        -- by rewrite lookup_insert_ne.
    + apply Exists_cons. by right.
Qed.

(** X23: [loadTFRecordLabelMap] rejects the items of a label map exactly
    when one of them has an empty name or an id that is not positive;
    otherwise the map it returns gives every name the id of the last item
    with that name, and the number it returns is the largest id (0 without
    items). *)
Theorem loadTFRecordLabelMap_spec (items : list (string * Z)) :
  (loadTFRecordLabelMap (Items items) = LoadError <->
   Exists (fun item => fst item = "" \/ snd item <= 0) items) /\
  (forall labelMap maxID,
     loadTFRecordLabelMap (Items items) = Loaded labelMap maxID ->
     (forall k, labelMap !! k
                = snd <$> last (filter (fun item => fst item = k) items)) /\
     Forall (fun item => snd item <= maxID) items /\
     (items = [] /\ maxID = 0 \/ maxID ∈ map snd items)).
Proof.
  simpl. pose proof (loadLoop_spec items ∅ 0) as Hspec.
  destruct (loadLoop items ∅ 0) as [labelMap' maxID' | |]; [| done |].
  - destruct Hspec as (Hvalid & Hmax & Hle & Hin & Hlookup). split.
    + split; [discriminate |]. intros Hex. exfalso.
      apply Exists_exists in Hex as (item & Hitem & Hbad).
      rewrite Forall_forall in Hvalid. destruct (Hvalid item Hitem) as [Hname Hid].
      destruct Hbad as [Hbad | Hbad]; [by apply Hname | lia].
    + intros labelMap maxID Hloaded. injection Hloaded as <- <-.
      split; [| split; [exact Hle |]].
      * intros k. rewrite Hlookup, lookup_empty. by destruct (last _).
      * destruct Hin as [-> | Hin]; [| by right].
        destruct items as [| [k v] rest]; [left; by split |].
        right. exfalso. apply Forall_cons in Hvalid as [[_ Hv] _].
        apply Forall_cons in Hle as [Hle _]. simpl in *. lia.
  - split; [done |]. intros labelMap maxID Hloaded. discriminate.
Qed.

Lemma wrap32_small (z : Z) : - 2 ^ 31 <= z < 2 ^ 31 -> wrap32 z = z.
Proof. intros Hz. unfold wrap32. rewrite Z.mod_small; lia. Qed.

(** X24: when [WriteCustomTFRecord] starts with a nil label map and does
    not return the error of the label map file, and every id in the file
    is below the largest [int32], the ids of the label map are positive and
    below the next id, which is positive. *)
Theorem initLabelIDs_idsBelowNext (file : LabelMapFile) (ids : LabelIDs) :
  initLabelIDs None file = Some ids ->
  (forall items, file = Items items -> Forall (fun item => snd item < 2 ^ 31 - 1) items) ->
  idsBelowNext ids.
Proof.
  intros Hinit Hsmall. unfold initLabelIDs in Hinit.
  destruct file as [| | items]; simpl in Hinit; [| discriminate |].
  - injection Hinit as <-. split; simpl; [lia | apply map_Forall_empty].
  - specialize (Hsmall items eq_refl).
    pose proof (loadLoop_spec items ∅ 0) as Hspec.
    destruct (loadLoop items ∅ 0) as [labelMap maxID | |]; [| done | discriminate].
    injection Hinit as <-. destruct Hspec as (Hvalid & Hmax & Hle & Hin & Hlookup).
    assert (Hbound : 0 <= maxID < 2 ^ 31 - 1).
    { split; [exact Hmax |]. destruct Hin as [-> | Hin]; [lia |].
      apply list_elem_of_fmap in Hin as (item & -> & Hitem).
      rewrite Forall_forall in Hsmall. by apply Hsmall. }
    unfold idsBelowNext. simpl. rewrite wrap32_small by lia. split; [lia |].
    intros k v Hk. rewrite Hlookup, lookup_empty in Hk.
    destruct (last _) as [item |] eqn:Hlast; [| discriminate]. injection Hk as <-.
    assert (Hitem : item ∈ items).
    { apply last_Some in Hlast as [l' Hl'].
      assert (Hf : item ∈ filter (fun item => fst item = k) items).
      { rewrite Hl'. apply elem_of_app. right. by apply list_elem_of_singleton. }
      by apply list_elem_of_filter in Hf as [_ ?]. }
    rewrite Forall_forall in Hvalid, Hle.
    destruct (Hvalid item Hitem) as [_ Hpos]. specialize (Hle item Hitem). simpl in *. lia.
Qed.

Lemma initLabelIDs_idsBelowNext_witness :
  idsBelowNext (MkLabelIDs (<["dog" := 7]> (<["cat" := 2]> ∅)) 8).
Proof.
  apply (initLabelIDs_idsBelowNext (Items [("dog", 3); ("cat", 2); ("dog", 7)])).
  - vm_compute. reflexivity.
  - intros items Hitems. injection Hitems as <-.
    repeat (constructor; [simpl; lia |]). constructor.
Defined.

(** *** toTFRecord *)

Section TFRecordProperties.
Context {F : Type}.

Local Abbreviation lookupID labelMap := (fun c : string => default 0 (labelMap !! c)).

Lemma idsDistinct_insert (labelMap : gmap string Z) (k : string) (next : Z) :
  map_Forall (fun _ v => 0 < v < next) labelMap ->
  idsDistinct labelMap -> idsDistinct (<[k := next]> labelMap).
Proof.
  intros Hbelow Hdistinct k1 k2 v H1 H2.
  destruct (decide (k1 = k)) as [-> | Hne1], (decide (k2 = k)) as [-> | Hne2];
    [reflexivity | | |].
  - rewrite lookup_insert_eq in H1. injection H1 as <-.
    rewrite lookup_insert_ne in H2 by done. specialize (Hbelow _ _ H2). simpl in Hbelow. lia.
  - rewrite lookup_insert_eq in H2. injection H2 as <-.
    rewrite lookup_insert_ne in H1 by done. specialize (Hbelow _ _ H1). simpl in Hbelow. lia.
  - rewrite lookup_insert_ne in H1, H2 by done. by apply (Hdistinct k1 k2 v).
Qed.

Lemma assignClassIDs_inv (annotations : list (Annotation F)) (ids ids' : LabelIDs)
    (cids : list Z) :
  idsBelowNext ids ->
  tfRecordNextLabelID ids + Z.of_nat (length annotations) < 2 ^ 31 ->
  assignClassIDs annotations ids = (cids, ids') ->
  idsBelowNext ids' /\
  tfRecordLabelMap ids ⊆ tfRecordLabelMap ids' /\
  tfRecordNextLabelID ids' - tfRecordNextLabelID ids
  = Z.of_nat (size (tfRecordLabelMap ids')) - Z.of_nat (size (tfRecordLabelMap ids)) /\
  tfRecordNextLabelID ids <= tfRecordNextLabelID ids'
    <= tfRecordNextLabelID ids + Z.of_nat (length annotations) /\
  (idsDistinct (tfRecordLabelMap ids) -> idsDistinct (tfRecordLabelMap ids')) /\
  cids = map (lookupID (tfRecordLabelMap ids')) (map Label annotations) /\
  Forall (fun c => is_Some (tfRecordLabelMap ids' !! c)) (map Label annotations).
Proof.
  revert ids ids' cids.
  induction annotations as [| a rest IH]; intros [labelMap next] ids' cids Hinv Hroom Hassign.
  - simpl in Hassign. injection Hassign as <- <-.
    split; [exact Hinv |]. split; [reflexivity |]. split; [lia |].
    split; [simpl; lia |]. split; [done |]. split; [reflexivity | constructor].
  - simpl in Hassign. simpl in Hroom. pose proof Hinv as [Hnext Hbelow]. simpl in Hnext, Hbelow.
    destruct (labelMap !! Label a) as [v |] eqn:Hlabel; simpl in Hassign.
    + pose proof (Hbelow _ _ Hlabel) as Hv. simpl in Hv.
      rewrite (proj2 (Z.eqb_neq v 0)) in Hassign by lia.
      destruct (assignClassIDs rest _) as [cids0 ids0] eqn:Hrest.
      injection Hassign as <- <-.
      destruct (IH _ _ _ Hinv ltac:(simpl; lia) Hrest)
        as (Hinv' & Hsub & Hsize & Hrange & Hdistinct & Hcids & Hsome).
      simpl in *.
      assert (Hlookup : tfRecordLabelMap ids0 !! Label a = Some v)
        by (by apply (lookup_weaken _ _ _ _ Hlabel)).
      split; [exact Hinv' |]. split; [exact Hsub |]. split; [exact Hsize |].
      split; [lia |]. split; [exact Hdistinct |].
      split; [by rewrite Hlookup, Hcids | constructor; [by eexists | exact Hsome]].
    + destruct (assignClassIDs rest _) as [cids0 ids0] eqn:Hrest.
      injection Hassign as <- <-.
      rewrite wrap32_small in Hrest by lia.
      assert (Hinv1 : idsBelowNext (MkLabelIDs (<[Label a := next]> labelMap) (next + 1))).
      { split; simpl; [lia |]. apply map_Forall_insert_2; [lia |].
        intros k v Hk. specialize (Hbelow k v Hk). simpl in Hbelow. lia. }
      destruct (IH _ _ _ Hinv1 ltac:(simpl; lia) Hrest)
        as (Hinv' & Hsub & Hsize & Hrange & Hdistinct & Hcids & Hsome).
      simpl in *.
      assert (Hlookup : tfRecordLabelMap ids0 !! Label a = Some next).
      { apply (lookup_weaken _ _ _ _ (lookup_insert_eq labelMap (Label a) next) Hsub). }
      split; [exact Hinv' |].
      split; [etrans; [apply insert_subseteq; exact Hlabel | exact Hsub] |].
      split; [rewrite map_size_insert_None in Hsize by exact Hlabel; lia |].
      split; [lia |].
      split; [intros Hd; apply Hdistinct; by apply idsDistinct_insert |].
      split; [by rewrite Hlookup, Hcids | constructor; [by eexists | exact Hsome]].
Qed.

Lemma toTFRecords_inv (readable : string -> bool) (data : AnnotatedFiles F)
    (ids ids' : LabelIDs) (examples : list ClassFeatures) :
  idsBelowNext ids ->
  tfRecordNextLabelID ids + Z.of_nat (numLabels data) < 2 ^ 31 ->
  toTFRecords readable data ids = (examples, ids') ->
  idsBelowNext ids' /\
  tfRecordLabelMap ids ⊆ tfRecordLabelMap ids' /\
  tfRecordNextLabelID ids' - tfRecordNextLabelID ids
  = Z.of_nat (size (tfRecordLabelMap ids')) - Z.of_nat (size (tfRecordLabelMap ids)) /\
  (idsDistinct (tfRecordLabelMap ids) -> idsDistinct (tfRecordLabelMap ids')) /\
  Forall (fun e => classIDs e = map (lookupID (tfRecordLabelMap ids')) (classes e) /\
                   Forall (fun c => is_Some (tfRecordLabelMap ids' !! c)) (classes e))
         examples.
Proof.
  revert ids ids' examples.
  induction data as [| d rest IH]; intros ids ids' examples Hinv Hroom Hall.
  - simpl in Hall. injection Hall as <- <-.
    split; [exact Hinv |]. split; [reflexivity |]. split; [lia |].
    split; [done | constructor].
  - simpl in Hall. unfold toTFRecord in Hall.
    assert (Hnum : numLabels (d :: rest) = (length (Annotations d) + numLabels rest)%nat)
      by (unfold numLabels; simpl; by rewrite length_app).
    rewrite Hnum in Hroom.
    destruct (negb (readable (FilePath d))).
    + destruct (toTFRecords readable rest ids) as [examples0 ids0] eqn:Hrest.
      injection Hall as <- <-.
      assert (Hroom2 : tfRecordNextLabelID ids + Z.of_nat (numLabels rest) < 2 ^ 31) by lia.
      apply (IH _ _ _ Hinv Hroom2 Hrest).
    + destruct (assignClassIDs (Annotations d) ids) as [cids ids1] eqn:Hassign.
      destruct (toTFRecords readable rest ids1) as [examples0 ids0] eqn:Hrest.
      injection Hall as <- <-.
      assert (Hroom1 : tfRecordNextLabelID ids + Z.of_nat (length (Annotations d)) < 2 ^ 31)
        by lia.
      destruct (assignClassIDs_inv _ _ _ _ Hinv Hroom1 Hassign)
        as (Hinv1 & Hsub1 & Hsize1 & Hrange1 & Hdistinct1 & Hcids & Hsome).
      assert (Hroom2 : tfRecordNextLabelID ids1 + Z.of_nat (numLabels rest) < 2 ^ 31)
        by lia.
      destruct (IH _ _ _ Hinv1 Hroom2 Hrest)
        as (Hinv' & Hsub & Hsize & Hdistinct & Hexamples).
      split; [exact Hinv' |]. split; [by etrans |]. split; [lia |].
      split; [intros Hd; by apply Hdistinct, Hdistinct1 |].
      constructor; [| exact Hexamples]. simpl. split.
      * rewrite Hcids. apply map_ext_in. intros c Hc.
        rewrite Forall_forall in Hsome.
        destruct (Hsome c ltac:(by apply list_elem_of_In)) as [v Hv].
        by rewrite Hv, (lookup_weaken _ _ _ _ Hv Hsub).
      * apply (Forall_impl _ _ _ Hsome). intros c [v Hv].
        exists v. by apply (lookup_weaken _ _ _ _ Hv Hsub).
Qed.

(** X25: when the ids of the label map are positive and below the next id,
    and the next id leaves room below [2^31] for one id per annotation,
    calls of [toTFRecord] keep every mapping the label map had, and every
    class id they write is the id that the label map, as it is after the
    calls, gives to the class text written with it. *)
Theorem toTFRecords_consistent (readable : string -> bool) (data : AnnotatedFiles F)
    (ids ids' : LabelIDs) (examples : list ClassFeatures) :
  idsBelowNext ids ->
  tfRecordNextLabelID ids + Z.of_nat (numLabels data) < 2 ^ 31 ->
  toTFRecords readable data ids = (examples, ids') ->
  tfRecordLabelMap ids ⊆ tfRecordLabelMap ids' /\
  Forall (fun e => Forall2 (fun id c => tfRecordLabelMap ids' !! c = Some id)
                           (classIDs e) (classes e))
         examples.
Proof.
  intros Hinv Hroom Hall.
  destruct (toTFRecords_inv readable data ids ids' examples Hinv Hroom Hall)
    as (_ & Hsub & _ & _ & Hexamples).
  split; [exact Hsub |].
  apply (Forall_impl _ _ _ Hexamples). intros e [-> Hsome].
  induction (classes e) as [| c l IHl]; simpl; [constructor |].
  apply Forall_cons in Hsome as [[v Hv] Hrest].
  constructor; [by rewrite Hv | by apply IHl].
Qed.

(** X26: under the same conditions, calls of [toTFRecord] leave the ids of
    the label map positive and below the next id, the next id has advanced
    by the number of labels added, and if no two labels shared an id
    before, none do after. *)
Theorem toTFRecords_fresh_ids (readable : string -> bool) (data : AnnotatedFiles F)
    (ids ids' : LabelIDs) (examples : list ClassFeatures) :
  idsBelowNext ids ->
  tfRecordNextLabelID ids + Z.of_nat (numLabels data) < 2 ^ 31 ->
  toTFRecords readable data ids = (examples, ids') ->
  idsBelowNext ids' /\
  tfRecordNextLabelID ids' - tfRecordNextLabelID ids
  = Z.of_nat (size (tfRecordLabelMap ids')) - Z.of_nat (size (tfRecordLabelMap ids)) /\
  (idsDistinct (tfRecordLabelMap ids) -> idsDistinct (tfRecordLabelMap ids')).
Proof.
  intros Hinv Hroom Hall.
  destruct (toTFRecords_inv readable data ids ids' examples Hinv Hroom Hall)
    as (Hinv' & _ & Hsize & Hdistinct & _).
  split; [exact Hinv' |]. split; [exact Hsize | exact Hdistinct].
Qed.

End TFRecordProperties.

Lemma toTFRecords_consistent_witness :
  tfRecordLabelMap (MkLabelIDs ∅ 1)
    ⊆ tfRecordLabelMap (snd (toTFRecords (fun _ => true) filterInput (MkLabelIDs ∅ 1))) /\
  Forall (fun e =>
            Forall2 (fun id c =>
                       tfRecordLabelMap
                         (snd (toTFRecords (fun _ => true) filterInput (MkLabelIDs ∅ 1)))
                         !! c = Some id)
                    (classIDs e) (classes e))
         (fst (toTFRecords (fun _ => true) filterInput (MkLabelIDs ∅ 1))).
Proof.
  apply (toTFRecords_consistent (fun _ => true) filterInput (MkLabelIDs ∅ 1)).
  - split; [simpl; lia | apply map_Forall_empty].
  - vm_compute. reflexivity.
  - apply surjective_pairing.
Defined.

Lemma toTFRecords_fresh_ids_witness :
  idsBelowNext (snd (toTFRecords (fun _ => true) filterInput (MkLabelIDs ∅ 1))) /\
  tfRecordNextLabelID (snd (toTFRecords (fun _ => true) filterInput (MkLabelIDs ∅ 1)))
  - tfRecordNextLabelID (MkLabelIDs ∅ 1)
  = Z.of_nat (size (tfRecordLabelMap
                      (snd (toTFRecords (fun _ => true) filterInput (MkLabelIDs ∅ 1)))))
    - Z.of_nat (size (tfRecordLabelMap (MkLabelIDs ∅ 1))) /\
  (idsDistinct (tfRecordLabelMap (MkLabelIDs ∅ 1)) ->
   idsDistinct (tfRecordLabelMap
                  (snd (toTFRecords (fun _ => true) filterInput (MkLabelIDs ∅ 1))))).
Proof.
  apply (toTFRecords_fresh_ids (fun _ => true) filterInput (MkLabelIDs ∅ 1) _
           (fst (toTFRecords (fun _ => true) filterInput (MkLabelIDs ∅ 1)))).
  - split; [simpl; lia | apply map_Forall_empty].
  - vm_compute. reflexivity.
  - apply surjective_pairing.
Defined.

(** *** AWS Rekognition *)

Section AWSProperties.
Context {F : Type} `{Float64 F}.

Lemma unrollInstances_attributes (a : AWSLabel.t F) (width height : Z) :
  Forall (fun annotation =>
            Label annotation = AWSLabel.Name a /\
            Attributes annotation !! AncestorLabels = Some (AStrings (AWSLabel.Parents a)) /\
            exists c, Attributes annotation !! Confidence = Some (AFloat c))
         (unrollInstances a width height).
Proof.
  unfold unrollInstances. apply Forall_forall. intros annotation Hin.
  apply list_elem_of_fmap in Hin as (i & -> & _). simpl.
  split; [reflexivity |]. split; [by rewrite lookup_insert_eq |].
  eexists. rewrite lookup_insert_ne by done. by rewrite lookup_insert_eq.
Qed.

(** X28: [parseAWSDetectLabelsFile] makes one annotation of every instance
    of every label, in their order, under the name of the label: a label
    without instances yields none. Every annotation has the list of the
    parents' names as its "AncestorLabels" attribute and a number as its
    "Confidence" attribute. *)
Theorem parseAWSDetectLabelsFile_unrolls (labels : list (AWSLabel.t F))
    (width height : Z) (imagePath : string) :
  exists file,
    parseAWSDetectLabelsFile (Some labels) (Some (width, height)) imagePath = Some file /\
    FilePath file = imagePath /\
    map Label (Annotations file)
    = concat (map (fun a => replicate (length (AWSLabel.Instances a)) (AWSLabel.Name a))
                  labels) /\
    Forall (fun annotation =>
              (exists ancestors,
                 Attributes annotation !! AncestorLabels = Some (AStrings ancestors)) /\
              (exists c, Attributes annotation !! Confidence = Some (AFloat c)))
           (Annotations file).
Proof.
  eexists. split; [reflexivity |]. split; [reflexivity |]. simpl. split.
  - induction labels as [| a rest IH]; [reflexivity |].
    simpl. rewrite map_app, IH. f_equal.
    unfold unrollInstances. rewrite map_map. simpl.
    induction (AWSLabel.Instances a) as [| i l IHl]; [reflexivity |].
    simpl. by rewrite IHl.
  - induction labels as [| a rest IH]; simpl; [constructor |].
    apply Forall_app. split; [| exact IH].
    apply (Forall_impl _ _ _ (unrollInstances_attributes a width height)).
    intros annotation (_ & Hancestors & Hconfidence). split; [by eexists | exact Hconfidence].
Qed.

Variables (labelNames attributes rest : list string).
Variables (minConfidence : F) (requireLabel : bool).
Variables (minBboxWidth minBboxHeight minAspectRatio maxAspectRatio : F).

(** X29: [Filter] with "AncestorLabels" as the first required attribute
    panics on every dataset that holds a file read by
    [parseAWSDetectLabelsFile] with an annotation that passes the
    confidence, size, aspect ratio and label filters. *)
Theorem Filter_AWS_ancestors_panics (labels : list (AWSLabel.t F)) (width height : Z)
    (imagePath : string) (file : AnnotatedFile F) (data : AnnotatedFiles F)
    (a : Annotation F) :
  parseAWSDetectLabelsFile (Some labels) (Some (width, height)) imagePath = Some file ->
  file ∈ data -> a ∈ Annotations file ->
  failsConfidence minConfidence a = false ->
  failsBboxSize minBboxWidth minBboxHeight a = false ->
  failsAspectRatio minAspectRatio maxAspectRatio a = false ->
  failsLabels labelNames a = false ->
  Filter labelNames attributes (AncestorLabels :: rest) minConfidence requireLabel
    minBboxWidth minBboxHeight minAspectRatio maxAspectRatio data = Panicked.
Proof.
  intros Hparse Hfile Ha Hc Hb Hr Hl.
  apply Filter_Panicked_files. apply Exists_exists. exists file. split; [exact Hfile |].
  apply Exists_exists. exists a. split; [exact Ha |].
  simpl in Hparse. injection Hparse as <-. simpl in Ha.
  apply list_elem_of_In, in_concat in Ha as (l & Hl' & Hin).
  apply in_map_iff in Hl' as (lbl & <- & _).
  pose proof (unrollInstances_attributes lbl width height) as Hattrs.
  rewrite Forall_forall in Hattrs.
  destruct (Hattrs a ltac:(by apply list_elem_of_In)) as (_ & Hancestors & _).
  unfold filterAnnotation. rewrite Hc, Hb, Hr, Hl. simpl. by rewrite Hancestors.
Qed.

(** X30: [Filter] returns, without a panic, on every dataset whose files
    were read by [parseAWSDetectTextFile], whatever its parameters. *)
Theorem Filter_AWS_text_returns (requiredAttrs : list string) (data : AnnotatedFiles F) :
  Forall (fun file => exists detections config imagePath,
            parseAWSDetectTextFile detections config imagePath = Some file) data ->
  exists out log,
    Filter labelNames attributes requiredAttrs minConfidence requireLabel
      minBboxWidth minBboxHeight minAspectRatio maxAspectRatio data = Done (out, log).
Proof.
  intros Hread.
  destruct (Filter _ _ _ _ _ _ _ _ _ data) as [[out log] |] eqn:Hfilter; [by eexists _, _ |].
  exfalso. apply Filter_Panicked_files in Hfilter.
  apply Exists_exists in Hfilter as (d & Hd & Hex).
  apply Exists_exists in Hex as (a & Ha & Hpanic).
  rewrite Forall_forall in Hread.
  destruct (Hread d Hd) as (detections & config & imagePath & Hparse).
  destruct detections as [detections |]; [| discriminate].
  destruct config as [[width height] |]; [| discriminate].
  simpl in Hparse. injection Hparse as <-. simpl in Ha.
  apply list_elem_of_fmap in Ha as (t & -> & _).
  revert Hpanic. apply filterAnnotation_no_list. simpl. intros k l _.
  destruct (decide (k = Confidence)) as [-> | Hk]; [by rewrite lookup_insert_eq |].
  rewrite lookup_insert_ne by done.
  destruct (decide (k = DetectedText)) as [-> | Hk']; [by rewrite lookup_insert_eq |].
  rewrite lookup_insert_ne by done. by rewrite lookup_empty.
Qed.

End AWSProperties.

(** *** The properties above at concrete inputs *)

Lemma parseLabelsWithOneToOneImages_sound_witness :
  exists labelFiles imageFiles,
    listDir "labels" ".json" = Some labelFiles /\
    listDir "images" "" = Some imageFiles /\
    Forall (fun fileData =>
              exists labelPath imageFile dir dir' b e e',
                labelPath ∈ labelFiles /\ imageFile ∈ imageFiles /\
                splitPath labelPath = Some (dir, b, e') /\
                splitPath imageFile = Some (dir', b, e) /\
                parseStub labelPath (joinPath "images" (b +:+ "." +:+ e)) = Some fileData)
           [ {| Annotations := []; FilePath := "images/a.png" |} ].
Proof.
  apply (parseLabelsWithOneToOneImages_sound listDir joinPath parseStub
           "labels" ".json" "images").
  vm_compute. reflexivity.
Defined.

Lemma Filter_AWS_ancestors_panics_witness :
  Filter [] [] [AncestorLabels] (b64_int 0) false (b64_int 0) (b64_int 0) (b64_int 0)
    (b64_int 0)
    [ {| Annotations := unrollInstances dogLabel 100 100; FilePath := "dog.jpg" |} ]
  = Panicked.
Proof.
  apply (Filter_AWS_ancestors_panics [] [] [] (b64_int 0) false (b64_int 0) (b64_int 0)
           (b64_int 0) (b64_int 0) [dogLabel] 100 100 "dog.jpg"
           {| Annotations := unrollInstances dogLabel 100 100; FilePath := "dog.jpg" |}
           _
           {| Attributes :=
                <[AncestorLabels := AStrings ["Animal"]]>
                  (<[Confidence := AFloat (f_div (b64_int 90) f_100)]> ∅);
              Coords := awsCoords (AWSBoundingBox.Mk (b64 1 10) (b64 1 10) (b64 1 2) (b64 1 2))
                                  100 100;
              Label := "Dog" |}).
  - vm_compute. reflexivity.
  - apply elem_of_cons. by left.
  - apply elem_of_cons. by left.
  - vm_compute. reflexivity.
  - vm_compute. reflexivity.
  - vm_compute. reflexivity.
  - vm_compute. reflexivity.
Defined.

Lemma Filter_AWS_text_returns_witness :
  exists out log,
    Filter [] [] [DetectedText] (b64 1 2) true (b64_int 0) (b64_int 0) (b64_int 0)
      (b64_int 0)
      [ {| Annotations :=
             [ {| Attributes :=
                    <[Confidence := AFloat (f_div (b64_int 80) f_100)]>
                      (<[DetectedText := AString "hello"]> ∅);
                  Coords := awsCoords (AWSBoundingBox.Mk (b64 1 10) (b64 1 10)
                                                         (b64 1 2) (b64 1 2)) 100 100;
                  Label := "Text_Word" |} ];
           FilePath := "t.jpg" |} ]
    = Done (out, log).
Proof.
  apply (Filter_AWS_text_returns [] [] (b64 1 2) true (b64_int 0) (b64_int 0) (b64_int 0)
           (b64_int 0) [DetectedText]).
  constructor; [| constructor].
  exists (Some [helloDetection]), (Some (100, 100)), "t.jpg". reflexivity.
Defined.
